(** * Tonto's Card Game: a shallow embedding of [tonto/card.py],
    [tonto/deck.py], [tonto/player.py] and [tonto/game.py], with the
    properties of the leaderboard and of the round loop.

    Python integers are unbounded and are modelled by [Z].  A Python list is
    a [list] in the same order (index 0 first), so the top of a deck, which
    [list.pop()] removes, is the LAST element.  Exceptions are values of
    [exn], carried by the [result] type. *)

From Stdlib Require Import ZArith String Ascii List Bool Lia.
From Stdlib Require Import Permutation Sorted DecimalString ListDec.
Import ListNotations.
Open Scope string_scope.
Open Scope list_scope.
Open Scope Z_scope.

(* ================================================================== *)
(** * Exceptions and results *)

(** [tonto/exception.py], together with the built-in exceptions the game
    can meet: [IndexError] (list indexing, [random.choice] on an empty
    sequence), [KeyError] (a missing dictionary key or template name) and
    [ValueError] (an invalid placeholder in a template). *)
Inductive exn : Type :=
| DeckEmptyError
| GameError (err : string)
| InvalidPlayerError (err : string)
| IndexError
| KeyError (key : string)
| ValueError.

Inductive result (A : Type) : Type :=
| Ok (a : A)
| Raise (e : exn).
Arguments Ok {A} a.
Arguments Raise {A} e.

Definition bind {A B : Type} (m : result A) (k : A -> result B) : result B :=
  match m with
  | Ok a => k a
  | Raise e => Raise e
  end.

Notation "x <- m ;; k" := (bind m (fun x => k))
  (at level 61, m at next level, right associativity).
Notation "' pat <- m ;; k" := (bind m (fun x => match x with pat => k end))
  (at level 61, pat pattern, m at next level, right associativity).

(** [[f(x) for x in l]] where [f] may raise: the first exception wins. *)
Fixpoint mapM {A B : Type} (f : A -> result B) (l : list A) : result (list B) :=
  match l with
  | [] => Ok []
  | x :: l' => y <- f x ;; ys <- mapM f l' ;; Ok (y :: ys)
  end.

(** Python's [l[i]] on a list: a negative index counts from the end, and an
    index outside [-len .. len-1] raises [IndexError]. *)
Definition py_getitem {A : Type} (l : list A) (i : Z) : result A :=
  let n := Z.of_nat (length l) in
  let j := if i <? 0 then i + n else i in
  if (j <? 0) || (n <=? j) then Raise IndexError
  else match nth_error l (Z.to_nat j) with
       | Some x => Ok x
       | None => Raise IndexError
       end.

(** Python's [sum] over a list of integers. *)
Definition py_sum (l : list Z) : Z := fold_left Z.add l 0.

(** Python's [str] of an integer. *)
Definition str_of_int (z : Z) : string := NilZero.string_of_int (Z.to_int z).

(** The line feed that ["\n".join] puts between the rows. *)
Definition newline : string := String (ascii_of_nat 10) EmptyString.

(** Whether a string holds a line feed. *)
Fixpoint has_lf (s : string) : bool :=
  match s with
  | EmptyString => false
  | String ch s' => Ascii.eqb ch (ascii_of_nat 10) || has_lf s'
  end.

(** [text.split("\n")]: the pieces of a text between its line feeds. *)
Fixpoint split_lines (text : string) : list string :=
  match text with
  | EmptyString => [EmptyString]
  | String ch rest =>
      if Ascii.eqb ch (ascii_of_nat 10) then EmptyString :: split_lines rest
      else match split_lines rest with
           | [] => [String ch EmptyString]
           | line :: more => String ch line :: more
           end
  end.

(** The lines of a text: the pieces between its line feeds; the empty text
    has no line. *)
Definition lines (text : string) : list string :=
  match text with
  | EmptyString => []
  | String _ _ => split_lines text
  end.

(** The last character of a string, if it has one. *)
Fixpoint last_char (s : string) : option ascii :=
  match s with
  | EmptyString => None
  | String ch s' =>
      match s' with
      | EmptyString => Some ch
      | String _ _ => last_char s'
      end
  end.

(* ================================================================== *)
(** * [tonto/card.py] *)

Module Card.

  (** [SUIT = IntEnum("Suit", "Spades Diamonds Hearts Clubs")]: values 1..4. *)
Inductive SUIT : Type := Spades | Diamonds | Hearts | Clubs.

  (** [RANK = IntEnum("Rank", ALL_RANKS, start=2)]: "2".."10", then Jack,
      Queen, King, Ace, with values 2..14. *)
Inductive RANK : Type :=
  | R2 | R3 | R4 | R5 | R6 | R7 | R8 | R9 | R10 | Jack | Queen | King | Ace.

Definition SUIT_value (s : SUIT) : Z :=
    match s with Spades => 1 | Diamonds => 2 | Hearts => 3 | Clubs => 4 end.

Definition RANK_value (r : RANK) : Z :=
    match r with
    | R2 => 2 | R3 => 3 | R4 => 4 | R5 => 5 | R6 => 6 | R7 => 7 | R8 => 8
    | R9 => 9 | R10 => 10 | Jack => 11 | Queen => 12 | King => 13 | Ace => 14
    end.

  (** Iteration order of the two enumerations (declaration order). *)
Definition SUITS : list SUIT := [Spades; Diamonds; Hearts; Clubs].
Definition RANKS : list RANK :=
    [R2; R3; R4; R5; R6; R7; R8; R9; R10; Jack; Queen; King; Ace].

Record t : Type := mk { suit : SUIT; rank : RANK }.

  (** [Card.score]: suit value times rank value. *)
Definition score (c : t) : Z := SUIT_value (suit c) * RANK_value (rank c).

  (** [Card.__eq__]: same rank and same suit. *)
Definition eqb (a b : t) : bool :=
    (RANK_value (rank a) =? RANK_value (rank b))
    && (SUIT_value (suit a) =? SUIT_value (suit b)).

(** [suit.name] and [rank.name]. *)
Definition SUIT_name (s : SUIT) : string :=
  match s with
  | Spades => "Spades" | Diamonds => "Diamonds"
  | Hearts => "Hearts" | Clubs => "Clubs"
  end.

Definition RANK_name (r : RANK) : string :=
  match r with
  | R2 => "2" | R3 => "3" | R4 => "4" | R5 => "5" | R6 => "6" | R7 => "7"
  | R8 => "8" | R9 => "9" | R10 => "10" | Jack => "Jack" | Queen => "Queen"
  | King => "King" | Ace => "Ace"
  end.

(** [Card.__str__]: ["{rank} of {suit}"]. *)
Definition __str__ (c : t) : string :=
  (RANK_name (rank c) ++ " of " ++ SUIT_name (suit c))%string.

(** [Card.__gt__] and [Card.__lt__] against another card: by rank only. *)
Definition __gt__ (a b : t) : bool := RANK_value (rank a) >? RANK_value (rank b).

Definition __lt__ (a b : t) : bool := RANK_value (rank a) <? RANK_value (rank b).

End Card.

(** [sorted(l)] on objects that define [__lt__]: a stable sort into
    ascending order that only asks [y < x]. *)
Fixpoint insert_lt {A : Type} (lt : A -> A -> bool) (x : A) (l : list A)
  : list A :=
  match l with
  | [] => [x]
  | y :: l' => if lt y x then y :: insert_lt lt x l' else x :: l
  end.

Fixpoint sorted_lt {A : Type} (lt : A -> A -> bool) (l : list A) : list A :=
  match l with
  | [] => []
  | x :: l' => insert_lt lt x (sorted_lt lt l')
  end.

(* ================================================================== *)
(** * [tonto/deck.py] *)

Module Deck.

  (** [_initiate_deck]: the 52 cards, suit-major, rank-minor. *)
Definition full : list Card.t :=
    flat_map (fun suit => map (fun rank => Card.mk suit rank) Card.RANKS)
             Card.SUITS.

  (** [list.pop()]: removes and returns the last element. *)
Definition pop {A : Type} (l : list A) : option (A * list A) :=
    match rev l with
    | [] => None
    | x :: r => Some (x, rev r)
    end.

  (** [Deck.__eq__] on the underlying lists (element-wise [Card.__eq__]). *)
Fixpoint cards_eqb (a b : list Card.t) : bool :=
    match a, b with
    | [], [] => true
    | x :: a', y :: b' => Card.eqb x y && cards_eqb a' b'
    | _, _ => false
    end.

Section WithRandom.
    (** The state of a [random.Random] instance, and what its [shuffle]
        does to a list: the new state and the rearranged list. *)
Context {R : Type}.
Variable rand_shuffle : R -> list Card.t -> R * list Card.t.

Record t : Type := mk {
      _deck : list Card.t;
      _rand : R;
      _current_card : Z
    }.

Definition _initiate_deck (self : t) : t :=
      {| _deck := full; _rand := _rand self; _current_card := 0 |}.

    (** [Deck(empty, random_instance)]; [fresh] is the state of the
        [Random()] the constructor creates when none is given. *)
Definition __init__ (fresh : R) (empty : bool) (random_instance : option R)
      : t :=
      let self := {| _deck := [];
                     _rand := match random_instance with
                              | Some r => r
                              | None => fresh
                              end;
                     _current_card := 0 |} in
      if negb empty then _initiate_deck self else self.

Definition add_card (self : t) (card : Card.t) : t :=
      {| _deck := _deck self ++ [card]; _rand := _rand self;
         _current_card := _current_card self |}.

Definition get_card (self : t) : result (Card.t * t) :=
      match pop (_deck self) with
      | Some (card, rest) =>
          Ok (card, {| _deck := rest; _rand := _rand self;
                       _current_card := _current_card self |})
      | None => Raise DeckEmptyError
      end.

Definition new_deck (self : t) : t := _initiate_deck self.

Definition shuffle (self : t) : t :=
      let (r, l) := rand_shuffle (_rand self) (_deck self) in
      {| _deck := l; _rand := r; _current_card := _current_card self |}.

Definition top_card (self : t) : option Card.t :=
      match rev (_deck self) with
      | [] => None
      | x :: _ => Some x
      end.

Definition __bool__ (self : t) : bool :=
      match _deck self with [] => false | _ :: _ => true end.

Definition __len__ (self : t) : Z := Z.of_nat (length (_deck self)).

(** [Deck.sort_cards(order)]: a new [Deck(empty=True)] that receives, suit
    name by suit name of [order], the cards of that suit sorted by
    [sorted]. *)
Definition sort_cards (fresh : R) (self : t) (order : list string) : t :=
  fold_left
    (fun sorted_deck suit =>
       fold_left add_card
         (sorted_lt Card.__lt__
            (filter (fun deck => String.eqb (Card.SUIT_name (Card.suit deck))
                                            suit)
                    (_deck self)))
         sorted_deck)
    order (__init__ fresh true None).

(** [Deck.__getitem__] with an integer index. *)
Definition __getitem__ (self : t) (index : Z) : result Card.t :=
  py_getitem (_deck self) index.

(** [Deck.__next__]: [None] is [StopIteration]. *)
Definition __next__ (self : t) : option (Card.t * t) :=
  match py_getitem (_deck self) (_current_card self) with
  | Ok card =>
      Some (card, {| _deck := _deck self; _rand := _rand self;
                     _current_card := _current_card self + 1 |})
  | Raise _ => None
  end.

(** [n] calls of [next(deck)], stopping at the first [StopIteration]: the
    cards returned and the deck afterwards. *)
Fixpoint nexts (n : nat) (self : t) : list Card.t * t :=
  match n with
  | O => ([], self)
  | S n' =>
      match __next__ self with
      | Some (card, self') =>
          let (cards, self'') := nexts n' self' in (card :: cards, self'')
      | None => ([], self)
      end
  end.

(** [Deck.__eq__] against another deck. *)
Definition __eq__ (self other : t) : bool :=
  cards_eqb (_deck self) (_deck other).

End WithRandom.

End Deck.

(* ================================================================== *)
(** * [tonto/player.py]: [Player] *)

Module Player.

  (** A hand is a [Deck(empty=True)] that only ever receives [add_card],
      indexing, iteration, [len] and [==]; its random source and cursor are
      never used, so the hand is the hand deck's card list. *)
Record t : Type := mk { hand : list Card.t; name : string }.

Definition __init__ (name : string) : t := {| hand := []; name := name |}.

Definition clear_hand (self : t) : t := {| hand := []; name := name self |}.

Definition draw_card (self : t) (card : Card.t) : t :=
    {| hand := hand self ++ [card]; name := name self |}.

  (** [Player.score(round_number)]. *)
Definition score (self : t) (round_number : Z) : result Z :=
    if negb (round_number =? 0) then
      if round_number >? Z.of_nat (length (hand self)) then Ok 0
      else card <- py_getitem (hand self) (round_number - 1) ;;
           Ok (Card.score card)
    else Ok (py_sum (map Card.score (hand self))).

  (** [score()] with the default argument. *)
Definition score_default (self : t) : result Z := score self 0.

  (** [Player.__eq__]: same hand and same name. *)
Definition eqb (a b : t) : bool :=
    Deck.cards_eqb (hand a) (hand b) && String.eqb (name a) (name b).

End Player.

(* ================================================================== *)
(** * Built-ins used by [Players] *)

(** [sorted(l, key=..., reverse=True)] on a list already decorated with its
    keys: a stable sort into descending key order (elements with equal keys
    keep their original relative order, also under [reverse=True]). *)
Fixpoint insert_reverse {A : Type} (x : A * Z) (l : list (A * Z))
  : list (A * Z) :=
  match l with
  | [] => [x]
  | y :: l' => if snd x <? snd y then y :: insert_reverse x l' else x :: l
  end.

Fixpoint sorted_reverse {A : Type} (l : list (A * Z)) : list (A * Z) :=
  match l with
  | [] => []
  | x :: l' => insert_reverse x (sorted_reverse l')
  end.

(** Descending order of the keys, and the test for one key. *)
Definition key_ge {A : Type} (x y : A * Z) : Prop := snd y <= snd x.

Definition key_is {A : Type} (s : Z) (x : A * Z) : bool := snd x =? s.

(** A [dict] with integer keys, in insertion order. *)
Definition dict (V : Type) : Type := list (Z * V).

(** [d[k] = v]: a present key keeps its position, a new key goes last. *)
Fixpoint dict_set {V : Type} (d : dict V) (k : Z) (v : V) : dict V :=
  match d with
  | [] => [(k, v)]
  | (k', v') :: d' =>
      if k' =? k then (k, v) :: d' else (k', v') :: dict_set d' k v
  end.

(** [d.get(k, default)]. *)
Fixpoint dict_get {V : Type} (d : dict V) (k : Z) (default : V) : V :=
  match d with
  | [] => default
  | (k', v') :: d' => if k' =? k then v' else dict_get d' k default
  end.

(** The decoration [sorted] computes with [key=lambda x: x.score(rn)]:
    every player with its score. *)
Definition decorate (rn : Z) (x : Player.t) : result (Player.t * Z) :=
  s <- Player.score x rn ;; Ok (x, s).

(* ================================================================== *)
(** * [tonto/player.py]: [Players] *)

Module Players.

(** The [PLACE] named tuple; [None] is Python's [None]. *)
Record PLACE : Type := mkPLACE {
  player : option Player.t;
  players : list Player.t;
  name : option string;
  names : list string;
  place : Z;
  score : Z;
  tie : bool
}.

Definition EMPTY_PLACE : PLACE := mkPLACE None [] None [] 0 0 false.

(** A [Players] object.  The attribute that [setattr(self, name, player)]
    adds for every player is an alias of the entry of [_players] with that
    name, so the dynamic attributes are read off [_players]. *)
Record t : Type := mk { _current_player : Z; _players : list Player.t }.

(** Names bound in the body of [class Players], with the entries every
    class dictionary has. *)
Definition CLASS_ATTRS : list string :=
  ["__init__"; "reset"; "first"; "second"; "third"; "_get_leaderboard";
   "__getitem__"; "__iter__"; "__len__"; "__next__"; "__str__"; "__eq__";
   "__hash__"; "__module__"; "__doc__"; "__dict__"; "__weakref__"]%string.

(** Attributes every instance inherits from [object] (CPython 3.11). *)
Definition OBJECT_ATTRS : list string :=
  ["__class__"; "__delattr__"; "__dir__"; "__format__"; "__ge__";
   "__getattribute__"; "__getstate__"; "__gt__"; "__init_subclass__";
   "__le__"; "__lt__"; "__ne__"; "__new__"; "__reduce__"; "__reduce_ex__";
   "__repr__"; "__setattr__"; "__sizeof__"; "__subclasshook__"]%string.

(** Attributes [__init__] binds on the instance before its loop. *)
Definition INSTANCE_ATTRS : list string :=
  ["_current_player"; "_players"]%string.

(** The attributes a [Players] object has before any player is added. *)
Definition RESERVED : list string :=
  INSTANCE_ATTRS ++ CLASS_ATTRS ++ OBJECT_ATTRS.

(** [hasattr(self, name)]. *)
Definition hasattr (self : t) (name : string) : bool :=
  existsb (String.eqb name)
    (INSTANCE_ATTRS ++ map Player.name (_players self)
     ++ CLASS_ATTRS ++ OBJECT_ATTRS).

(** The [for name in names] loop of [Players.__init__]. *)
Fixpoint __init__loop (self : t) (names : list string) : result t :=
  match names with
  | [] => Ok self
  | name :: names' =>
      if hasattr self name then Raise (InvalidPlayerError name)
      else __init__loop
             {| _current_player := _current_player self;
                _players := _players self ++ [Player.__init__ name] |}
             names'
  end.

Definition __init__ (names : list string) : result t :=
  __init__loop {| _current_player := 0; _players := [] |} names.

Definition reset (self : t) : t :=
  {| _current_player := 0; _players := map Player.clear_hand (_players self) |}.

Definition __len__ (self : t) : Z := Z.of_nat (length (_players self)).

(** The inner [while] of [_get_leaderboard].  [l] is [l_b] from index [i]
    on, [s] is [player.score(rn)]; the result is [lis] and [l_b] from the
    new [i] on. *)
Fixpoint inner_while (s : Z) (lis : list Player.t) (l : list (Player.t * Z))
  : list Player.t * list (Player.t * Z) :=
  match l with
  | [] => (lis, l)
  | q :: l' =>
      if s =? snd q then inner_while s (lis ++ [fst q]) l' else (lis, l)
  end.

(** [PLACE(player=lis[0], players=lis, name=lis[0].name, names=[...],
    place=place, score=player.score(rn), tie=len(lis) > 1)].  [lis] is never
    empty where the tuple is built (lemma [grouped_nonempty] below). *)
Definition make_place (place : Z) (score : Z) (lis : list Player.t) : PLACE :=
  {| player := hd_error lis;
     players := lis;
     name := option_map Player.name (hd_error lis);
     names := map Player.name lis;
     place := place;
     score := score;
     tie := Z.of_nat (length lis) >? 1 |}.

(** The outer [while].  Every pass moves [i] forward, so [len(l_b)] passes
    are enough; [fuel] bounds the number of passes. *)
Fixpoint outer_while (fuel : nat) (l_b_dict : dict PLACE) (place : Z)
  (l : list (Player.t * Z)) : dict PLACE :=
  match fuel, l with
  | S fuel', player :: _ =>
      let (lis, l') := inner_while (snd player) [] l in
      let place_nt := make_place place (snd player) lis in
      outer_while fuel' (dict_set l_b_dict place place_nt) (place + 1) l'
  | _, _ => l_b_dict
  end.

(** [_get_leaderboard(rn)].  [sorted] evaluates the key [x.score(rn)] once
    per player; the loops evaluate it again on the same, unchanged players,
    so the decorated list carries the value. *)
Definition _get_leaderboard (self : t) (rn : Z) : result (dict PLACE) :=
  keyed <- mapM (decorate rn) (_players self) ;;
  let l_b := sorted_reverse keyed in
  Ok (outer_while (length l_b) [] 1 l_b).

Definition first (self : t) (round_number : Z) : result PLACE :=
  l_b_dict <- _get_leaderboard self round_number ;;
  Ok (dict_get l_b_dict 1 EMPTY_PLACE).

Definition second (self : t) (round_number : Z) : result PLACE :=
  l_b_dict <- _get_leaderboard self round_number ;;
  Ok (dict_get l_b_dict 2 EMPTY_PLACE).

Definition third (self : t) (round_number : Z) : result PLACE :=
  l_b_dict <- _get_leaderboard self round_number ;;
  Ok (dict_get l_b_dict 3 EMPTY_PLACE).

(** ["{place}: {player} ({score})".format(...)]. *)
Definition format_row (place : Z) (player : string) (score : Z) : string :=
  (str_of_int place ++ ": " ++ player ++ " (" ++ str_of_int score ++ ")")%string.

(** [Players.__str__]: the rows of the cumulative leaderboard. *)
Definition leaderboard_list (leaderboard : dict PLACE) : list string :=
  flat_map (fun '(place, place_nt) =>
              map (fun name => format_row place name (score place_nt))
                  (names place_nt))
           leaderboard.

Definition __str__ (self : t) : result string :=
  leaderboard <- _get_leaderboard self 0 ;;
  Ok (String.concat newline (leaderboard_list leaderboard)).

(** [Players.__getitem__] with an integer index. *)
Definition __getitem__ (self : t) (index : Z) : result Player.t :=
  py_getitem (_players self) index.

(** [Players.__next__]: [None] is [StopIteration]. *)
Definition __next__ (self : t) : option (Player.t * t) :=
  match py_getitem (_players self) (_current_player self) with
  | Ok player =>
      Some (player, {| _current_player := _current_player self + 1;
                       _players := _players self |})
  | Raise _ => None
  end.

(** [n] calls of [next(players)], stopping at the first [StopIteration]. *)
Fixpoint nexts (n : nat) (self : t) : list Player.t * t :=
  match n with
  | O => ([], self)
  | S n' =>
      match __next__ self with
      | Some (player, self') =>
          let (ps, self'') := nexts n' self' in (player :: ps, self'')
      | None => ([], self)
      end
  end.

(** The participants a leaderboard lists, each with its place number, in
    the order of the leaderboard. *)
Definition placing (leaderboard : dict PLACE) : list (Z * Player.t) :=
  flat_map (fun '(k, place_nt) => map (pair k) (players place_nt)) leaderboard.

(** [p.score(rn) == s]. *)
Definition has_score (rn s : Z) (p : Player.t) : bool :=
  match Player.score p rn with
  | Ok s' => s' =? s
  | Raise _ => false
  end.

(** What the two loops make of a sorted, decorated list: one entry per
    maximal run of equal keys, numbered from [place] on. *)
Inductive grouped : Z -> list (Player.t * Z) -> dict PLACE -> Prop :=
| grouped_nil (place : Z) : grouped place [] []
| grouped_cons (place : Z) (q : Player.t * Z) (g l' : list (Player.t * Z))
    (rest : dict PLACE) :
    Forall (fun x => snd x = snd q) g ->
    Forall (fun y => snd y <> snd q) (firstn 1 l') ->
    grouped (place + 1) l' rest ->
    grouped place ((q :: g) ++ l')
      ((place, make_place place (snd q) (map fst (q :: g))) :: rest).

End Players.

(** The sum of the card scores of a hand, and the row of [__str__] for a
    participant at a place. *)
Definition cumulative (p : Player.t) : Z :=
  py_sum (map Card.score (Player.hand p)).

Definition row (kp : Z * Player.t) : string :=
  Players.format_row (fst kp) (Player.name (snd kp)) (cumulative (snd kp)).

(** What [_get_leaderboard] returns for a round selector [rn >= 0]. *)
Definition leaderboard_of (self : Players.t) (rn : Z)
  (l_b_dict : dict Players.PLACE) : Prop :=
  Players._get_leaderboard self rn = Ok l_b_dict
  /\ map fst l_b_dict = map Z.of_nat (seq 1 (length l_b_dict))
  /\ Forall (fun e =>
               snd e = Players.make_place (fst e) (Players.score (snd e))
                         (Players.players (snd e))
               /\ Players.players (snd e) <> []
               /\ Players.players (snd e)
                  = filter (Players.has_score rn (Players.score (snd e)))
                           (Players._players self))
            l_b_dict
  /\ StronglySorted
       (fun e e' => Players.score (snd e') < Players.score (snd e))
       l_b_dict
  /\ Permutation (map snd (Players.placing l_b_dict))
                 (Players._players self).

(* ================================================================== *)
(** * Built-ins used by [Game]: [string.Template] *)

(** A substitution value handed to a template. *)
Inductive Value : Type :=
| VInt (z : Z)
| VStr (s : string)
| VNone
| VCard (card : Card.t).

(** [str(value)], as [Template.substitute] applies it. *)
Definition str_of_value (v : Value) : string :=
  match v with
  | VInt z => str_of_int z
  | VStr s => s
  | VNone => "None"
  | VCard card => Card.__str__ card
  end.

(** The characters of a placeholder name: [[_a-z][_a-z0-9]*], ASCII, case
    ignored. *)
Definition is_idstart (c : ascii) : bool :=
  let n := nat_of_ascii c in
  ((65 <=? n) && (n <=? 90) || (97 <=? n) && (n <=? 122) || (n =? 95))%nat.

Definition is_idchar (c : ascii) : bool :=
  let n := nat_of_ascii c in
  (is_idstart c || (48 <=? n) && (n <=? 57))%nat.

(** What a template is made of, from left to right: a character printed as
    it is ([$$] prints one [$]), a placeholder [$name] or [${name}], or a
    [$] that starts none of these, where the substitution stops. *)
Inductive token : Type :=
| Lit (c : ascii)
| Var (name : string)
| Invalid.

(** Where the scan of a template stands: in plain text, after a [$], in
    the name of [$name], after [${], in the name of [${name}]. *)
Inductive scan_mode : Type :=
| Text
| Dollar
| Named (name : string)
| BraceOpen
| Braced (name : string).

Fixpoint tokens (mode : scan_mode) (template : string) : list token :=
  match template with
  | EmptyString =>
      match mode with
      | Text => []
      | Named name => [Var name]
      | Dollar | BraceOpen | Braced _ => [Invalid]
      end
  | String c rest =>
      match mode with
      | Text =>
          if Ascii.eqb c "$" then tokens Dollar rest
          else Lit c :: tokens Text rest
      | Dollar =>
          if Ascii.eqb c "$" then Lit c :: tokens Text rest
          else if is_idstart c then tokens (Named (String c EmptyString)) rest
          else if Ascii.eqb c "{" then tokens BraceOpen rest
          else [Invalid]
      | Named name =>
          if is_idchar c
          then tokens (Named (name ++ String c EmptyString)) rest
          else Var name
               :: (if Ascii.eqb c "$" then tokens Dollar rest
                   else Lit c :: tokens Text rest)
      | BraceOpen =>
          if is_idstart c then tokens (Braced (String c EmptyString)) rest
          else [Invalid]
      | Braced name =>
          if is_idchar c
          then tokens (Braced (name ++ String c EmptyString)) rest
          else if Ascii.eqb c "}" then Var name :: tokens Text rest
          else [Invalid]
      end
  end.

(** [kwargs[name]]. *)
Fixpoint kwargs_get (name : string) (kwargs : list (string * Value))
  : option Value :=
  match kwargs with
  | [] => None
  | (k, v) :: kwargs' =>
      if String.eqb k name then Some v else kwargs_get name kwargs'
  end.

(** The replacement, token by token: a name that is no keyword argument
    raises [KeyError], an invalid [$] raises [ValueError]. *)
Fixpoint expand (ts : list token) (kwargs : list (string * Value))
  (acc : string) : result string :=
  match ts with
  | [] => Ok acc
  | Lit c :: ts' => expand ts' kwargs (acc ++ String c EmptyString)
  | Var name :: ts' =>
      match kwargs_get name kwargs with
      | Some v => expand ts' kwargs (acc ++ str_of_value v)
      | None => Raise (KeyError name)
      end
  | Invalid :: _ => Raise ValueError
  end.

(** [Template(template).substitute(kwargs)]. *)
Definition substitute (template : string) (kwargs : list (string * Value))
  : result string :=
  expand (tokens Text template) kwargs EmptyString.

Definition is_ok {A : Type} (m : result A) : bool :=
  match m with Ok _ => true | Raise _ => false end.

(* ================================================================== *)
(** * [tonto/game.py] *)

Module Game.

(** The message dictionary: category to list of templates. *)
Definition Messages : Type := list (string * list string).

(** [message[category]]: [None] where the dictionary has no such key. *)
Fixpoint lookup (category : string) (message : Messages)
  : option (list string) :=
  match message with
  | [] => None
  | (k, templates) :: message' =>
      if String.eqb k category then Some templates
      else lookup category message'
  end.

Definition VName (s : option string) : Value :=
  match s with Some n => VStr n | None => VNone end.

(** What the game does to the console, in order.  [Display] is a call of
    [_display_message] that printed: its category, its keyword arguments
    and the text printed.  [Input] is the blocking [input(prompt)] (its
    result is discarded), [Print] is [print]. *)
Inductive Output : Type :=
| Display (category : string) (kwargs : list (string * Value)) (text : string)
| Input (prompt : string)
| Print (text : string).

(** [str(b).upper()]. *)
Definition str_upper_bool (b : bool) : string :=
  if b then "TRUE"%string else "FALSE"%string.

(** [player in l]: identity or [Player.__eq__]; an identical player is an
    equal one. *)
Definition player_in (player : Player.t) (l : list Player.t) : bool :=
  existsb (fun e => Player.eqb e player) l.

(** The categories the game displays, each with the names of the keyword
    arguments it passes. *)
Definition CATEGORIES : list (string * list string) :=
  [("WELCOME", []);
   ("ROUND START", ["current_round"]);
   ("ROUND END", ["round_winner"]);
   ("ROUND END TIE", []);
   ("TURN START", ["current_player_name"]);
   ("TRUE TURN END",
    ["current_player_name"; "current_card"; "current_player_score"]);
   ("FALSE TURN END",
    ["current_player_name"; "current_card"; "current_player_score"]);
   ("GAME OVER", ["game_winner"]);
   ("GAME OVER TIE", []);
   ("EMPTY DECK", [])].

(** The template can be substituted with keyword arguments of these
    names. *)
Definition template_ok (keys : list string) (template : string) : bool :=
  is_ok (substitute template (map (fun k => (k, VNone)) keys)).

(** Every category the game displays has at least one template, and each
    of its templates can be substituted with the keyword arguments of the
    category. *)
Definition messages_ok (message : Messages) : bool :=
  forallb (fun ck =>
             match lookup (fst ck) message with
             | Some (t :: ts) => forallb (template_ok (snd ck)) (t :: ts)
             | _ => false
             end)
          CATEGORIES.

(** [seq[k]] for the index [k] that a random source draws; an index beyond
    the end is taken as the last one, and an empty sequence has no
    element. *)
Fixpoint pick (seq : list string) (k : nat) : option string :=
  match seq with
  | [] => None
  | x :: seq' =>
      match seq' with
      | [] => Some x
      | _ :: _ =>
          match k with
          | O => Some x
          | S k' => pick seq' k'
          end
      end
  end.

Section WithRandom.
Context {R : Type}.
(** [random.shuffle], and the index that [random.choice] draws for a
    sequence of a given length, each with the new state of the source. *)
Variable rand_shuffle : R -> list Card.t -> R * list Card.t.
Variable rand_below : R -> nat -> R * nat.

Record t : Type := mk {
  players : Players.t;
  _deck : @Deck.t R;
  _current_round : Z;
  _is_active : bool;
  _max_rounds : Z;
  _message : Messages;
  _rand : R
}.

Definition set_players (self : t) (l : list Player.t) : t :=
  {| players := {| Players._current_player :=
                     Players._current_player (players self);
                   Players._players := l |};
     _deck := _deck self;
     _current_round := _current_round self;
     _is_active := _is_active self;
     _max_rounds := _max_rounds self;
     _message := _message self;
     _rand := _rand self |}.

Definition set_deck (self : t) (d : @Deck.t R) : t :=
  {| players := players self;
     _deck := d;
     _current_round := _current_round self;
     _is_active := _is_active self;
     _max_rounds := _max_rounds self;
     _message := _message self;
     _rand := _rand self |}.

Definition set_current_round (self : t) (n : Z) : t :=
  {| players := players self;
     _deck := _deck self;
     _current_round := n;
     _is_active := _is_active self;
     _max_rounds := _max_rounds self;
     _message := _message self;
     _rand := _rand self |}.

Definition set_is_active (self : t) (b : bool) : t :=
  {| players := players self;
     _deck := _deck self;
     _current_round := _current_round self;
     _is_active := b;
     _max_rounds := _max_rounds self;
     _message := _message self;
     _rand := _rand self |}.

Definition set_rand (self : t) (r : R) : t :=
  {| players := players self;
     _deck := _deck self;
     _current_round := _current_round self;
     _is_active := _is_active self;
     _max_rounds := _max_rounds self;
     _message := _message self;
     _rand := r |}.

(** [Game(names, deck, max_rounds, message)].  [deck_rand] is the state of
    the [Random()] that [Deck()] creates, [game_rand] that of the game's
    own [Random()], [conf] is what [messages.conf] holds ([None] when it
    cannot be opened).  A [message] or a [deck] that is [None] or empty is
    falsy. *)
Definition __init__ (deck_rand game_rand : R) (conf : option Messages)
  (names : list string) (deck : option (@Deck.t R)) (max_rounds : Z)
  (message : option Messages) : result t :=
  if max_rounds <? 1 then Raise (GameError "Invalid max number of rounds.")
  else if Z.of_nat (length names) =? 0
  then Raise (GameError "Invalid number of players.")
  else
    _message <-
      match message with
      | Some (e :: m) => Ok (e :: m)
      | _ => match conf with
             | Some m => Ok m
             | None => Raise (GameError "Could not open messages config file.")
             end
      end ;;
    let _deck :=
      match deck with
      | Some d =>
          if Deck.__bool__ d then d
          else Deck.shuffle rand_shuffle (Deck.__init__ deck_rand false None)
      | None => Deck.shuffle rand_shuffle (Deck.__init__ deck_rand false None)
      end in
    players <- Players.__init__ names ;;
    Ok {| players := players;
          _deck := _deck;
          _current_round := 1;
          _is_active := true;
          _max_rounds := max_rounds;
          _message := _message;
          _rand := game_rand |}.

Definition end_game (self : t) : t := set_is_active self false.

Definition new_game (self : t) : t :=
  let self := set_is_active self true in
  let self := set_deck self (Deck.new_deck (_deck self)) in
  let self := set_deck self (Deck.shuffle rand_shuffle (_deck self)) in
  let self := set_current_round self 1 in
  {| players := Players.reset (players self);
     _deck := _deck self;
     _current_round := _current_round self;
     _is_active := _is_active self;
     _max_rounds := _max_rounds self;
     _message := _message self;
     _rand := _rand self |}.

Definition __bool__ (self : t) : bool := _is_active self.

(** [self._rand.choice(seq)]: [IndexError] on an empty sequence, which
    draws nothing from the random source; else the element at the index
    drawn and the new state of the source. *)
Definition choice (r : R) (seq : list string) : result (string * R) :=
  match pick seq (snd (rand_below r (length seq))) with
  | Some x => Ok (x, fst (rand_below r (length seq)))
  | None => Raise IndexError
  end.

(** [_display_message(category, **kwargs)]: [KeyError] where the dictionary
    has no such category, then what [choice] and [substitute] raise. *)
Definition _display_message (self : t) (out : list Output)
  (category : string) (kwargs : list (string * Value))
  : result (t * list Output) :=
  match lookup category (_message self) with
  | None => Raise (KeyError category)
  | Some templates =>
      '(message, r) <- choice (_rand self) templates ;;
      text <- substitute message kwargs ;;
      Ok (set_rand self r, out ++ [Display category kwargs text])
  end.

(** The [try ... except DeckEmptyError] of a turn: the card drawn, the game
    with the deck afterwards, and the console. *)
Definition draw (self : t) (out : list Output)
  : result (Card.t * t * list Output) :=
  match Deck.get_card (_deck self) with
  | Ok (card, d) => Ok (card, set_deck self d, out)
  | Raise DeckEmptyError =>
      '(self, out) <- _display_message self out "EMPTY DECK" [] ;;
      let self := set_deck self (Deck.new_deck (_deck self)) in
      let self := set_deck self (Deck.shuffle rand_shuffle (_deck self)) in
      '(card, d) <- Deck.get_card (_deck self) ;;
      Ok (card, set_deck self d, out)
  | Raise e => Raise e
  end.

(** One pass of the [for player in self.players] loop of [_next_round].
    The players are mutated in place, so the list of the game is
    [done ++ player :: todo] with [done] the players that already drew in
    this round.  The result carries the player after the draw. *)
Definition turn (self : t) (out : list Output) (done : list Player.t)
  (player : Player.t) (todo : list Player.t)
  : result (t * list Output * Player.t) :=
  '(self, out) <- _display_message self out "TURN START"
                    [("current_player_name", VStr (Player.name player))] ;;
  let out := out ++ [Input "Hit enter to draw a card."] in
  '(card, self, out) <- draw self out ;;
  let player := Player.draw_card player card in
  let self := set_players self (done ++ player :: todo) in
  first <- Players.first (players self) 0 ;;
  let pos_result := player_in player (Players.players first) in
  score <- Player.score player 0 ;;
  '(self, out) <- _display_message self out
                    (str_upper_bool pos_result ++ " TURN END")
                    [("current_player_name", VStr (Player.name player));
                     ("current_card", VCard card);
                     ("current_player_score", VInt score)] ;;
  Ok (self, out, player).

Fixpoint for_player (self : t) (out : list Output)
  (done todo : list Player.t) : result (t * list Output) :=
  match todo with
  | [] => Ok (self, out)
  | player :: todo' =>
      '(self, out, player) <- turn self out done player todo' ;;
      for_player self out (done ++ [player]) todo'
  end.

Definition _next_round (self : t) (out : list Output)
  : result (t * list Output) :=
  '(self, out) <- for_player self out [] (Players._players (players self)) ;;
  let self :=
    if _current_round self >=? _max_rounds self then end_game self
    else self in
  Ok (set_current_round self (_current_round self + 1), out).

(** The body of the [while] loop of [play]: one round and its result. *)
Definition round (self : t) (out : list Output) : result (t * list Output) :=
  '(self, out) <- _display_message self out "ROUND START"
                    [("current_round", VInt (_current_round self))] ;;
  '(self, out) <- _next_round self out ;;
  let last_round := _current_round self - 1 in
  first <- Players.first (players self) last_round ;;
  if Players.tie first
  then _display_message self out "ROUND END TIE" []
  else _display_message self out "ROUND END"
         [("round_winner", VName (Players.name first))].

(** The [while self._is_active] loop of [play]; [None] when [fuel] passes
    did not end it. *)
Fixpoint play_while (fuel : nat) (self : t) (out : list Output)
  : option (result (t * list Output)) :=
  if _is_active self then
    match fuel with
    | O => None
    | S fuel' =>
        match round self out with
        | Raise e => Some (Raise e)
        | Ok (self, out) => play_while fuel' self out
        end
    end
  else Some (Ok (self, out)).

(** Passes the loop can need: one per round up to the limit. *)
Definition rounds_left (self : t) : nat :=
  S (Z.to_nat (_max_rounds self - _current_round self)).

Definition after_loop (self : t) (out : list Output)
  : result (t * list Output) :=
  first <- Players.first (players self) 0 ;;
  '(self, out) <-
    (if Players.tie first
     then _display_message self out "GAME OVER TIE" []
     else _display_message self out "GAME OVER"
            [("game_winner", VName (Players.name first))]) ;;
  text <- Players.__str__ (players self) ;;
  Ok (self, out ++ [Print text]).

Definition play (self : t) (out : list Output)
  : option (result (t * list Output)) :=
  match _display_message self out "WELCOME" [] with
  | Raise e => Some (Raise e)
  | Ok (self, out) =>
      match play_while (rounds_left self) self out with
      | None => None
      | Some (Raise e) => Some (Raise e)
      | Some (Ok (self, out)) => Some (after_loop self out)
      end
  end.

End WithRandom.

End Game.

(* ================================================================== *)
(** * Concrete inputs *)

(** A random source whose [shuffle] leaves the list as it is. *)
Definition keep_order (r : unit) (l : list Card.t) : unit * list Card.t :=
  (r, l).

(** A random source whose [choice] takes the first element. *)
Definition first_choice (r : unit) (n : nat) : unit * nat := (r, 0%nat).

(** The message dictionary of [tests/test_game.py], one template per
    category. *)
Definition MESSAGE : Game.Messages :=
  [("WELCOME", ["Welcome."]);
   ("ROUND START", ["Round $current_round."]);
   ("ROUND END", ["$round_winner won the round."]);
   ("ROUND END TIE", ["Round was a tie."]);
   ("TURN START", ["$current_player_name turn."]);
   ("FALSE TURN END",
    ["Negative, $current_player_name drew $current_card bringing score to $current_player_score."]);
   ("TRUE TURN END",
    ["Positive, $current_player_name drew $current_card bringing score to $current_player_score."]);
   ("GAME OVER TIE", ["Game was a tie."]);
   ("GAME OVER", ["Game over, $game_winner won."]);
   ("EMPTY DECK", ["Deck empty."])].

(** The three participants of the test games. *)
Definition PLAYERS_2 : list string := ["Berkelly"; "Cez"; "Tonto"].

(** The cards of [test_basic_game_5], bottom first: the top of the deck,
    drawn first, is the last one. *)
Definition CARDS_5 : list Card.t :=
  [Card.mk Card.Clubs Card.R6;
   Card.mk Card.Spades Card.R8;
   Card.mk Card.Diamonds Card.R3;
   Card.mk Card.Clubs Card.R9;
   Card.mk Card.Clubs Card.Ace;
   Card.mk Card.Spades Card.King;
   Card.mk Card.Diamonds Card.R5;
   Card.mk Card.Diamonds Card.R3;
   Card.mk Card.Spades Card.R10].

(** [deck = Deck(empty=True)] followed by [add_card] for every card. *)
Definition deck_5 {R : Type} (fresh : R) : @Deck.t R :=
  fold_left Deck.add_card CARDS_5 (Deck.__init__ fresh true None).

(** Shorthands for the entries of a console trace. *)
Definition turn_start (name : string) : list Game.Output :=
  [Game.Display "TURN START" [("current_player_name", VStr name)]
     (name ++ " turn.")%string;
   Game.Input "Hit enter to draw a card."].

Definition turn_end (category name : string) (suit : Card.SUIT)
  (rank : Card.RANK) (score : Z) (text : string) : Game.Output :=
  Game.Display category
    [("current_player_name", VStr name);
     ("current_card", VCard (Card.mk suit rank));
     ("current_player_score", VInt score)]
    text.

(** The final leaderboard of [test_basic_game_5]. *)
Definition LEADERBOARD_GAME_5 : string :=
  String.concat newline ["1: Cez (70)"; "1: Tonto (70)"; "2: Berkelly (29)"].

(** What [test_basic_game_5] expects on the console ([GAME_5_RESULTS]):
    every call with its category, its substitution values and the text it
    prints. *)
Definition GAME_5_OUTPUT : list Game.Output :=
  [Game.Display "WELCOME" [] "Welcome.";
   Game.Display "ROUND START" [("current_round", VInt 1)] "Round 1."]
  ++ turn_start "Berkelly"
  ++ [turn_end "TRUE TURN END" "Berkelly" Card.Spades Card.R10 10
        "Positive, Berkelly drew 10 of Spades bringing score to 10."]
  ++ turn_start "Cez"
  ++ [turn_end "FALSE TURN END" "Cez" Card.Diamonds Card.R3 6
        "Negative, Cez drew 3 of Diamonds bringing score to 6."]
  ++ turn_start "Tonto"
  ++ [turn_end "TRUE TURN END" "Tonto" Card.Diamonds Card.R5 10
        "Positive, Tonto drew 5 of Diamonds bringing score to 10.";
      Game.Display "ROUND END TIE" [] "Round was a tie.";
      Game.Display "ROUND START" [("current_round", VInt 2)] "Round 2."]
  ++ turn_start "Berkelly"
  ++ [turn_end "TRUE TURN END" "Berkelly" Card.Spades Card.King 23
        "Positive, Berkelly drew King of Spades bringing score to 23."]
  ++ turn_start "Cez"
  ++ [turn_end "TRUE TURN END" "Cez" Card.Clubs Card.Ace 62
        "Positive, Cez drew Ace of Clubs bringing score to 62."]
  ++ turn_start "Tonto"
  ++ [turn_end "FALSE TURN END" "Tonto" Card.Clubs Card.R9 46
        "Negative, Tonto drew 9 of Clubs bringing score to 46.";
      Game.Display "ROUND END" [("round_winner", VStr "Cez")]
        "Cez won the round.";
      Game.Display "ROUND START" [("current_round", VInt 3)] "Round 3."]
  ++ turn_start "Berkelly"
  ++ [turn_end "FALSE TURN END" "Berkelly" Card.Diamonds Card.R3 29
        "Negative, Berkelly drew 3 of Diamonds bringing score to 29."]
  ++ turn_start "Cez"
  ++ [turn_end "TRUE TURN END" "Cez" Card.Spades Card.R8 70
        "Positive, Cez drew 8 of Spades bringing score to 70."]
  ++ turn_start "Tonto"
  ++ [turn_end "TRUE TURN END" "Tonto" Card.Clubs Card.R6 70
        "Positive, Tonto drew 6 of Clubs bringing score to 70.";
      Game.Display "ROUND END" [("round_winner", VStr "Tonto")]
        "Tonto won the round.";
      Game.Display "GAME OVER TIE" [] "Game was a tie.";
      Game.Print LEADERBOARD_GAME_5].

(** The hands at the end of [test_basic_game_5]. *)
Definition PLAYERS_GAME_5 : list Player.t :=
  [{| Player.hand := [Card.mk Card.Spades Card.R10;
                      Card.mk Card.Spades Card.King;
                      Card.mk Card.Diamonds Card.R3];
      Player.name := "Berkelly" |};
   {| Player.hand := [Card.mk Card.Diamonds Card.R3;
                      Card.mk Card.Clubs Card.Ace;
                      Card.mk Card.Spades Card.R8];
      Player.name := "Cez" |};
   {| Player.hand := [Card.mk Card.Diamonds Card.R5;
                      Card.mk Card.Clubs Card.R9;
                      Card.mk Card.Clubs Card.R6];
      Player.name := "Tonto" |}].

(** [test_basic_game_5] at the start of round 3: two rounds played, the
    three cards of round 3 left on the deck. *)
Definition game_5_round_3 : @Game.t unit :=
  {| Game.players :=
       {| Players._current_player := 0;
          Players._players := map (fun p =>
                                     {| Player.hand := firstn 2 (Player.hand p);
                                        Player.name := Player.name p |})
                                  PLAYERS_GAME_5 |};
     Game._deck := {| Deck._deck := firstn 3 CARDS_5; Deck._rand := tt;
                      Deck._current_card := 0 |};
     Game._current_round := 3;
     Game._is_active := true;
     Game._max_rounds := 3;
     Game._message := MESSAGE;
     Game._rand := tt |}.



(** [test_basic_game_5] as built, before any round. *)
Definition game_5_start : @Game.t unit :=
  {| Game.players :=
       {| Players._current_player := 0;
          Players._players := map Player.__init__ PLAYERS_2 |};
     Game._deck := deck_5 tt;
     Game._current_round := 1;
     Game._is_active := true;
     Game._max_rounds := 3;
     Game._message := MESSAGE;
     Game._rand := tt |}.

(** The order of suits of [tests/test_deck.py]. *)
Definition SORT_ORDER : list Card.SUIT :=
  [Card.Diamonds; Card.Spades; Card.Clubs; Card.Hearts].

(** A participant after [k] more draws: the same name, [k] more cards. *)
Definition grew (k : nat) (p p' : Player.t) : Prop :=
  Player.name p' = Player.name p
  /\ exists cards, length cards = k
                   /\ Player.hand p' = Player.hand p ++ cards.

(** The participants after each has drawn its card of [cards]. *)
Definition deal (ps : list Player.t) (cards : list Card.t) : list Player.t :=
  map (fun pc => Player.draw_card (fst pc) (snd pc)) (combine ps cards).

(** Games that differ at most in participants, deck and random source. *)
Definition same_settings {R : Type} (self self' : @Game.t R) : Prop :=
  Game._current_round self' = Game._current_round self
  /\ Game._is_active self' = Game._is_active self
  /\ Game._max_rounds self' = Game._max_rounds self
  /\ Game._message self' = Game._message self.

(** What a draw does to the deck [d]: it takes [card] and leaves [d'],
    after showing [shown].  Either [d] holds cards, [card] is its last
    one, [d'] is the rest and nothing is shown; or [d] is empty,
    EMPTY DECK is shown once, and [card] and [d'] are the last card and
    the rest of the 52 cards as [rand_shuffle] rearranges them with the
    random source of [d]. *)
Definition drawn {R : Type}
  (rand_shuffle : R -> list Card.t -> R * list Card.t)
  (d d' : @Deck.t R) (card : Card.t) (shown : list Game.Output) : Prop :=
  (shown = []
   /\ Deck._deck d = Deck._deck d' ++ [card]
   /\ Deck._rand d' = Deck._rand d
   /\ Deck._current_card d' = Deck._current_card d)
  \/ (Deck._deck d = []
      /\ (exists text, shown = [Game.Display "EMPTY DECK" [] text])
      /\ rand_shuffle (Deck._rand d) Deck.full
         = (Deck._rand d', Deck._deck d' ++ [card])
      /\ Deck._current_card d' = 0).

(** The deck in the order of the suits [suits], each suit from 2 to Ace. *)
Definition by_suits (suits : list Card.SUIT) : list Card.t :=
  flat_map (fun suit => map (fun rank => Card.mk suit rank) Card.RANKS) suits.

(** A deck with its iteration cursor at [cursor]. *)
Definition deck_at {R : Type} (d : @Deck.t R) (cursor : Z) : @Deck.t R :=
  {| Deck._deck := Deck._deck d; Deck._rand := Deck._rand d;
     Deck._current_card := cursor |}.

(** A participant set with its iteration cursor at [cursor]. *)
Definition players_at (ps : Players.t) (cursor : Z) : Players.t :=
  {| Players._current_player := cursor;
     Players._players := Players._players ps |}.

(** Ascending order of the ranks. *)
Definition rank_le (a b : Card.t) : Prop :=
  Card.RANK_value (Card.rank a) <= Card.RANK_value (Card.rank b).

(** [card.suit.name in order]. *)
Definition suit_in (order : list string) (card : Card.t) : bool :=
  existsb (String.eqb (Card.SUIT_name (Card.suit card))) order.

(* ================================================================== *)
(** * Properties of [Player.score] *)

Lemma py_getitem_nth {A : Type} (l : list A) (i : nat) (x : A) :
  nth_error l i = Some x -> py_getitem l (Z.of_nat i) = Ok x.
Proof.
  intros H. unfold py_getitem.
  assert (Hlt : (i < length l)%nat) by (apply nth_error_Some; congruence).
  destruct (Z.of_nat i <? 0) eqn:E; [apply Z.ltb_lt in E; lia|].
  rewrite E.
  destruct (Z.of_nat (length l) <=? Z.of_nat i) eqn:E2;
    [apply Z.leb_le in E2; lia|].
  simpl. rewrite Nat2Z.id, H. reflexivity.
Qed.

Lemma score_cumulative (p : Player.t) :
  Player.score p 0 = Ok (py_sum (map Card.score (Player.hand p))).
Proof. reflexivity. Qed.

Lemma score_drawn (p : Player.t) (r : Z) (card : Card.t) :
  0 < r ->
  nth_error (Player.hand p) (Z.to_nat (r - 1)) = Some card ->
  Player.score p r = Ok (Card.score card).
Proof.
  intros Hr Hn. unfold Player.score.
  assert (Hlt : (Z.to_nat (r - 1) < length (Player.hand p))%nat)
    by (apply nth_error_Some; congruence).
  destruct (r =? 0) eqn:E0; [apply Z.eqb_eq in E0; lia|]. simpl.
  destruct (r >? Z.of_nat (length (Player.hand p))) eqn:E1;
    [apply Z.gtb_lt in E1; lia|].
  replace (r - 1) with (Z.of_nat (Z.to_nat (r - 1))) by lia.
  rewrite (py_getitem_nth _ _ _ Hn). reflexivity.
Qed.

Lemma score_not_drawn (p : Player.t) (r : Z) :
  Z.of_nat (length (Player.hand p)) < r -> Player.score p r = Ok 0.
Proof.
  intros Hr. unfold Player.score.
  destruct (r =? 0) eqn:E0; [apply Z.eqb_eq in E0; lia|]. simpl.
  destruct (r >? Z.of_nat (length (Player.hand p))) eqn:E1; [reflexivity|].
  rewrite Z.gtb_ltb in E1. apply Z.ltb_ge in E1. lia.
Qed.

(** Outside the 1-indexed round numbers the source assumes, Python's
    negative indexing applies: on an empty hand [score(-1)] reads
    [hand[-2]] and raises. *)
Example score_negative_round :
  Player.score (Player.__init__ "Berkelly") (-1) = Raise IndexError.
Proof. reflexivity. Qed.

(** The scores of the rounds [k+1 .. k+n] of a hand whose first [k] cards
    are [pre] are the scores of the cards after [pre]. *)
Lemma score_rounds_from (nm : string) (suf pre : list Card.t) :
  mapM (Player.score {| Player.hand := pre ++ suf; Player.name := nm |})
       (map Z.of_nat (seq (S (length pre)) (length suf)))
  = Ok (map Card.score suf).
Proof.
  revert pre. induction suf as [|card suf IH]; intros pre; [reflexivity|].
  cbn [length seq map mapM].
  rewrite (score_drawn _ _ card).
  - cbn [bind].
    replace (pre ++ card :: suf) with ((pre ++ [card]) ++ suf)
      by (rewrite <- app_assoc; reflexivity).
    specialize (IH (pre ++ [card])).
    rewrite length_app, Nat.add_1_r in IH. rewrite IH. reflexivity.
  - lia.
  - cbn [Player.hand].
    replace (Z.to_nat (Z.of_nat (S (length pre)) - 1)) with (length pre) by lia.
    rewrite nth_error_app2, Nat.sub_diag by lia. reflexivity.
Qed.

(** C6. [score(0)], which is also [score()], is the sum of the card scores of
    the whole hand, and equals the sum of [score(r)] for [r] from 1 to the
    length of the hand; for [r > 0], [score(r)] is the score of the [r]-th
    card drawn when there is one, and 0 when [r] exceeds the hand's length. *)
Theorem score_rounds (p : Player.t) :
  Player.score p 0 = Ok (py_sum (map Card.score (Player.hand p)))
  /\ Player.score_default p = Player.score p 0
  /\ (exists per_round,
        mapM (Player.score p)
             (map Z.of_nat (seq 1 (length (Player.hand p)))) = Ok per_round
        /\ Player.score p 0 = Ok (py_sum per_round))
  /\ (forall r, 0 < r <= Z.of_nat (length (Player.hand p)) ->
        exists card,
          nth_error (Player.hand p) (Z.to_nat (r - 1)) = Some card
          /\ Player.score p r = Ok (Card.score card))
  /\ (forall r, Z.of_nat (length (Player.hand p)) < r ->
        Player.score p r = Ok 0).
Proof.
  split; [apply score_cumulative|].
  split; [reflexivity|].
  split.
  - exists (map Card.score (Player.hand p)). split; [|apply score_cumulative].
    destruct p as [h nm]. exact (score_rounds_from nm h []).
  - split.
    + intros r Hr.
      destruct (nth_error (Player.hand p) (Z.to_nat (r - 1))) as [card|] eqn:E.
      * exists card. split; [reflexivity|]. apply score_drawn; [lia|exact E].
      * apply nth_error_None in E. lia.
    + apply score_not_drawn.
Qed.

(* ================================================================== *)
(** * The stable descending sort *)

Section Sorting.
Context {A : Type}.
Implicit Types (x y : A * Z) (l : list (A * Z)).

Lemma insert_reverse_perm x l : Permutation (insert_reverse x l) (x :: l).
Proof.
  induction l as [|y l IH]; simpl; [reflexivity|].
  destruct (snd x <? snd y); [|reflexivity].
  rewrite IH. apply perm_swap.
Qed.

Lemma sorted_reverse_perm l : Permutation (sorted_reverse l) l.
Proof.
  induction l as [|x l IH]; simpl; [constructor|].
  rewrite insert_reverse_perm. now constructor.
Qed.

Lemma insert_reverse_sorted x l :
  StronglySorted key_ge l -> StronglySorted key_ge (insert_reverse x l).
Proof.
  induction 1 as [|y l Hs IH Hall]; simpl.
  - repeat constructor.
  - destruct (snd x <? snd y) eqn:E.
    + constructor; [exact IH|].
      apply (Permutation_Forall (Permutation_sym (insert_reverse_perm x l))).
      constructor; [|exact Hall]. apply Z.ltb_lt in E. unfold key_ge. lia.
    + apply Z.ltb_ge in E. constructor; [now constructor|].
      constructor; [exact E|].
      eapply Forall_impl; [|exact Hall]. unfold key_ge. intros; lia.
Qed.

Lemma sorted_reverse_sorted l : StronglySorted key_ge (sorted_reverse l).
Proof.
  induction l as [|x l IH]; simpl; [constructor|].
  now apply insert_reverse_sorted.
Qed.

Lemma insert_reverse_filter s x l :
  filter (key_is s) (insert_reverse x l) = filter (key_is s) (x :: l).
Proof.
  induction l as [|y l IH]; [reflexivity|].
  cbn [insert_reverse]. destruct (snd x <? snd y) eqn:E; [|reflexivity].
  apply Z.ltb_lt in E. cbn [filter] in *. rewrite IH.
  unfold key_is.
  destruct (snd y =? s) eqn:Ey, (snd x =? s) eqn:Ex; try reflexivity.
  apply Z.eqb_eq in Ey, Ex. lia.
Qed.

(** Stability: the elements with a given key are in their original order. *)
Lemma sorted_reverse_stable s l :
  filter (key_is s) (sorted_reverse l) = filter (key_is s) l.
Proof.
  induction l as [|x l IH]; [reflexivity|].
  cbn [sorted_reverse]. rewrite insert_reverse_filter.
  cbn [filter]. now rewrite IH.
Qed.

End Sorting.

(* ================================================================== *)
(** * The grouping loops of [_get_leaderboard] *)

Lemma inner_while_spec (s : Z) (l : list (Player.t * Z)) :
  forall lis, exists g l',
    Players.inner_while s lis l = (lis ++ map fst g, l')
    /\ l = g ++ l'
    /\ Forall (fun x => snd x = s) g
    /\ Forall (fun y => snd y <> s) (firstn 1 l').
Proof.
  induction l as [|q l IH]; intros lis.
  - exists [], []. cbn. rewrite app_nil_r. repeat split; constructor.
  - cbn [Players.inner_while]. destruct (s =? snd q) eqn:E.
    + destruct (IH (lis ++ [fst q])) as (g & l' & H1 & H2 & H3 & H4).
      exists (q :: g), l'. rewrite H1, <- app_assoc. cbn.
      repeat split; [now subst|constructor; [|exact H3]|exact H4].
      apply Z.eqb_eq in E. congruence.
    + exists [], (q :: l). cbn. rewrite app_nil_r.
      repeat split; [constructor|]. constructor; [|constructor].
      apply Z.eqb_neq in E. congruence.
Qed.

Lemma dict_set_fresh {V : Type} (d : dict V) (k : Z) (v : V) :
  Forall (fun e => fst e <> k) d -> dict_set d k v = d ++ [(k, v)].
Proof.
  induction 1 as [|[k' v'] d Hk _ IH]; [reflexivity|].
  cbn [dict_set]. cbn in Hk. destruct (k' =? k) eqn:E.
  - apply Z.eqb_eq in E. contradiction.
  - now rewrite IH.
Qed.

(** With [len(l)] passes or more the outer loop consumes the whole list. *)
Lemma outer_while_grouped (fuel : nat) :
  forall (d : dict Players.PLACE) (place : Z) (l : list (Player.t * Z)),
    (length l <= fuel)%nat ->
    Forall (fun e => fst e < place) d ->
    exists entries,
      Players.outer_while fuel d place l = d ++ entries
      /\ Players.grouped place l entries.
Proof.
  induction fuel as [|fuel IH]; intros d place l Hlen Hd.
  - destruct l; [|cbn in Hlen; lia].
    exists []. rewrite app_nil_r. split; [reflexivity|constructor].
  - destruct l as [|q t].
    + exists []. rewrite app_nil_r. split; [reflexivity|constructor].
    + cbn [Players.outer_while Players.inner_while]. rewrite Z.eqb_refl.
      destruct (inner_while_spec (snd q) t ([] ++ [fst q]))
        as (g & l' & H1 & H2 & H3 & H4).
      rewrite H1. cbn [app].
      rewrite dict_set_fresh
        by (eapply Forall_impl; [|exact Hd]; cbn; intros; lia).
      destruct (IH (d ++ [(place, Players.make_place place (snd q)
                                    (fst q :: map fst g))])
                   (place + 1) l') as (entries & E1 & E2).
      * subst t. cbn in Hlen. rewrite length_app in Hlen. lia.
      * apply Forall_app. split.
        -- eapply Forall_impl; [|exact Hd]. cbn; intros; lia.
        -- constructor; [cbn; lia|constructor].
      * eexists. rewrite E1, <- app_assoc. split; [reflexivity|].
        subst t. apply (Players.grouped_cons place q g l' entries H3 H4 E2).
Qed.

Lemma grouped_keys (l : list (Player.t * Z)) (entries : dict Players.PLACE) :
  forall n, Players.grouped (Z.of_nat n) l entries ->
    map fst entries = map Z.of_nat (seq n (length entries)).
Proof.
  intros n H. remember (Z.of_nat n) as place eqn:E. revert n E.
  induction H as [|place q g l' rest _ _ _ IH]; intros n E; [reflexivity|].
  cbn. subst place. f_equal. apply IH. lia.
Qed.

Lemma grouped_flat (place : Z) (l : list (Player.t * Z))
  (entries : dict Players.PLACE) :
  Players.grouped place l entries ->
  flat_map (fun e => Players.players (snd e)) entries = map fst l.
Proof.
  induction 1 as [|place q g l' rest _ _ _ IH]; [reflexivity|].
  cbn [flat_map snd Players.make_place Players.players].
  rewrite IH, map_app. reflexivity.
Qed.

Lemma grouped_shape (place : Z) (l : list (Player.t * Z))
  (entries : dict Players.PLACE) :
  Players.grouped place l entries ->
  Forall (fun e =>
            snd e = Players.make_place (fst e) (Players.score (snd e))
                      (Players.players (snd e))
            /\ Players.players (snd e) <> [])
         entries.
Proof.
  induction 1 as [|place q g l' rest _ _ _ IH]; constructor; [|exact IH].
  cbn. split; [reflexivity|discriminate].
Qed.

Lemma grouped_nonempty (place : Z) (l : list (Player.t * Z))
  (entries : dict Players.PLACE) :
  Players.grouped place l entries ->
  Forall (fun e => Players.players (snd e) <> []) entries.
Proof.
  intros H. eapply Forall_impl; [|exact (grouped_shape _ _ _ H)].
  now intros e [_ Hne].
Qed.

Lemma StronglySorted_app_r {A : Type} (Rel : A -> A -> Prop) (a b : list A) :
  StronglySorted Rel (a ++ b) -> StronglySorted Rel b.
Proof.
  induction a as [|x a IH]; [trivial|]. cbn. intros H.
  apply IH. now inversion H.
Qed.

Lemma filter_all {A : Type} (f : A -> bool) (l : list A) :
  Forall (fun x => f x = true) l -> filter f l = l.
Proof.
  induction 1 as [|x l Hx _ IH]; [reflexivity|]. cbn. now rewrite Hx, IH.
Qed.

Lemma filter_none {A : Type} (f : A -> bool) (l : list A) :
  Forall (fun x => f x = false) l -> filter f l = [].
Proof.
  induction 1 as [|x l Hx _ IH]; [reflexivity|]. cbn. now rewrite Hx, IH.
Qed.

(** On a list sorted into descending order, every entry holds exactly the
    elements with its score, and the scores of the entries go strictly
    down. *)
Lemma grouped_sorted (place : Z) (l : list (Player.t * Z))
  (entries : dict Players.PLACE) :
  Players.grouped place l entries ->
  StronglySorted key_ge l ->
  Forall (fun e =>
            Players.players (snd e)
            = map fst (filter (key_is (Players.score (snd e))) l)
            /\ exists x, In x l /\ snd x = Players.score (snd e))
         entries
  /\ StronglySorted
       (fun a b => Players.score (snd b) < Players.score (snd a)) entries.
Proof.
  induction 1 as [|place q g l' rest Hg Hhd _ IH]; intros Hs.
  - split; constructor.
  - assert (Hs' : StronglySorted key_ge l')
      by exact (StronglySorted_app_r _ _ _ Hs).
    assert (Hlow : Forall (fun y => snd y < snd q) l').
    { cbn in Hs. inversion Hs as [|? ? _ Hall]; subst.
      apply Forall_app in Hall. destruct Hall as [_ Hall].
      destruct l' as [|y l'']; [constructor|].
      inversion Hhd as [|? ? Hne _]; subst.
      inversion Hall as [|? ? Hy _]; subst. unfold key_ge in Hy.
      assert (Hlt : snd y < snd q) by lia.
      constructor; [exact Hlt|].
      inversion Hs' as [|? ? _ Hall']; subst.
      eapply Forall_impl; [|exact Hall']. unfold key_ge. intros; lia. }
    destruct (IH Hs') as [IH1 IH2].
    assert (Hrest : Forall (fun e => Players.score (snd e) < snd q) rest).
    { eapply Forall_impl; [|exact IH1]. intros e [_ (x & Hx & Hsx)].
      rewrite <- Hsx. now apply (proj1 (Forall_forall _ _) Hlow). }
    split.
    + constructor.
      * cbn [snd Players.make_place Players.players Players.score].
        split; [|exists q; split; [now left|reflexivity]].
        rewrite filter_app, (filter_all _ (q :: g)), (filter_none _ l').
        -- now rewrite app_nil_r.
        -- eapply Forall_impl; [|exact Hlow]. unfold key_is.
           intros y Hy. apply Z.eqb_neq. lia.
        -- constructor; [apply Z.eqb_refl|].
           eapply Forall_impl; [|exact Hg]. unfold key_is.
           intros y Hy. now apply Z.eqb_eq.
      * apply Forall_forall. intros e He.
        pose proof (proj1 (Forall_forall _ _) IH1 e He) as [Hp (x & Hx & Hsx)].
        pose proof (proj1 (Forall_forall _ _) Hrest e He) as Hlt.
        cbn beta in Hlt.
        split; [|exists x; split; [apply in_or_app; now right|exact Hsx]].
        rewrite filter_app, (filter_none _ (q :: g)); [exact Hp|].
        constructor; [unfold key_is; apply Z.eqb_neq; lia|].
        eapply Forall_impl; [|exact Hg]. unfold key_is.
        intros y Hy. apply Z.eqb_neq. lia.
    + constructor; [exact IH2|]. exact Hrest.
Qed.

(* ================================================================== *)
(** * The leaderboard *)

Lemma score_total (p : Player.t) (rn : Z) :
  0 <= rn -> exists s, Player.score p rn = Ok s.
Proof.
  intros Hrn.
  destruct (Z.eq_dec rn 0) as [->|Hne]; [eexists; apply score_cumulative|].
  destruct (Z_lt_le_dec (Z.of_nat (length (Player.hand p))) rn) as [Hlt|Hle].
  - exists 0. now apply score_not_drawn.
  - destruct (nth_error (Player.hand p) (Z.to_nat (rn - 1))) as [card|] eqn:E.
    + exists (Card.score card). apply score_drawn; [lia|exact E].
    + apply nth_error_None in E. lia.
Qed.

Lemma decorate_spec (rn : Z) (ps : list Player.t) :
  forall keyed, mapM (decorate rn) ps = Ok keyed ->
    map fst keyed = ps
    /\ Forall (fun q => Player.score (fst q) rn = Ok (snd q)) keyed.
Proof.
  induction ps as [|p ps IH]; intros keyed H; cbn in H.
  - injection H as <-. split; constructor.
  - unfold decorate at 1 in H.
    destruct (Player.score p rn) as [s|e] eqn:Es; [|discriminate].
    cbn in H. destruct (mapM (decorate rn) ps) as [ks|e]; [|discriminate].
    cbn in H. injection H as <-. destruct (IH ks eq_refl) as [H1 H2].
    split; [cbn; now rewrite H1|now constructor].
Qed.

Lemma decorate_total (rn : Z) (ps : list Player.t) :
  0 <= rn -> exists keyed, mapM (decorate rn) ps = Ok keyed.
Proof.
  intros Hrn. induction ps as [|p ps [ks IH]]; [now exists []|].
  destruct (score_total p rn Hrn) as [s Hs].
  exists ((p, s) :: ks). cbn. unfold decorate at 1. now rewrite Hs, IH.
Qed.

Lemma decorate_filter (rn s : Z) (keyed : list (Player.t * Z)) :
  Forall (fun q => Player.score (fst q) rn = Ok (snd q)) keyed ->
  map fst (filter (key_is s) keyed)
  = filter (Players.has_score rn s) (map fst keyed).
Proof.
  induction 1 as [|q keyed Hq _ IH]; [reflexivity|].
  cbn. unfold Players.has_score at 1. rewrite Hq. unfold key_is at 1.
  destruct (snd q =? s); cbn; now rewrite IH.
Qed.

Lemma get_leaderboard_grouped (self : Players.t) (rn : Z)
  (keyed : list (Player.t * Z)) :
  mapM (decorate rn) (Players._players self) = Ok keyed ->
  exists l_b_dict,
    Players._get_leaderboard self rn = Ok l_b_dict
    /\ Players.grouped 1 (sorted_reverse keyed) l_b_dict.
Proof.
  intros H. unfold Players._get_leaderboard.
  rewrite H. cbn [bind].
  destruct (outer_while_grouped (length (sorted_reverse keyed)) [] 1
              (sorted_reverse keyed) (le_n _) (Forall_nil _))
    as (entries & E1 & E2).
  exists entries. now rewrite E1.
Qed.

Lemma placing_players (l_b_dict : dict Players.PLACE) :
  map snd (Players.placing l_b_dict)
  = flat_map (fun e => Players.players (snd e)) l_b_dict.
Proof.
  induction l_b_dict as [|[k P] d IH]; [reflexivity|].
  unfold Players.placing in *. cbn [flat_map snd].
  rewrite map_app, IH, map_map. cbn. now rewrite map_id.
Qed.

(** Two participants tied above a third: places 1, 1, 2. *)
Lemma tie_then_lower (self : Players.t) (rn s t : Z) (a b c : Player.t) :
  Players._players self = [a; b; c] ->
  Player.score a rn = Ok s -> Player.score b rn = Ok s ->
  Player.score c rn = Ok t -> t < s ->
  exists l_b_dict,
    Players._get_leaderboard self rn = Ok l_b_dict
    /\ Players.placing l_b_dict = [(1, a); (1, b); (2, c)].
Proof.
  intros Hps Ha Hb Hc Hlt. unfold Players._get_leaderboard.
  rewrite Hps. cbn [mapM]. unfold decorate. rewrite Ha, Hb, Hc.
  cbn [bind sorted_reverse].
  cbn [insert_reverse snd].
  assert (E1 : (s <? t) = false) by (apply Z.ltb_ge; lia).
  assert (E2 : (s =? t) = false) by (apply Z.eqb_neq; lia).
  rewrite E1. cbn [insert_reverse snd]. rewrite Z.ltb_irrefl.
  cbn [length Players.outer_while Players.inner_while snd fst app].
  rewrite !Z.eqb_refl, E2. cbn [Players.outer_while Players.inner_while snd].
  rewrite Z.eqb_refl. eexists. split; [reflexivity|]. reflexivity.
Qed.

Lemma leaderboard_spec (self : Players.t) (rn : Z) :
  0 <= rn -> exists l_b_dict, leaderboard_of self rn l_b_dict.
Proof.
  intros Hrn.
  destruct (decorate_total rn (Players._players self) Hrn) as [keyed Hk].
  destruct (get_leaderboard_grouped self rn keyed Hk) as (lb & Hlb & Hg).
  destruct (decorate_spec rn _ keyed Hk) as [Hfst Hsc].
  destruct (grouped_sorted 1 _ lb Hg (sorted_reverse_sorted keyed))
    as [Hmem Hdesc].
  exists lb. split; [exact Hlb|].
  split; [exact (grouped_keys _ _ 1%nat Hg)|].
  split.
  { apply Forall_forall. intros e He.
    pose proof (proj1 (Forall_forall _ _) (grouped_shape _ _ _ Hg) e He)
      as [Hshape Hne].
    pose proof (proj1 (Forall_forall _ _) Hmem e He) as [Hp _].
    cbn beta in Hshape, Hne, Hp.
    split; [exact Hshape|].
    split; [exact Hne|].
    rewrite Hp, sorted_reverse_stable, (decorate_filter rn _ keyed Hsc).
    now rewrite Hfst. }
  split; [exact Hdesc|].
  rewrite placing_players, (grouped_flat _ _ _ Hg), <- Hfst.
  apply Permutation_map, sorted_reverse_perm.
Qed.

(** C2. For a round selector [rn >= 0] the leaderboard exists; its keys are
    1, 2, 3, ... (one per group, whatever the size of the groups); the
    group of an entry is exactly the participants with the entry's score,
    in registration order; the scores of the entries go strictly down;
    every participant is listed once; and two participants tied above a
    third get the places 1, 1, 2. *)
Theorem leaderboard_places (self : Players.t) (rn : Z) :
  0 <= rn ->
  exists l_b_dict,
    Players._get_leaderboard self rn = Ok l_b_dict
    /\ map fst l_b_dict = map Z.of_nat (seq 1 (length l_b_dict))
    /\ Forall (fun e =>
                 Players.place (snd e) = fst e
                 /\ Players.players (snd e) <> []
                 /\ Players.players (snd e)
                    = filter (Players.has_score rn (Players.score (snd e)))
                             (Players._players self)
                 /\ Players.tie (snd e)
                    = (Z.of_nat (length (Players.players (snd e))) >? 1))
              l_b_dict
    /\ StronglySorted
         (fun e e' => Players.score (snd e') < Players.score (snd e))
         l_b_dict
    /\ Permutation (map snd (Players.placing l_b_dict))
                   (Players._players self)
    /\ (forall a b c s t,
          Players._players self = [a; b; c] ->
          Player.score a rn = Ok s -> Player.score b rn = Ok s ->
          Player.score c rn = Ok t -> t < s ->
          Players.placing l_b_dict = [(1, a); (1, b); (2, c)]).
Proof.
  intros Hrn.
  destruct (leaderboard_spec self rn Hrn) as (lb & Hlb & Hkeys & Hall & Hs & Hp).
  exists lb. do 2 (split; [assumption|]).
  split.
  { eapply Forall_impl; [|exact Hall]. intros e (Hshape & Hne & Hfil).
    repeat split; try assumption; rewrite Hshape; reflexivity. }
  do 2 (split; [assumption|]).
  intros a b c s t Hps Ha Hb Hc Hlt.
  destruct (tie_then_lower self rn s t a b c Hps Ha Hb Hc Hlt)
    as (lb' & Hlb' & Hpl).
  congruence.
Qed.

(* ================================================================== *)
(** * The accessors [first], [second], [third] *)

Lemma dict_get_absent {V : Type} (d : dict V) (k : Z) (v : V) :
  ~ In k (map fst d) -> dict_get d k v = v.
Proof.
  induction d as [|[k' v'] d IH]; [reflexivity|].
  cbn. intros H. destruct (k' =? k) eqn:E.
  - apply Z.eqb_eq in E. tauto.
  - apply IH. tauto.
Qed.

Lemma dict_get_present {V : Type} (d : dict V) (k : Z) (v : V) :
  In k (map fst d) -> In (k, dict_get d k v) d.
Proof.
  induction d as [|[k' v'] d IH]; [contradiction|].
  cbn. intros H. destruct (k' =? k) eqn:E.
  - apply Z.eqb_eq in E. subst. now left.
  - right. apply IH. destruct H as [H|H]; [|exact H].
    apply Z.eqb_neq in E. contradiction.
Qed.

Lemma keys_in (n : nat) (k : Z) :
  In k (map Z.of_nat (seq 1 n)) <-> 1 <= k <= Z.of_nat n.
Proof.
  rewrite in_map_iff. split.
  - intros (i & <- & Hi). apply in_seq in Hi. lia.
  - intros H. exists (Z.to_nat k). split; [lia|]. apply in_seq. lia.
Qed.

Lemma flat_map_nonempty_length {A B : Type} (f : A -> list B) (l : list A) :
  Forall (fun x => f x <> []) l -> (length l <= length (flat_map f l))%nat.
Proof.
  induction 1 as [|x l Hx _ IH]; [apply le_n|].
  cbn. rewrite length_app. destruct (f x); [contradiction|]. cbn. lia.
Qed.

Lemma leaderboard_length (self : Players.t) (rn : Z)
  (l_b_dict : dict Players.PLACE) :
  leaderboard_of self rn l_b_dict ->
  (length l_b_dict <= length (Players._players self))%nat.
Proof.
  intros (_ & _ & Hall & _ & Hp).
  rewrite <- (Permutation_length Hp), placing_players.
  apply flat_map_nonempty_length.
  eapply Forall_impl; [|exact Hall]. now intros e (_ & Hne & _).
Qed.

(** The accessor for position [k] on a leaderboard. *)
Lemma accessor_spec (self : Players.t) (rn k : Z)
  (l_b_dict : dict Players.PLACE) :
  leaderboard_of self rn l_b_dict ->
  (Z.of_nat (length l_b_dict) < k ->
     dict_get l_b_dict k Players.EMPTY_PLACE = Players.EMPTY_PLACE)
  /\ (1 <= k <= Z.of_nat (length l_b_dict) ->
      In (k, dict_get l_b_dict k Players.EMPTY_PLACE) l_b_dict).
Proof.
  intros (_ & Hkeys & _). split; intros Hk.
  - apply dict_get_absent. rewrite Hkeys, keys_in. lia.
  - apply dict_get_present. rewrite Hkeys, keys_in. lia.
Qed.

(** C8. For a round selector [rn >= 0], [first], [second] and [third] all
    return; an accessor whose position is beyond the last place of the
    leaderboard (in particular every accessor of an empty participant set,
    and every position above the number of participants) returns
    [EMPTY_PLACE], whose representative and name are [None], whose member
    and name lists are empty, whose score is 0 and whose tie flag is false;
    an accessor whose position exists returns the entry of that position. *)
Theorem accessors_sentinel (self : Players.t) (rn : Z) :
  0 <= rn ->
  exists l_b_dict,
    Players._get_leaderboard self rn = Ok l_b_dict
    /\ (length l_b_dict <= length (Players._players self))%nat
    /\ (forall k accessor,
          In (k, accessor)
             [(1, Players.first); (2, Players.second); (3, Players.third)] ->
          exists place_nt,
            accessor self rn = Ok place_nt
            /\ (Z.of_nat (length l_b_dict) < k ->
                place_nt = Players.EMPTY_PLACE)
            /\ (k <= Z.of_nat (length l_b_dict) ->
                In (k, place_nt) l_b_dict /\ Players.place place_nt = k))
    /\ Players.player Players.EMPTY_PLACE = None
    /\ Players.players Players.EMPTY_PLACE = []
    /\ Players.name Players.EMPTY_PLACE = None
    /\ Players.names Players.EMPTY_PLACE = []
    /\ Players.score Players.EMPTY_PLACE = 0
    /\ Players.tie Players.EMPTY_PLACE = false.
Proof.
  intros Hrn. destruct (leaderboard_spec self rn Hrn) as [lb Hlb].
  exists lb. split; [exact (proj1 Hlb)|].
  split; [exact (leaderboard_length _ _ _ Hlb)|].
  split; [|repeat split].
  intros k accessor Hin.
  assert (Hacc : accessor self rn = Ok (dict_get lb k Players.EMPTY_PLACE)
                 /\ 1 <= k).
  { destruct Hlb as [Hget _]. cbn in Hin.
    destruct Hin as [H|[H|[H|[]]]]; injection H as <- <-;
      (split; [|lia]);
      [unfold Players.first|unfold Players.second|unfold Players.third];
      now rewrite Hget. }
  destruct Hacc as [Hacc Hk1].
  exists (dict_get lb k Players.EMPTY_PLACE). split; [exact Hacc|].
  destruct (accessor_spec self rn k lb Hlb) as [Habs Hpres].
  split; [exact Habs|]. intros Hk.
  assert (Hin' := Hpres (conj Hk1 Hk)). split; [exact Hin'|].
  destruct Hlb as (_ & _ & Hall & _).
  destruct (proj1 (Forall_forall _ _) Hall _ Hin') as [Hpl _].
  cbn in Hpl. rewrite Hpl. reflexivity.
Qed.

(* ================================================================== *)
(** * [Players.__str__] *)

Lemma last_char_app (a b : string) (ch : ascii) :
  last_char b = Some ch -> last_char (a ++ b)%string = Some ch.
Proof.
  intros Hb. induction a as [|x a IH]; [exact Hb|].
  cbn. destruct (a ++ b)%string; [discriminate|exact IH].
Qed.

Lemma format_row_last (place : Z) (player : string) (score : Z) :
  last_char (Players.format_row place player score) = Some ")"%char.
Proof. unfold Players.format_row. now repeat apply last_char_app. Qed.

Lemma concat_last (sep : string) (ch : ascii) (rows : list string) :
  rows <> [] ->
  Forall (fun r => last_char r = Some ch) rows ->
  last_char (String.concat sep rows) = Some ch.
Proof.
  intros Hne Hall. induction Hall as [|r rows Hr Hall IH]; [contradiction|].
  destruct rows as [|r' rows]; [exact Hr|].
  cbn [String.concat]. do 2 apply last_char_app. apply IH. discriminate.
Qed.

Lemma has_score_cumulative (s : Z) (p : Player.t) :
  Players.has_score 0 s p = (cumulative p =? s).
Proof. reflexivity. Qed.

(** The rows of [__str__], read off the participants of the leaderboard. *)
Lemma leaderboard_list_placing (self : Players.t)
  (l_b_dict : dict Players.PLACE) :
  leaderboard_of self 0 l_b_dict ->
  Players.leaderboard_list l_b_dict = map row (Players.placing l_b_dict).
Proof.
  intros (_ & _ & Hall & _). unfold Players.leaderboard_list, Players.placing.
  induction Hall as [|[k P] d (Hshape & _ & Hfil) _ IH]; [reflexivity|].
  cbn [flat_map]. rewrite IH, map_app. f_equal.
  cbn [fst snd] in Hshape, Hfil. rewrite Hshape at 1.
  cbn [Players.names Players.make_place]. rewrite !map_map.
  apply map_ext_in. intros p Hp. unfold row. cbn [fst snd]. f_equal.
  rewrite Hfil in Hp. apply filter_In in Hp. destruct Hp as [_ Hp].
  rewrite has_score_cumulative in Hp. apply Z.eqb_eq in Hp. now rewrite Hp.
Qed.

Lemma filter_NoDup_length {A : Type} (f : A -> Z) (s : Z) (l : list A) :
  NoDup (map f l) -> (length (filter (fun x => (f x =? s)%Z) l) <= 1)%nat.
Proof.
  induction l as [|x l IH]; cbn; intros H; [lia|].
  inversion H as [|? ? Hnin Hnd]; subst.
  destruct (f x =? s) eqn:E; [|now apply IH].
  apply Z.eqb_eq in E. cbn. rewrite filter_none; [cbn; lia|].
  apply Forall_forall. intros y Hy. apply Z.eqb_neq. intros Hfy.
  apply Hnin. rewrite E, <- Hfy. now apply in_map.
Qed.

(** With pairwise distinct scores every group is a single participant. *)
Lemma distinct_singletons (self : Players.t) (l_b_dict : dict Players.PLACE) :
  leaderboard_of self 0 l_b_dict ->
  NoDup (map cumulative (Players._players self)) ->
  Forall (fun e => exists p, Players.players (snd e) = [p]
                             /\ cumulative p = Players.score (snd e))
         l_b_dict.
Proof.
  intros (_ & _ & Hall & _) Hnd.
  eapply Forall_impl; [|exact Hall]. intros e (_ & Hne & Hfil).
  pose proof (filter_NoDup_length cumulative (Players.score (snd e))
                (Players._players self) Hnd) as Hlen.
  assert (Hext : filter (Players.has_score 0 (Players.score (snd e)))
                        (Players._players self)
                 = filter (fun x => cumulative x =? Players.score (snd e))
                          (Players._players self))
    by (apply filter_ext; intros; apply has_score_cumulative).
  rewrite Hext in Hfil. rewrite <- Hfil in Hlen.
  destruct (Players.players (snd e)) as [|p [|p' l]] eqn:E;
    [contradiction| |cbn in Hlen; lia].
  exists p. split; [reflexivity|].
  assert (Hin : In p (filter (fun x => cumulative x =? Players.score (snd e))
                             (Players._players self)))
    by (rewrite <- Hfil; now left).
  apply filter_In in Hin. now apply Z.eqb_eq.
Qed.

Lemma singletons_placing (l_b_dict : dict Players.PLACE) :
  Forall (fun e => exists p, Players.players (snd e) = [p]
                             /\ cumulative p = Players.score (snd e))
         l_b_dict ->
  StronglySorted
    (fun e e' => Players.score (snd e') < Players.score (snd e)) l_b_dict ->
  map fst (Players.placing l_b_dict) = map fst l_b_dict
  /\ StronglySorted (fun p q => cumulative q < cumulative p)
       (map snd (Players.placing l_b_dict)).
Proof.
  unfold Players.placing.
  induction 1 as [|[k P] d (p & Hp & Hs) Hall IH]; intros Hsorted.
  - split; constructor.
  - inversion Hsorted as [|? ? Hs' Hlt]; subst.
    destruct (IH Hs') as [IH1 IH2]. cbn [flat_map snd fst] in *.
    rewrite Hp. cbn. split; [now rewrite IH1|].
    constructor; [exact IH2|].
    apply Forall_forall. intros q Hq.
    apply in_map_iff in Hq. destruct Hq as ([k' q'] & <- & Hq).
    apply in_flat_map in Hq. destruct Hq as ([k'' P''] & He & Hq).
    apply in_map_iff in Hq. destruct Hq as (q'' & Heq & Hq'').
    injection Heq as <- <-.
    pose proof (proj1 (Forall_forall _ _) Hall _ He) as (p2 & Hp2 & Hs2).
    pose proof (proj1 (Forall_forall _ _) Hlt _ He) as Hlt2.
    cbn [snd] in *. rewrite Hp2 in Hq''. destruct Hq'' as [<-|[]].
    rewrite Hs, Hs2. exact Hlt2.
Qed.

Lemma has_lf_app (a b : string) :
  has_lf (a ++ b)%string = has_lf a || has_lf b.
Proof.
  induction a as [|ch a IH]; [reflexivity|].
  cbn. now rewrite IH, orb_assoc.
Qed.

Lemma string_of_uint_no_lf (d : Decimal.uint) :
  has_lf (NilEmpty.string_of_uint d) = false.
Proof. induction d; cbn; auto. Qed.

(** The decimal text of an integer holds no line feed. *)
Lemma str_of_int_no_lf (z : Z) : has_lf (str_of_int z) = false.
Proof.
  unfold str_of_int, NilZero.string_of_int, NilZero.string_of_uint.
  destruct (Z.to_int z) as [d|d]; destruct d; cbn;
    auto using string_of_uint_no_lf.
Qed.

Lemma format_row_no_lf (place : Z) (player : string) (score : Z) :
  has_lf player = false ->
  has_lf (Players.format_row place player score) = false.
Proof.
  intros H. unfold Players.format_row.
  now rewrite !has_lf_app, !str_of_int_no_lf, H.
Qed.

Lemma format_row_nonempty (place : Z) (player : string) (score : Z) :
  Players.format_row place player score <> EmptyString.
Proof.
  intros E. pose proof (format_row_last place player score) as H.
  rewrite E in H. discriminate.
Qed.

Lemma split_lines_row (r : string) :
  has_lf r = false ->
  forall rest,
    split_lines (r ++ String (ascii_of_nat 10) rest)
    = r :: split_lines rest.
Proof.
  induction r as [|ch r IH]; intros H rest.
  - cbn [append split_lines]. now rewrite Ascii.eqb_refl.
  - cbn [has_lf] in H. apply orb_false_iff in H. destruct H as [Hch Hr].
    cbn [append split_lines]. rewrite Hch, (IH Hr). reflexivity.
Qed.

Lemma split_lines_single (r : string) :
  has_lf r = false -> split_lines r = [r].
Proof.
  induction r as [|ch r IH]; intros H; [reflexivity|].
  cbn [has_lf] in H. apply orb_false_iff in H. destruct H as [Hch Hr].
  cbn [split_lines]. now rewrite Hch, (IH Hr).
Qed.

(** Rows without line feeds, joined by line feeds, are the pieces of the
    text between its line feeds. *)
Lemma split_lines_concat (rows : list string) :
  rows <> [] ->
  Forall (fun r => has_lf r = false) rows ->
  split_lines (String.concat newline rows) = rows.
Proof.
  intros Hne Hall. induction Hall as [|r rows Hr Hall IH]; [contradiction|].
  destruct rows as [|r' rows]; [now apply split_lines_single|].
  cbn [String.concat]. unfold newline at 1. cbn [append].
  rewrite (split_lines_row r Hr). f_equal. apply IH. discriminate.
Qed.

Lemma lines_concat (rows : list string) :
  Forall (fun r => has_lf r = false /\ r <> EmptyString) rows ->
  lines (String.concat newline rows) = rows.
Proof.
  intros Hall. destruct rows as [|r rows]; [reflexivity|].
  assert (Hs : split_lines (String.concat newline (r :: rows)) = r :: rows).
  { apply split_lines_concat; [discriminate|].
    eapply Forall_impl; [|exact Hall]. now intros a [Ha _]. }
  unfold lines.
  destruct (String.concat newline (r :: rows)) as [|ch text] eqn:E;
    [|exact Hs].
  inversion Hall as [|? ? [_ Hr] _]; subst.
  destruct r as [|ch r]; [contradiction|].
  destruct rows; discriminate.
Qed.

(** C7, as the code has it. [str(players)] is the rows
    ["<place>: <name> (<score>)"], place and score in decimal, one for
    every participant of the cumulative leaderboard, its entries taken in
    the order of their keys 1, 2, 3, ... and the members of an entry in the
    order of the group; the rows are joined by line feeds; the text is
    empty for no participants and otherwise ends with the closing
    parenthesis of its last row, so never with a line feed.  When no name
    holds a line feed, the lines of the text are exactly these rows, one
    line for every participant.  Participants with pairwise distinct
    scores get the places 1 .. N, one row each, in strictly descending
    order of score. *)
Theorem str_rows (self : Players.t) :
  exists l_b_dict text,
    Players._get_leaderboard self 0 = Ok l_b_dict
    /\ Players.__str__ self = Ok text
    /\ text
       = String.concat newline
           (map (fun kp =>
                   (NilZero.string_of_int (Z.to_int (fst kp))
                    ++ ": " ++ Player.name (snd kp) ++ " ("
                    ++ NilZero.string_of_int (Z.to_int (cumulative (snd kp)))
                    ++ ")")%string)
                (Players.placing l_b_dict))
    /\ text = String.concat newline (map row (Players.placing l_b_dict))
    /\ map fst l_b_dict = map Z.of_nat (seq 1 (length l_b_dict))
    /\ Permutation (map snd (Players.placing l_b_dict))
                   (Players._players self)
    /\ length (map row (Players.placing l_b_dict))
       = length (Players._players self)
    /\ (Players._players self = [] -> text = EmptyString)
    /\ (text = EmptyString \/ last_char text = Some ")"%char)
    /\ last_char text <> Some (ascii_of_nat 10)
    /\ (Forall (fun p => has_lf (Player.name p) = false)
               (Players._players self) ->
        lines text
        = map (fun kp =>
                 (NilZero.string_of_int (Z.to_int (fst kp))
                  ++ ": " ++ Player.name (snd kp) ++ " ("
                  ++ NilZero.string_of_int (Z.to_int (cumulative (snd kp)))
                  ++ ")")%string)
              (Players.placing l_b_dict)
        /\ length (lines text) = length (Players._players self))
    /\ (NoDup (map cumulative (Players._players self)) ->
        map fst (Players.placing l_b_dict)
        = map Z.of_nat (seq 1 (length (Players._players self)))
        /\ StronglySorted (fun p q => cumulative q < cumulative p)
             (map snd (Players.placing l_b_dict))).
Proof.
  destruct (leaderboard_spec self 0 (Z.le_refl 0)) as [lb Hlb].
  pose proof Hlb as (Hget & Hkeys & Hall & Hsorted & Hperm).
  exists lb, (String.concat newline (map row (Players.placing lb))).
  assert (Hlen : length (map row (Players.placing lb))
                 = length (Players._players self)).
  { rewrite length_map, <- (Permutation_length Hperm), length_map.
    reflexivity. }
  assert (Hlast : String.concat newline (map row (Players.placing lb))
                  = EmptyString
                  \/ last_char (String.concat newline
                                  (map row (Players.placing lb)))
                     = Some ")"%char).
  { destruct (map row (Players.placing lb)) as [|r rows] eqn:E;
      [now left|right].
    apply concat_last; [discriminate|]. rewrite <- E.
    apply Forall_forall. intros x Hx. apply in_map_iff in Hx.
    destruct Hx as (kp & <- & _). apply format_row_last. }
  split; [exact Hget|].
  split.
  { unfold Players.__str__. rewrite Hget. cbn [bind].
    now rewrite (leaderboard_list_placing self lb Hlb). }
  split; [reflexivity|].
  split; [reflexivity|].
  split; [exact Hkeys|].
  split; [exact Hperm|].
  split; [exact Hlen|].
  split.
  { intros Hnil. rewrite Hnil in Hlen.
    destruct (map row (Players.placing lb)); [reflexivity|discriminate]. }
  split; [exact Hlast|].
  split.
  { destruct Hlast as [-> | ->]; discriminate. }
  split.
  { intros Hnames.
    assert (Hlines : lines (String.concat newline
                              (map row (Players.placing lb)))
                     = map row (Players.placing lb)).
    { apply lines_concat. apply Forall_forall. intros x Hx.
      apply in_map_iff in Hx. destruct Hx as ([k p] & <- & Hkp).
      split; [|apply format_row_nonempty].
      apply format_row_no_lf. cbn [snd].
      apply (proj1 (Forall_forall _ _) Hnames).
      apply (Permutation_in _ Hperm).
      apply in_map_iff. now exists (k, p). }
    split; [exact Hlines|]. now rewrite Hlines. }
  intros Hnd.
  destruct (singletons_placing lb (distinct_singletons self lb Hlb Hnd) Hsorted)
    as [Hfst Hdesc].
  split; [|exact Hdesc].
  rewrite Hfst, Hkeys. do 2 f_equal.
  rewrite <- (Permutation_length Hperm), length_map.
  rewrite <- (length_map fst (Players.placing lb)), Hfst.
  symmetry. apply length_map.
Qed.

(** C7, as the spec has it, fails. A participant may have any name, also
    one that holds a line feed: the set of the single participant named
    by the two lines "A" and "B" is built, and its leaderboard text has
    two lines for one participant, neither of the form
    "<place>: <name> (<score>)". *)
Lemma str_lines_not_participants :
  exists self text,
    Players.__init__ [("A" ++ newline ++ "B")%string] = Ok self
    /\ Players.__str__ self = Ok text
    /\ lines text = ["1: A"; "B (0)"]
    /\ length (Players._players self) = 1%nat
    /\ length (lines text) = 2%nat.
Proof.
  eexists _, _.
  split; [vm_compute; reflexivity|].
  split; [vm_compute; reflexivity|].
  split; [vm_compute; reflexivity|].
  split; reflexivity.
Qed.

(* ================================================================== *)
(** * Construction: [Players.__init__] and [Game.__init__] *)

Lemma hasattr_iff (self : Players.t) (n : string) :
  Players.hasattr self n = true
  <-> In n Players.RESERVED \/ In n (map Player.name (Players._players self)).
Proof.
  unfold Players.hasattr, Players.RESERVED. rewrite existsb_exists. split.
  - intros (x & Hin & Heq). apply String.eqb_eq in Heq. subst x.
    rewrite !in_app_iff in *. tauto.
  - intros H. exists n. split; [|apply String.eqb_refl].
    rewrite !in_app_iff in *. tauto.
Qed.

Lemma init_loop_ok (names : list string) :
  forall self,
    NoDup names ->
    Forall (fun n => ~ In n Players.RESERVED) names ->
    (forall n, In n names ->
               ~ In n (map Player.name (Players._players self))) ->
    Players.__init__loop self names
    = Ok {| Players._current_player := Players._current_player self;
            Players._players :=
              Players._players self ++ map Player.__init__ names |}.
Proof.
  induction names as [|n names IH]; intros self Hnd Hres Hnew.
  - cbn. rewrite app_nil_r. now destruct self.
  - cbn [Players.__init__loop].
    inversion Hnd as [|? ? Hnin Hnd']; subst.
    inversion Hres as [|? ? Hn Hres']; subst.
    destruct (Players.hasattr self n) eqn:E.
    + apply hasattr_iff in E. destruct E as [E|E]; [contradiction|].
      exfalso. apply (Hnew n); [now left|exact E].
    + rewrite IH; [|exact Hnd'|exact Hres'|].
      * cbn. now rewrite <- app_assoc.
      * cbn [Players._players]. intros m Hm. rewrite map_app, in_app_iff.
        cbn. intros [H|[H|[]]]; [apply (Hnew m); [now right|exact H]|].
        subst m. contradiction.
Qed.

Lemma init_loop_fail (names : list string) :
  forall self,
    ~ NoDup names
    \/ Exists (fun n => In n Players.RESERVED
                        \/ In n (map Player.name (Players._players self)))
              names ->
    exists e, In e names
              /\ Players.__init__loop self names = Raise (InvalidPlayerError e).
Proof.
  induction names as [|n names IH]; intros self H.
  - destruct H as [H|H]; [exfalso; apply H; constructor|inversion H].
  - cbn [Players.__init__loop].
    destruct (Players.hasattr self n) eqn:E; [exists n; split; [now left|easy]|].
    assert (Hn : ~ (In n Players.RESERVED
                    \/ In n (map Player.name (Players._players self)))).
    { intros Hin. apply hasattr_iff in Hin. congruence. }
    destruct (IH {| Players._current_player := Players._current_player self;
                    Players._players :=
                      Players._players self ++ [Player.__init__ n] |})
      as (e & He & Hr).
    + cbn [Players._players].
      destruct (in_dec string_dec n names) as [Hin|Hnin].
      * right. apply Exists_exists. exists n. split; [exact Hin|].
        right. rewrite map_app, in_app_iff. right. now left.
      * destruct H as [H|H].
        -- left. intros Hnd. apply H. now constructor.
        -- right. inversion H as [? ? Hh|? ? Ht]; subst; [contradiction|].
           eapply Exists_impl; [|exact Ht]. intros m [Hm|Hm]; [now left|].
           right. rewrite map_app, in_app_iff. now left.
    + exists e. split; [now right|exact Hr].
Qed.

(** [Players(names)] succeeds exactly on duplicate-free lists of names that
    are not attributes of the object already. *)
Lemma players_init_spec (names : list string) :
  (NoDup names /\ Forall (fun n => ~ In n Players.RESERVED) names ->
   Players.__init__ names
   = Ok {| Players._current_player := 0;
           Players._players := map Player.__init__ names |})
  /\ (~ NoDup names \/ Exists (fun n => In n Players.RESERVED) names ->
      exists e, In e names
                /\ Players.__init__ names = Raise (InvalidPlayerError e)).
Proof.
  unfold Players.__init__. split.
  - intros [Hnd Hres]. rewrite init_loop_ok; auto.
  - intros H. apply init_loop_fail. destruct H as [H|H]; [now left|right].
    eapply Exists_impl; [|exact H]. intros; now left.
Qed.

Lemma names_dec (names : list string) :
  {NoDup names /\ Forall (fun n => ~ In n Players.RESERVED) names}
  + {~ NoDup names \/ Exists (fun n => In n Players.RESERVED) names}.
Proof.
  destruct (NoDup_dec string_dec names) as [Hnd|Hnd]; [|right; now left].
  destruct (Exists_dec (fun n => In n Players.RESERVED) names
              (fun n => in_dec string_dec n Players.RESERVED)) as [He|He].
  - right. now right.
  - left. split; [exact Hnd|]. now apply Forall_Exists_neg.
Qed.

(** C10. [Players(names)] raises [InvalidPlayerError] exactly when a name is
    repeated or is an attribute the object already has; "first", "second",
    "third" and "reset" are such attributes; so the duplicate-free list
    ["first"] is refused. *)
Theorem players_init_collision (names : list string) :
  ((~ NoDup names \/ Exists (fun n => In n Players.RESERVED) names)
   <-> exists e, Players.__init__ names = Raise (InvalidPlayerError e))
  /\ (In "first" Players.RESERVED /\ In "second" Players.RESERVED
      /\ In "third" Players.RESERVED /\ In "reset" Players.RESERVED)
  /\ (NoDup ["first"]
      /\ Players.__init__ ["first"] = Raise (InvalidPlayerError "first")).
Proof.
  split; [split|split].
  - intros H. destruct (proj2 (players_init_spec names) H) as (e & _ & He).
    now exists e.
  - intros [e He]. destruct (names_dec names) as [Hok|Hbad]; [|exact Hbad].
    rewrite (proj1 (players_init_spec names) Hok) in He. discriminate.
  - unfold Players.RESERVED. cbn. tauto.
  - split; [|reflexivity]. constructor; [intros []|constructor].
Qed.

Section Construction.
Context {R : Type}.
Variable rand_shuffle : R -> list Card.t -> R * list Card.t.


End Construction.




(* ================================================================== *)
(** * Equality of players, and the first place *)

Lemma Card_eqb_eq (a b : Card.t) : Card.eqb a b = true <-> a = b.
Proof.
  split; [|intros <-; unfold Card.eqb; now rewrite !Z.eqb_refl].
  unfold Card.eqb. intros H. apply andb_true_iff in H.
  destruct H as [Hr Hs]. apply Z.eqb_eq in Hr, Hs.
  destruct a as [sa ra], b as [sb rb]. cbn in Hr, Hs.
  assert (sa = sb) by (destruct sa, sb; (reflexivity || discriminate)).
  assert (ra = rb) by (destruct ra, rb; (reflexivity || discriminate)).
  now subst.
Qed.

Lemma cards_eqb_eq (a b : list Card.t) : Deck.cards_eqb a b = true <-> a = b.
Proof.
  revert b. induction a as [|x a IH]; intros [|y b]; cbn;
    try (split; (reflexivity || discriminate)).
  rewrite andb_true_iff, Card_eqb_eq, IH. split.
  - now intros [-> ->].
  - intros H. injection H as -> ->. now split.
Qed.

Lemma Player_eqb_eq (a b : Player.t) : Player.eqb a b = true <-> a = b.
Proof.
  unfold Player.eqb. rewrite andb_true_iff, cards_eqb_eq, String.eqb_eq.
  destruct a, b; cbn. split.
  - now intros [-> ->].
  - intros H. injection H as -> ->. now split.
Qed.

Lemma player_in_iff (p : Player.t) (l : list Player.t) :
  Game.player_in p l = true <-> In p l.
Proof.
  unfold Game.player_in. rewrite existsb_exists. split.
  - intros (e & He & Heq). apply Player_eqb_eq in Heq. now subst.
  - intros H. exists p. split; [exact H|]. now apply Player_eqb_eq.
Qed.

Lemma first_ok (self : Players.t) (rn : Z) :
  0 <= rn -> exists place_nt, Players.first self rn = Ok place_nt.
Proof.
  intros Hrn. destruct (leaderboard_spec self rn Hrn) as (lb & Hget & _).
  unfold Players.first. rewrite Hget. now eexists.
Qed.

Lemma str_ok (self : Players.t) : exists text, Players.__str__ self = Ok text.
Proof.
  destruct (leaderboard_spec self 0 (Z.le_refl 0)) as (lb & Hget & _).
  unfold Players.__str__. rewrite Hget. now eexists.
Qed.

(** The cumulative first place is the group of the participants whose
    cumulative score is the highest. *)
Lemma first_place_max (self : Players.t) (place_nt : Players.PLACE) :
  Players._players self <> [] ->
  Players.first self 0 = Ok place_nt ->
  forall p, In p (Players.players place_nt)
            <-> In p (Players._players self)
                /\ forall q, In q (Players._players self) ->
                             cumulative q <= cumulative p.
Proof.
  intros Hne Hfirst.
  destruct (leaderboard_spec self 0 (Z.le_refl 0))
    as (lb & Hget & Hkeys & Hall & Hsorted & Hperm).
  unfold Players.first in Hfirst. rewrite Hget in Hfirst. cbn in Hfirst.
  injection Hfirst as <-.
  destruct lb as [|[k P] lb].
  { cbn in Hperm. apply Permutation_nil in Hperm. contradiction. }
  cbn in Hkeys. injection Hkeys as -> _. cbn [dict_get]. rewrite Z.eqb_refl.
  inversion Hall as [|? ? (_ & _ & Hfil) Hall']; subst. cbn [snd] in Hfil.
  inversion Hsorted as [|? ? _ Hlt]; subst.
  assert (Hmax : forall q, In q (Players._players self) ->
                           cumulative q <= Players.score P).
  { intros q Hq. apply (Permutation_in _ (Permutation_sym Hperm)) in Hq.
    rewrite placing_players in Hq. cbn [flat_map snd] in Hq.
    apply in_app_or in Hq. destruct Hq as [Hq|Hq].
    - rewrite Hfil in Hq. apply filter_In in Hq. destruct Hq as [_ Hq].
      rewrite has_score_cumulative in Hq. apply Z.eqb_eq in Hq. lia.
    - apply in_flat_map in Hq. destruct Hq as (e & He & Hq).
      pose proof (proj1 (Forall_forall _ _) Hall' e He) as (_ & _ & Hfe).
      pose proof (proj1 (Forall_forall _ _) Hlt e He) as Hlte.
      cbn [snd] in Hlte. rewrite Hfe in Hq. apply filter_In in Hq.
      destruct Hq as [_ Hq]. rewrite has_score_cumulative in Hq.
      apply Z.eqb_eq in Hq. lia. }
  intros p. rewrite Hfil, filter_In, has_score_cumulative, Z.eqb_eq. split.
  - intros [Hin Hs]. split; [exact Hin|]. intros q Hq. rewrite Hs. auto.
  - intros [Hin Hge]. split; [exact Hin|].
    inversion Hall as [|? ? (_ & Hnonempty & _) _]; subst.
    cbn [snd] in Hnonempty.
    destruct (Players.players P) as [|w ws] eqn:Ew; [contradiction|].
    assert (Hw : In w (filter (Players.has_score 0 (Players.score P))
                              (Players._players self)))
      by (rewrite <- Hfil; now left).
    apply filter_In in Hw. destruct Hw as [Hwin Hws].
    rewrite has_score_cumulative in Hws. apply Z.eqb_eq in Hws.
    specialize (Hge w Hwin). specialize (Hmax p Hin). lia.
Qed.

(* ================================================================== *)
(** * The round loop *)

Lemma pop_spec {A : Type} (l : list A) :
  match Deck.pop l with
  | None => l = []
  | Some (x, r) => l = r ++ [x]
  end.
Proof.
  unfold Deck.pop. destruct (rev l) as [|x r] eqn:E.
  - apply (f_equal (@rev A)) in E. now rewrite rev_involutive in E.
  - apply (f_equal (@rev A)) in E. now rewrite rev_involutive in E.
Qed.

Lemma score_raise (p : Player.t) (rn : Z) (e : exn) :
  Player.score p rn = Raise e -> e = IndexError.
Proof.
  unfold Player.score, py_getitem.
  destruct (negb (rn =? 0)); [|discriminate].
  destruct (rn >? _); [discriminate|].
  destruct (_ || _); cbn; [congruence|].
  destruct (nth_error _ _); cbn; [discriminate|congruence].
Qed.

Lemma decorate_raise (rn : Z) (ps : list Player.t) (e : exn) :
  mapM (decorate rn) ps = Raise e -> e = IndexError.
Proof.
  induction ps as [|p ps IH]; cbn; [discriminate|].
  unfold decorate at 1.
  destruct (Player.score p rn) as [s|e'] eqn:Es; cbn.
  - destruct (mapM (decorate rn) ps) as [ks|e'']; cbn; [discriminate|].
    intros H. injection H as <-. now apply IH.
  - intros H. injection H as <-. exact (score_raise _ _ _ Es).
Qed.

Lemma first_raise (self : Players.t) (rn : Z) (e : exn) :
  Players.first self rn = Raise e -> e = IndexError.
Proof.
  unfold Players.first, Players._get_leaderboard.
  destruct (mapM (decorate rn) (Players._players self)) as [ks|e'] eqn:E;
    cbn; [discriminate|].
  intros H. injection H as <-. exact (decorate_raise _ _ _ E).
Qed.

(** Whether a template can be substituted depends on the names of the
    keyword arguments only, not on their values. *)
Lemma kwargs_get_keys (name : string) (kwargs kwargs' : list (string * Value)) :
  map fst kwargs = map fst kwargs' ->
  (kwargs_get name kwargs = None <-> kwargs_get name kwargs' = None).
Proof.
  revert kwargs'.
  induction kwargs as [|[k v] kwargs IH]; intros [|[k' v'] kwargs'] H;
    cbn in H; try discriminate; [tauto|].
  injection H as -> H. cbn.
  destruct (String.eqb k' name); [split; discriminate|now apply IH].
Qed.

Lemma expand_keys (kwargs kwargs' : list (string * Value)) :
  map fst kwargs = map fst kwargs' ->
  forall ts acc acc',
    is_ok (expand ts kwargs acc) = is_ok (expand ts kwargs' acc').
Proof.
  intros H ts. induction ts as [|[c|name|] ts IH]; intros acc acc'; cbn;
    [reflexivity|apply IH| |reflexivity].
  pose proof (kwargs_get_keys name kwargs kwargs' H) as [H1 H2].
  destruct (kwargs_get name kwargs) as [v|], (kwargs_get name kwargs') as [v'|];
    [apply IH| | |reflexivity].
  - specialize (H2 eq_refl). discriminate.
  - specialize (H1 eq_refl). discriminate.
Qed.

Lemma expand_raise (kwargs : list (string * Value)) (ts : list token) :
  forall acc e, expand ts kwargs acc = Raise e -> e <> DeckEmptyError.
Proof.
  induction ts as [|[c|name|] ts IH]; intros acc e; cbn;
    [discriminate|apply IH| |intros [= <-]; discriminate].
  destruct (kwargs_get name kwargs) as [v|];
    [apply IH|intros [= <-]; discriminate].
Qed.

Lemma pick_spec (seq : list string) :
  forall k,
    match Game.pick seq k with
    | Some x => In x seq
    | None => seq = []
    end.
Proof.
  induction seq as [|x seq IH]; intros k; [reflexivity|].
  cbn [Game.pick]. destruct seq as [|y seq]; [now left|].
  destruct k as [|k]; [now left|].
  specialize (IH k). destruct (Game.pick (y :: seq) k); [now right|].
  discriminate.
Qed.

(** A message dictionary that is fit for the game has, for a category the
    game displays, a first template, and all its templates can be
    substituted. *)
Lemma messages_ok_category (message : Game.Messages) (category : string)
  (keys : list string) :
  Game.messages_ok message = true ->
  In (category, keys) Game.CATEGORIES ->
  exists t ts,
    Game.lookup category message = Some (t :: ts)
    /\ forall x, In x (t :: ts) -> Game.template_ok keys x = true.
Proof.
  unfold Game.messages_ok. rewrite forallb_forall. intros H Hin.
  specialize (H _ Hin). cbn [fst snd] in H.
  destruct (Game.lookup category message) as [[|t ts]|];
    try discriminate.
  exists t, ts. split; [reflexivity|]. now apply forallb_forall.
Qed.

Lemma same_settings_refl {R : Type} (self : @Game.t R) :
  same_settings self self.
Proof. now repeat split. Qed.

Lemma same_settings_trans {R : Type} (a b c : @Game.t R) :
  same_settings a b -> same_settings b c -> same_settings a c.
Proof.
  unfold same_settings. intros (H1 & H2 & H3 & H4) (G1 & G2 & G3 & G4).
  repeat split; congruence.
Qed.

Lemma deal_grew (ps : list Player.t) :
  forall cards, length cards = length ps ->
    Forall2 (grew 1) ps (deal ps cards).
Proof.
  induction ps as [|p ps IH]; intros [|c cards] H; cbn in H;
    try discriminate; [constructor|].
  unfold deal. cbn. constructor; [|apply IH; lia].
  split; [reflexivity|]. now exists [c].
Qed.

Lemma grew_trans (a b : nat) (l1 l2 : list Player.t) :
  Forall2 (grew a) l1 l2 ->
  forall l3, Forall2 (grew b) l2 l3 -> Forall2 (grew (a + b)) l1 l3.
Proof.
  induction 1 as [|p q l1 l2 (Hn & ca & Hla & Hha) _ IH]; intros l3 H;
    inversion H as [|? r ? l3' (Hn' & cb & Hlb & Hhb) H']; subst;
    constructor; [|now apply IH].
  split; [congruence|]. exists (ca ++ cb).
  split; [now rewrite length_app|]. now rewrite Hhb, Hha, app_assoc.
Qed.

Lemma grew_names (k : nat) (l1 l2 : list Player.t) :
  Forall2 (grew k) l1 l2 -> map Player.name l2 = map Player.name l1.
Proof.
  induction 1 as [|p q l1 l2 (Hn & _) _ IH]; [reflexivity|].
  cbn. now rewrite Hn, IH.
Qed.

Section RoundLoop.
Context {R : Type}.
Variable rand_shuffle : R -> list Card.t -> R * list Card.t.
Variable rand_below : R -> nat -> R * nat.

Abbreviation game := (@Game.t R).

Lemma choice_spec (r : R) (seq : list string) :
  match Game.choice rand_below r seq with
  | Ok (x, r') => In x seq /\ r' = fst (rand_below r (length seq))
  | Raise e => e = IndexError /\ seq = []
  end.
Proof.
  unfold Game.choice.
  pose proof (pick_spec seq (snd (rand_below r (length seq)))) as H.
  destruct (Game.pick seq _); now split.
Qed.

(** [_display_message] either prints the substitution of one of the
    templates of the category and advances the random source of the game,
    or raises, which it does not when the message dictionary is fit for the
    game and the category is displayed with its own keyword arguments. *)
Lemma display_spec (self : game) (out : list Game.Output)
  (category : string) (kwargs : list (string * Value)) :
  match Game._display_message rand_below self out category kwargs with
  | Ok (self', out') =>
      exists templates template text,
        Game.lookup category (Game._message self) = Some templates
        /\ In template templates
        /\ substitute template kwargs = Ok text
        /\ self' = Game.set_rand self
                     (fst (rand_below (Game._rand self) (length templates)))
        /\ out' = out ++ [Game.Display category kwargs text]
  | Raise e =>
      e <> DeckEmptyError
      /\ forall keys, In (category, keys) Game.CATEGORIES ->
                      map fst kwargs = keys ->
                      Game.messages_ok (Game._message self) = false
  end.
Proof.
  unfold Game._display_message.
  destruct (Game.lookup category (Game._message self)) as [templates|] eqn:El.
  2:{ split; [discriminate|]. intros keys Hin _.
      destruct (Game.messages_ok (Game._message self)) eqn:Em; [|reflexivity].
      destruct (messages_ok_category _ _ _ Em Hin) as (t & ts & Hl & _).
      congruence. }
  pose proof (choice_spec (Game._rand self) templates) as Hc.
  destruct (Game.choice rand_below (Game._rand self) templates)
    as [[template r]|e]; cbn [bind].
  2:{ destruct Hc as [-> ->]. split; [discriminate|]. intros keys Hin _.
      destruct (Game.messages_ok (Game._message self)) eqn:Em; [|reflexivity].
      destruct (messages_ok_category _ _ _ Em Hin) as (t & ts & Hl & _).
      congruence. }
  destruct Hc as [Hin ->].
  destruct (substitute template kwargs) as [text|e] eqn:Es; cbn [bind].
  - now exists templates, template, text.
  - split; [exact (expand_raise _ _ _ _ Es)|].
    intros keys Hk Hkeys.
    destruct (Game.messages_ok (Game._message self)) eqn:Em; [|reflexivity].
    destruct (messages_ok_category _ _ _ Em Hk) as (t & ts & Hl & Hall).
    rewrite El in Hl. injection Hl as ->. specialize (Hall template Hin).
    unfold Game.template_ok, substitute in Hall.
    rewrite (expand_keys _ kwargs) with (acc' := EmptyString) in Hall.
    + unfold substitute in Es. rewrite Es in Hall. discriminate.
    + rewrite map_map. cbn [fst]. now rewrite map_id.
Qed.

(** [random.shuffle] rearranges the list it is given. *)
Hypothesis shuffle_perm :
  forall r l, Permutation l (snd (rand_shuffle r l)).

Lemma shuffle_deck (d : @Deck.t R) :
  Permutation (Deck._deck d) (Deck._deck (Deck.shuffle rand_shuffle d)).
Proof.
  unfold Deck.shuffle. pose proof (shuffle_perm (Deck._rand d) (Deck._deck d)).
  destruct (rand_shuffle _ _). assumption.
Qed.

Lemma get_card_spec (d : @Deck.t R) :
  (Deck._deck d = [] /\ Deck.get_card d = Raise DeckEmptyError)
  \/ exists card d',
       Deck.get_card d = Ok (card, d')
       /\ Deck._deck d = Deck._deck d' ++ [card]
       /\ Deck._rand d' = Deck._rand d
       /\ Deck._current_card d' = Deck._current_card d.
Proof.
  unfold Deck.get_card. pose proof (pop_spec (Deck._deck d)) as H.
  destruct (Deck.pop (Deck._deck d)) as [[x r]|].
  - right. now eexists _, _.
  - now left.
Qed.

(** The draw of a turn: it yields a card, from the deck or, when the deck
    is empty, from the 52 cards shuffled anew after EMPTY DECK was shown;
    it raises only where the message cannot be displayed, and never
    [DeckEmptyError]. *)
Lemma draw_spec (self : game) (out : list Game.Output) :
  match Game.draw rand_shuffle rand_below self out with
  | Ok (card, self', out') =>
      exists shown,
        out' = out ++ shown
        /\ Game.players self' = Game.players self
        /\ same_settings self self'
        /\ drawn rand_shuffle (Game._deck self) (Game._deck self') card shown
        /\ (shown = [] -> Game._rand self' = Game._rand self)
  | Raise e =>
      e <> DeckEmptyError
      /\ Deck._deck (Game._deck self) = []
      /\ Game.messages_ok (Game._message self) = false
  end.
Proof.
  unfold Game.draw.
  destruct (get_card_spec (Game._deck self))
    as [[Hnil ->]|(card & d & -> & Hd & Hr & Hc)].
  2:{ exists []. rewrite app_nil_r. split; [reflexivity|].
      split; [reflexivity|]. split; [now repeat split|].
      split; [left; now repeat split|reflexivity]. }
  pose proof (display_spec self out "EMPTY DECK" []) as Hdis.
  destruct (Game._display_message rand_below self out "EMPTY DECK" [])
    as [[self1 out1]|e]; cbn [bind].
  2:{ destruct Hdis as [He Hm]. split; [exact He|]. split; [exact Hnil|].
      apply (Hm []); [|reflexivity]. cbn. tauto. }
  destruct Hdis as (templates & template & text & _ & _ & _ & -> & ->).
  cbn [Game._deck Game.set_deck Game.set_rand].
  pose proof (shuffle_perm (Deck._rand (Game._deck self)) Deck.full) as Hp.
  unfold Deck.shuffle, Deck.new_deck, Deck._initiate_deck, Deck.get_card.
  cbn [Deck._deck Deck._rand Deck._current_card].
  destruct (rand_shuffle (Deck._rand (Game._deck self)) Deck.full)
    as [r' l] eqn:Esh.
  cbn [snd] in Hp. cbn [Deck._deck Deck._rand Deck._current_card].
  pose proof (pop_spec l) as Hpop.
  destruct (Deck.pop l) as [[card rest]|].
  - cbn [bind]. exists [Game.Display "EMPTY DECK" [] text].
    split; [reflexivity|]. split; [reflexivity|].
    split; [now repeat split|]. split; [|discriminate].
    right. cbn [Game._deck Game.set_deck Deck._deck Deck._rand
                Deck._current_card].
    split; [exact Hnil|]. split; [now exists text|].
    split; [rewrite Esh, Hpop; reflexivity|reflexivity].
  - subst l. apply Permutation_sym, Permutation_nil in Hp. discriminate.
Qed.

Ltac step_display H :=
  match goal with
  | |- context [Game._display_message ?rb ?s ?o ?c ?k] =>
      pose proof (display_spec s o c k) as H;
      destruct (Game._display_message rb s o c k) as [[? ?]|?];
      cbn [bind]
  end.

(** One turn.  When it returns, the participant holds one card more, the
    card a draw took from the deck, and the console shows TURN START, the
    prompt, EMPTY DECK if the deck was empty, and TRUE or FALSE TURN END by
    the participant's membership of the cumulative first place after the
    draw.  It raises only where a message cannot be displayed. *)
Lemma turn_spec (self : game) (out : list Game.Output)
  (done todo : list Player.t) (player : Player.t) :
  match Game.turn rand_shuffle rand_below self out done player todo with
  | Ok (self', out', player') =>
      exists card shown text1 text2 first_nt,
        player' = Player.draw_card player card
        /\ Game.players self'
           = {| Players._current_player :=
                  Players._current_player (Game.players self);
                Players._players := done ++ player' :: todo |}
        /\ same_settings self self'
        /\ drawn rand_shuffle (Game._deck self) (Game._deck self') card shown
        /\ Players.first (Game.players self') 0 = Ok first_nt
        /\ out'
           = out
             ++ [Game.Display "TURN START"
                   [("current_player_name", VStr (Player.name player))] text1;
                 Game.Input "Hit enter to draw a card."]
             ++ shown
             ++ [Game.Display
                   (Game.str_upper_bool
                      (Game.player_in player' (Players.players first_nt))
                    ++ " TURN END")
                   [("current_player_name", VStr (Player.name player));
                    ("current_card", VCard card);
                    ("current_player_score", VInt (cumulative player'))]
                   text2]
  | Raise e =>
      e <> DeckEmptyError /\ Game.messages_ok (Game._message self) = false
  end.
Proof.
  unfold Game.turn.
  step_display H1.
  2:{ destruct H1 as [He Hm]. split; [exact He|].
      apply (Hm ["current_player_name"%string]); [cbn; tauto|reflexivity]. }
  destruct H1 as (ts1 & t1 & text1 & _ & _ & _ & -> & ->).
  match goal with
  | |- context [Game.draw ?rs ?rb ?s ?o] =>
      pose proof (draw_spec s o) as H2;
      destruct (Game.draw rs rb s o) as [[[card self2] out2]|e]; cbn [bind]
  end.
  2:{ destruct H2 as (He & _ & Hm). split; [exact He|exact Hm]. }
  destruct H2 as (shown & -> & Hpl & Hset & Hdr & _).
  destruct (first_ok
              (Game.players
                 (Game.set_players self2
                    (done ++ Player.draw_card player card :: todo)))
              0 (Z.le_refl 0)) as [first_nt Hfirst].
  rewrite Hfirst. cbn [bind].
  change (Player.score (Player.draw_card player card) 0)
    with (Ok (cumulative (Player.draw_card player card))).
  cbn [bind].
  destruct Hset as (Hs1 & Hs2 & Hs3 & Hs4).
  cbn [Game._current_round Game._is_active Game._max_rounds Game._message
       Game.set_rand] in Hs1, Hs2, Hs3, Hs4.
  step_display H3.
  2:{ destruct H3 as [He Hm]. split; [exact He|].
      cbn [Game._message Game.set_players] in Hm. rewrite Hs4 in Hm.
      apply (Hm ["current_player_name"; "current_card";
                 "current_player_score"]%string); [|reflexivity].
      destruct (Game.player_in _ _); cbn; tauto. }
  destruct H3 as (ts3 & t3 & text3 & _ & _ & _ & -> & ->).
  exists card, shown, text1, text3, first_nt.
  split; [reflexivity|].
  split; [cbn; now rewrite Hpl|].
  split; [now repeat split|].
  split; [exact Hdr|].
  split; [exact Hfirst|].
  now rewrite <- !app_assoc.
Qed.

Lemma for_player_spec (todo : list Player.t) :
  forall (self : game) (out : list Game.Output) (done : list Player.t),
    match Game.for_player rand_shuffle rand_below self out done todo with
    | Ok (self', out') =>
        exists cards,
          length cards = length todo
          /\ (todo <> [] ->
              Players._players (Game.players self') = done ++ deal todo cards)
          /\ (todo = [] -> self' = self /\ out' = out)
          /\ same_settings self self'
          /\ ((length todo <= length (Deck._deck (Game._deck self)))%nat ->
              Deck._deck (Game._deck self)
              = Deck._deck (Game._deck self') ++ rev cards
              /\ Deck._rand (Game._deck self') = Deck._rand (Game._deck self))
    | Raise e =>
        e <> DeckEmptyError /\ Game.messages_ok (Game._message self) = false
    end.
Proof.
  induction todo as [|player todo IH]; intros self out done.
  - exists []. cbn.
    split; [reflexivity|]. split; [intros H; now destruct H|].
    split; [now split|]. split; [now repeat split|].
    intros _. now rewrite app_nil_r.
  - cbn [Game.for_player].
    pose proof (turn_spec self out done todo player) as Ht.
    destruct (Game.turn rand_shuffle rand_below self out done player todo)
      as [[[self1 out1] player1]|e]; cbn [bind]; [|exact Ht].
    destruct Ht as (card & shown & text1 & text2 & first_nt & -> & Hpl
                    & Hset & Hdr & _ & _).
    specialize (IH self1 out1 (done ++ [Player.draw_card player card])).
    destruct (Game.for_player rand_shuffle rand_below self1 out1
                (done ++ [Player.draw_card player card]) todo)
      as [[self' out']|e].
    2:{ destruct IH as [He Hm]. split; [exact He|].
        destruct Hset as (_ & _ & _ & Hmsg). now rewrite <- Hmsg. }
    destruct IH as (cards & Hlen & Hps & Hnil & Hset' & Hdk).
    exists (card :: cards).
    split; [cbn; lia|].
    split.
    { intros _. destruct todo as [|q todo].
      - destruct (Hnil eq_refl) as [-> _]. rewrite Hpl.
        destruct cards; [|discriminate]. reflexivity.
      - rewrite Hps by discriminate. rewrite <- app_assoc. reflexivity. }
    split; [discriminate|].
    split; [exact (same_settings_trans _ _ _ Hset Hset')|].
    intros Hle.
    destruct Hdr as [(_ & Hd & Hr & _)|(Hnil' & _)].
    2:{ rewrite Hnil' in Hle. cbn in Hle. lia. }
    destruct Hdk as [Hd1 Hd2].
    { rewrite Hd, length_app in Hle. cbn in Hle. lia. }
    split; [|congruence].
    rewrite Hd, Hd1. cbn [rev]. now rewrite <- app_assoc.
Qed.

Lemma next_round_spec (self : game) (out : list Game.Output) :
  match Game._next_round rand_shuffle rand_below self out with
  | Ok (self', out') =>
      exists cards,
        length cards = length (Players._players (Game.players self))
        /\ Players._players (Game.players self')
           = deal (Players._players (Game.players self)) cards
        /\ Game._current_round self' = Game._current_round self + 1
        /\ Game._is_active self'
           = (if Game._current_round self >=? Game._max_rounds self
              then false else Game._is_active self)
        /\ Game._max_rounds self' = Game._max_rounds self
        /\ Game._message self' = Game._message self
        /\ ((length (Players._players (Game.players self))
             <= length (Deck._deck (Game._deck self)))%nat ->
            Deck._deck (Game._deck self)
            = Deck._deck (Game._deck self') ++ rev cards
            /\ Deck._rand (Game._deck self') = Deck._rand (Game._deck self))
  | Raise e =>
      e <> DeckEmptyError /\ Game.messages_ok (Game._message self) = false
  end.
Proof.
  unfold Game._next_round.
  pose proof (for_player_spec (Players._players (Game.players self)) self
                out []) as H.
  destruct (Game.for_player rand_shuffle rand_below self out []
              (Players._players (Game.players self)))
    as [[self1 out1]|e]; cbn [bind]; [|exact H].
  destruct H as (cards & Hlen & Hps & Hnil & (Hc & Ha & Hm & Hmsg) & Hdk).
  exists cards. split; [exact Hlen|].
  assert (Hplayers : Players._players (Game.players self1)
                     = deal (Players._players (Game.players self)) cards).
  { destruct (Players._players (Game.players self)) as [|p ps] eqn:E.
    - destruct (Hnil eq_refl) as [-> _]. rewrite E. reflexivity.
    - now rewrite Hps by discriminate. }
  rewrite Hc, Hm.
  destruct (Game._current_round self >=? Game._max_rounds self); cbn;
    repeat split; try assumption; try congruence;
    try (now apply Hdk).
Qed.

(** One pass of the loop of [play]. *)
Lemma round_spec (self : game) (out : list Game.Output) :
  match Game.round rand_shuffle rand_below self out with
  | Ok (self', out') =>
      exists cards,
        length cards = length (Players._players (Game.players self))
        /\ Players._players (Game.players self')
           = deal (Players._players (Game.players self)) cards
        /\ Game._current_round self' = Game._current_round self + 1
        /\ Game._is_active self'
           = (if Game._current_round self >=? Game._max_rounds self
              then false else Game._is_active self)
        /\ Game._max_rounds self' = Game._max_rounds self
        /\ Game._message self' = Game._message self
  | Raise e =>
      e <> DeckEmptyError
      /\ (Game.messages_ok (Game._message self) = true ->
          Game._current_round self < 0)
  end.
Proof.
  unfold Game.round.
  step_display H1.
  2:{ destruct H1 as [He Hm]. split; [exact He|]. intros Hok.
      rewrite (Hm ["current_round"%string]) in Hok;
        [discriminate|cbn; tauto|reflexivity]. }
  destruct H1 as (ts1 & t1 & text1 & _ & _ & _ & -> & ->).
  match goal with
  | |- context [Game._next_round ?rs ?rb ?s ?o] =>
      pose proof (next_round_spec s o) as H2;
      destruct (Game._next_round rs rb s o) as [[self2 out2]|e]; cbn [bind]
  end.
  2:{ destruct H2 as [He Hm]. split; [exact He|]. intros Hok.
      cbn [Game._message Game.set_rand] in Hm. congruence. }
  destruct H2 as (cards & Hlen & Hps & Hc & Ha & Hm & Hmsg & _).
  cbn [Game.players Game._current_round Game._is_active Game._max_rounds
       Game._message Game._deck Game.set_rand] in Hlen, Hps, Hc, Ha, Hm, Hmsg.
  destruct (Players.first (Game.players self2) (Game._current_round self2 - 1))
    as [first_nt|e] eqn:Hfirst; cbn [bind].
  2:{ split; [now rewrite (first_raise _ _ _ Hfirst)|]. intros _.
      destruct (Z_lt_le_dec (Game._current_round self) 0) as [Hlt|Hge];
        [exact Hlt|].
      destruct (first_ok (Game.players self2) (Game._current_round self2 - 1))
        as [P HP]; [lia|congruence]. }
  destruct (Players.tie first_nt).
  - step_display H3.
    2:{ destruct H3 as [He Hm3]. split; [exact He|]. intros Hok.
        rewrite Hmsg in Hm3. rewrite (Hm3 []) in Hok;
          [discriminate|cbn; tauto|reflexivity]. }
    destruct H3 as (ts3 & t3 & text3 & _ & _ & _ & -> & ->).
    exists cards. now repeat split.
  - step_display H3.
    2:{ destruct H3 as [He Hm3]. split; [exact He|]. intros Hok.
        rewrite Hmsg in Hm3. rewrite (Hm3 ["round_winner"%string]) in Hok;
          [discriminate|cbn; tauto|reflexivity]. }
    destruct H3 as (ts3 & t3 & text3 & _ & _ & _ & -> & ->).
    exists cards. now repeat split.
Qed.

Lemma play_while_inactive (fuel : nat) (self : game)
  (out : list Game.Output) :
  Game._is_active self = false ->
  Game.play_while rand_shuffle rand_below fuel self out
  = Some (Ok (self, out)).
Proof. intros H. destruct fuel; cbn; now rewrite H. Qed.

(** The [while] loop of [play] ends within the passes [play] allows.  When
    it returns the game is inactive and, if it was active within its
    limit, every round up to the limit was played.  It raises only where a
    message cannot be displayed or the round counter is negative. *)
Lemma play_while_spec (fuel : nat) :
  forall (self : game) (out : list Game.Output),
    (Z.to_nat (Game._max_rounds self - Game._current_round self) < fuel)%nat
    \/ Game._is_active self = false ->
    exists r,
      Game.play_while rand_shuffle rand_below fuel self out = Some r
      /\ match r with
         | Ok (self', out') =>
             Game._is_active self' = false
             /\ Game._max_rounds self' = Game._max_rounds self
             /\ Game._message self' = Game._message self
             /\ (Game._is_active self = true ->
                 Game._current_round self <= Game._max_rounds self ->
                 Game._current_round self' = Game._max_rounds self + 1
                 /\ Forall2
                      (grew (Z.to_nat (Game._max_rounds self
                                       - Game._current_round self + 1)))
                      (Players._players (Game.players self))
                      (Players._players (Game.players self')))
         | Raise e =>
             e <> DeckEmptyError
             /\ (Game.messages_ok (Game._message self) = true ->
                 Game._current_round self < 0)
         end.
Proof.
  induction fuel as [|fuel IH]; intros self out Hfuel.
  - destruct Hfuel as [Hfuel|Hoff]; [lia|].
    rewrite (play_while_inactive _ _ _ Hoff). eexists. split; [reflexivity|].
    repeat split; try assumption. all: congruence.
  - destruct (Game._is_active self) eqn:Hact.
    2:{ rewrite (play_while_inactive _ _ _ Hact). eexists.
        split; [reflexivity|]. repeat split; try assumption.
        all: congruence. }
    cbn [Game.play_while]. rewrite Hact.
    pose proof (round_spec self out) as Hr.
    destruct (Game.round rand_shuffle rand_below self out)
      as [[self1 out1]|e].
    2:{ exists (Raise e). split; [reflexivity|exact Hr]. }
    destruct Hr as (cards & Hlen & Hps & Hc & Ha & Hm & Hmsg).
    assert (Hg1 : Forall2 (grew 1) (Players._players (Game.players self))
                          (Players._players (Game.players self1)))
      by (rewrite Hps; now apply deal_grew).
    destruct (Z_lt_le_dec (Game._current_round self) (Game._max_rounds self))
      as [Hlt|Hge].
    + assert (Hon : Game._is_active self1 = true).
      { rewrite Ha. destruct (_ >=? _) eqn:E; [|exact Hact].
        rewrite Z.geb_leb in E. apply Z.leb_le in E. lia. }
      destruct (IH self1 out1) as (r & Hr & Hmatch).
      { left. destruct Hfuel as [Hfuel|Hoff]; [lia|discriminate]. }
      exists r. split; [exact Hr|].
      destruct r as [[self' out']|e].
      * destruct Hmatch as (Hoff' & Hm' & Hmsg' & Hgrow).
        split; [exact Hoff'|]. split; [congruence|]. split; [congruence|].
        intros _ _. destruct (Hgrow Hon) as [Hc' Hg]; [lia|].
        split; [lia|].
        replace (Z.to_nat (Game._max_rounds self
                           - Game._current_round self + 1))
          with (1 + Z.to_nat (Game._max_rounds self1
                              - Game._current_round self1 + 1))%nat by lia.
        exact (grew_trans _ _ _ _ Hg1 _ Hg).
      * destruct Hmatch as [He Hneg]. split; [exact He|].
        intros Hok. rewrite Hmsg in Hneg. specialize (Hneg Hok). lia.
    + assert (Hoff : Game._is_active self1 = false).
      { rewrite Ha. destruct (_ >=? _) eqn:E; [reflexivity|].
        rewrite Z.geb_leb in E. apply Z.leb_gt in E. lia. }
      rewrite (play_while_inactive _ _ _ Hoff). eexists.
      split; [reflexivity|]. split; [exact Hoff|]. split; [exact Hm|].
      split; [exact Hmsg|]. intros _ Hle. split; [lia|].
      replace (Z.to_nat (Game._max_rounds self
                         - Game._current_round self + 1))
        with 1%nat by lia.
      exact Hg1.
Qed.

(** What [play] does after its loop: the outcome by the cumulative first
    place, then the leaderboard. *)
Lemma after_loop_spec (self : game) (out : list Game.Output) :
  match Game.after_loop rand_below self out with
  | Ok (self', out') =>
      exists first_nt text over r,
        Players.first (Game.players self) 0 = Ok first_nt
        /\ Players.__str__ (Game.players self) = Ok text
        /\ self' = Game.set_rand self r
        /\ out'
           = out
             ++ [(if Players.tie first_nt
                  then Game.Display "GAME OVER TIE" [] over
                  else Game.Display "GAME OVER"
                         [("game_winner", Game.VName (Players.name first_nt))]
                         over);
                 Game.Print text]
  | Raise e =>
      e <> DeckEmptyError /\ Game.messages_ok (Game._message self) = false
  end.
Proof.
  unfold Game.after_loop.
  destruct (first_ok (Game.players self) 0 (Z.le_refl 0)) as [P HP].
  destruct (str_ok (Game.players self)) as [text Ht].
  rewrite HP. cbn [bind]. destruct (Players.tie P) eqn:Etie.
  - step_display H.
    2:{ destruct H as [He Hm]. split; [exact He|].
        apply (Hm []); [cbn; tauto|reflexivity]. }
    destruct H as (tpls & tpl & over & _ & _ & _ & -> & ->).
    cbn [Game.players Game.set_rand]. rewrite Ht. cbn [bind].
    exists P, text, over. eexists. rewrite Etie.
    split; [reflexivity|]. split; [reflexivity|]. split; [reflexivity|].
    now rewrite <- app_assoc.
  - step_display H.
    2:{ destruct H as [He Hm]. split; [exact He|].
        apply (Hm ["game_winner"%string]); [cbn; tauto|reflexivity]. }
    destruct H as (tpls & tpl & over & _ & _ & _ & -> & ->).
    cbn [Game.players Game.set_rand]. rewrite Ht. cbn [bind].
    exists P, text, over. eexists. rewrite Etie.
    split; [reflexivity|]. split; [reflexivity|]. split; [reflexivity|].
    now rewrite <- app_assoc.
Qed.

(** [play] always returns.  When it returns normally the game is inactive
    and, if it was active within its limit, every round up to the limit
    was played; it raises only where a message cannot be displayed or the
    round counter is negative, and never [DeckEmptyError]. *)
Lemma play_spec (self : game) (out : list Game.Output) :
  exists r,
    Game.play rand_shuffle rand_below self out = Some r
    /\ match r with
       | Ok (self', out') =>
           Game._is_active self' = false
           /\ Game._max_rounds self' = Game._max_rounds self
           /\ Game._message self' = Game._message self
           /\ (Game._is_active self = true ->
               Game._current_round self <= Game._max_rounds self ->
               Game._current_round self' = Game._max_rounds self + 1
               /\ Forall2
                    (grew (Z.to_nat (Game._max_rounds self
                                     - Game._current_round self + 1)))
                    (Players._players (Game.players self))
                    (Players._players (Game.players self')))
       | Raise e =>
           e <> DeckEmptyError
           /\ (Game.messages_ok (Game._message self) = true ->
               Game._current_round self < 0)
       end.
Proof.
  unfold Game.play.
  step_display H1.
  2:{ destruct H1 as [He Hm]. eexists. split; [reflexivity|].
      split; [exact He|]. intros Hok.
      rewrite (Hm []) in Hok; [discriminate|cbn; tauto|reflexivity]. }
  destruct H1 as (ts1 & t1 & text1 & _ & _ & _ & -> & ->).
  match goal with
  | |- context [Game.play_while ?rs ?rb ?f ?s ?o] =>
      destruct (play_while_spec f s o) as (r & Hr & Hmatch);
        [left; unfold Game.rounds_left; lia|rewrite Hr]
  end.
  destruct r as [[self1 out1]|e].
  2:{ exists (Raise e). split; [reflexivity|exact Hmatch]. }
  destruct Hmatch as (Hoff & Hm & Hmsg & Hgrow).
  cbn [Game.players Game._current_round Game._is_active Game._max_rounds
       Game._message Game.set_rand] in Hm, Hmsg, Hgrow.
  pose proof (after_loop_spec self1 out1) as Ha.
  destruct (Game.after_loop rand_below self1 out1) as [[self2 out2]|e].
  - exists (Ok (self2, out2)). split; [reflexivity|].
    destruct Ha as (P & text & over & r & _ & _ & -> & _).
    cbn [Game.players Game._current_round Game._is_active Game._max_rounds
         Game._message Game.set_rand].
    split; [exact Hoff|]. split; [exact Hm|]. split; [exact Hmsg|].
    exact Hgrow.
  - exists (Raise e). split; [reflexivity|]. destruct Ha as [He Hbad].
    split; [exact He|]. intros Hok. congruence.
Qed.

(** With a fit message dictionary and a round counter of at least 1,
    [play] returns normally. *)
Lemma play_ok (self : game) (out : list Game.Output) :
  Game.messages_ok (Game._message self) = true ->
  1 <= Game._current_round self ->
  exists self' out',
    Game.play rand_shuffle rand_below self out = Some (Ok (self', out'))
    /\ Game._is_active self' = false
    /\ Game._max_rounds self' = Game._max_rounds self
    /\ (Game._is_active self = true ->
        Game._current_round self <= Game._max_rounds self ->
        Game._current_round self' = Game._max_rounds self + 1
        /\ Forall2
             (grew (Z.to_nat (Game._max_rounds self
                              - Game._current_round self + 1)))
             (Players._players (Game.players self))
             (Players._players (Game.players self'))).
Proof.
  intros Hok Hcur. destruct (play_spec self out) as (r & Hr & Hmatch).
  destruct r as [[self' out']|e].
  - exists self', out'. split; [exact Hr|].
    destruct Hmatch as (H1 & H2 & _ & H3).
    split; [exact H1|]. split; [exact H2|exact H3].
  - destruct Hmatch as [_ Hneg]. specialize (Hneg Hok). lia.
Qed.

(** C4, as the code has it. Every round that returns ends with the round
    counter one higher, whether or not the limit was reached; the game
    becomes inactive exactly when the round just played had a number at or
    above the configured maximum, and otherwise keeps its state of
    activity.  With a message dictionary that has a template for every
    category displayed, the round does return. *)
Theorem next_round_counter (self : game) (out : list Game.Output) :
  (forall self' out',
     Game._next_round rand_shuffle rand_below self out = Ok (self', out') ->
     Game._current_round self' = Game._current_round self + 1
     /\ (Game._max_rounds self <= Game._current_round self ->
         Game._is_active self' = false)
     /\ (Game._current_round self < Game._max_rounds self ->
         Game._is_active self' = Game._is_active self)
     /\ Game._max_rounds self' = Game._max_rounds self)
  /\ (Game.messages_ok (Game._message self) = true ->
      exists self' out',
        Game._next_round rand_shuffle rand_below self out = Ok (self', out')
        /\ Game._current_round self' = Game._current_round self + 1
        /\ (Game._max_rounds self <= Game._current_round self ->
            Game._is_active self' = false)
        /\ (Game._current_round self < Game._max_rounds self ->
            Game._is_active self' = Game._is_active self)
        /\ Game._max_rounds self' = Game._max_rounds self).
Proof.
  pose proof (next_round_spec self out) as H.
  assert (Hall : forall self' out',
     Game._next_round rand_shuffle rand_below self out = Ok (self', out') ->
     Game._current_round self' = Game._current_round self + 1
     /\ (Game._max_rounds self <= Game._current_round self ->
         Game._is_active self' = false)
     /\ (Game._current_round self < Game._max_rounds self ->
         Game._is_active self' = Game._is_active self)
     /\ Game._max_rounds self' = Game._max_rounds self).
  { intros self' out' E. rewrite E in H.
    destruct H as (cards & _ & _ & Hc & Ha & Hm & _).
    split; [exact Hc|].
    destruct (Game._current_round self >=? Game._max_rounds self) eqn:Ege;
      rewrite Z.geb_leb in Ege;
      [apply Z.leb_le in Ege|apply Z.leb_gt in Ege];
      (split; [intros; (exact Ha || lia)
              |split; [intros; (exact Ha || lia)|exact Hm]]). }
  split; [exact Hall|].
  intros Hok.
  destruct (Game._next_round rand_shuffle rand_below self out)
    as [[self' out']|e].
  - exists self', out'. split; [reflexivity|].
    exact (Hall self' out' eq_refl).
  - destruct H as [_ Hbad]. congruence.
Qed.

(** C5. A turn on an empty deck, when it returns, has shown EMPTY DECK
    once, between the prompt and the end of the turn, made the deck new,
    shuffled it with the deck's own random source and drawn again: the
    participant got the last card of the 52 as shuffled, and the deck of
    the game is the 51 others with the new state of the random source.
    With a message dictionary that has a template for every category
    displayed, the turn does return.  A turn on a deck that holds cards
    takes the last card and shows no EMPTY DECK.  A turn never raises
    [DeckEmptyError]; [play] always returns, never raises
    [DeckEmptyError], and with such a message dictionary raises nothing
    at all when the round counter is at least 1, as it is after
    construction and after [new_game]. *)
Theorem deck_exhaustion_recovered (self : game) (out : list Game.Output)
  (done todo : list Player.t) (player : Player.t) :
  (Deck._deck (Game._deck self) = [] ->
   (forall self' out' player',
      Game.turn rand_shuffle rand_below self out done player todo
      = Ok (self', out', player') ->
      exists card rest r text1 text2 text3 pos_result,
        rand_shuffle (Deck._rand (Game._deck self)) Deck.full
        = (r, rest ++ [card])
        /\ Permutation (rest ++ [card]) Deck.full
        /\ length rest = 51%nat
        /\ player' = Player.draw_card player card
        /\ out'
           = out
             ++ [Game.Display "TURN START"
                   [("current_player_name", VStr (Player.name player))]
                   text1;
                 Game.Input "Hit enter to draw a card.";
                 Game.Display "EMPTY DECK" [] text2;
                 Game.Display
                   (Game.str_upper_bool pos_result ++ " TURN END")
                   [("current_player_name", VStr (Player.name player));
                    ("current_card", VCard card);
                    ("current_player_score",
                     VInt (cumulative (Player.draw_card player card)))]
                   text3]
        /\ Game._deck self'
           = {| Deck._deck := rest; Deck._rand := r;
                Deck._current_card := 0 |}
        /\ Players._players (Game.players self')
           = done ++ Player.draw_card player card :: todo)
   /\ (Game.messages_ok (Game._message self) = true ->
       exists self' out' player',
         Game.turn rand_shuffle rand_below self out done player todo
         = Ok (self', out', player')))
  /\ (forall card rest self' out' player',
        Deck._deck (Game._deck self) = rest ++ [card] ->
        Game.turn rand_shuffle rand_below self out done player todo
        = Ok (self', out', player') ->
        player' = Player.draw_card player card
        /\ Game._deck self'
           = {| Deck._deck := rest;
                Deck._rand := Deck._rand (Game._deck self);
                Deck._current_card := Deck._current_card (Game._deck self) |}
        /\ exists text1 text3 pos_result,
             out'
             = out
               ++ [Game.Display "TURN START"
                     [("current_player_name", VStr (Player.name player))]
                     text1;
                   Game.Input "Hit enter to draw a card.";
                   Game.Display
                     (Game.str_upper_bool pos_result ++ " TURN END")
                     [("current_player_name", VStr (Player.name player));
                      ("current_card", VCard card);
                      ("current_player_score",
                       VInt (cumulative (Player.draw_card player card)))]
                     text3])
  /\ (Deck._deck (Deck.new_deck (Game._deck self)) = Deck.full
      /\ length Deck.full = 52%nat)
  /\ Game.turn rand_shuffle rand_below self out done player todo
     <> Raise DeckEmptyError
  /\ (exists r,
        Game.play rand_shuffle rand_below self out = Some r
        /\ r <> Raise DeckEmptyError)
  /\ (Game.messages_ok (Game._message self) = true ->
      1 <= Game._current_round self ->
      exists self' out',
        Game.play rand_shuffle rand_below self out = Some (Ok (self', out'))
        /\ Game._is_active self' = false).
Proof.
  pose proof (turn_spec self out done todo player) as Ht.
  split; [|split; [|split; [now split|split; [|split]]]].
  - intros Hnil. split.
    + intros self' out' player' E. rewrite E in Ht.
      destruct Ht as (card & shown & text1 & text3 & first_nt & -> & Hpl & _
                      & Hdr & _ & ->).
      destruct Hdr as [(_ & Hd & _)|(_ & (text2 & ->) & Hsh & Hcur)].
      { rewrite Hnil in Hd. now destruct (Deck._deck (Game._deck self')). }
      pose proof (shuffle_perm (Deck._rand (Game._deck self)) Deck.full)
        as Hp.
      rewrite Hsh in Hp. cbn [snd] in Hp. apply Permutation_sym in Hp.
      exists card, (Deck._deck (Game._deck self')),
        (Deck._rand (Game._deck self')), text1, text2, text3,
        (Game.player_in (Player.draw_card player card)
           (Players.players first_nt)).
      split; [exact Hsh|]. split; [exact Hp|].
      split.
      { apply Permutation_length in Hp. rewrite length_app in Hp.
        cbn in Hp. lia. }
      split; [reflexivity|]. split; [reflexivity|].
      split; [|now rewrite Hpl].
      destruct (Game._deck self') as [l r c]. cbn in Hcur |- *. now subst c.
    + intros Hok.
      destruct (Game.turn rand_shuffle rand_below self out done player todo)
        as [[[self' out'] player']|e]; [|destruct Ht; congruence].
      now exists self', out', player'.
  - intros card rest self' out' player' Hdeck E. rewrite E in Ht.
    destruct Ht as (card' & shown & text1 & text3 & first_nt & -> & _ & _
                    & Hdr & _ & ->).
    destruct Hdr as [(-> & Hd & Hr & Hc)|(Hnil & _)].
    2:{ rewrite Hnil in Hdeck. now destruct rest. }
    rewrite Hdeck in Hd. apply app_inj_tail in Hd. destruct Hd as [-> ->].
    split; [reflexivity|]. split.
    { destruct (Game._deck self') as [l r c]. cbn in Hr, Hc |- *.
      now subst. }
    now exists text1, text3,
      (Game.player_in (Player.draw_card player card')
         (Players.players first_nt)).
  - intros E. rewrite E in Ht. now destruct Ht.
  - destruct (play_spec self out) as (r & Hr & Hmatch).
    exists r. split; [exact Hr|]. intros ->. now destruct Hmatch.
  - intros Hok Hcur.
    destruct (play_ok self out Hok Hcur) as (self' & out' & H & Hoff & _).
    exists self', out'. now split.
Qed.

(** C1, as the code has it. With a message dictionary that has a template
    for every category displayed, a turn shows TURN START, waits, draws
    (with the recovery of an empty deck), appends the card to the
    participant's hand and then shows TRUE TURN END or FALSE TURN END:
    TRUE exactly when the participant is in the first-place group of the
    cumulative leaderboard ([first()] with round 0) computed after the
    draw, that is, exactly when no participant has a higher cumulative
    score. *)
Theorem turn_end_cumulative (self : game) (out : list Game.Output)
  (done todo : list Player.t) (player : Player.t) :
  Game.messages_ok (Game._message self) = true ->
  exists card self' out1 text first_nt pos_result,
    Game.turn rand_shuffle rand_below self out done player todo
    = Ok (self',
          out1 ++ [Game.Display
                     (Game.str_upper_bool pos_result ++ " TURN END")
                     [("current_player_name", VStr (Player.name player));
                      ("current_card", VCard card);
                      ("current_player_score",
                       VInt (cumulative (Player.draw_card player card)))]
                     text],
          Player.draw_card player card)
    /\ Players._players (Game.players self')
       = done ++ Player.draw_card player card :: todo
    /\ Players.first (Game.players self') 0 = Ok first_nt
    /\ pos_result
       = Game.player_in (Player.draw_card player card)
           (Players.players first_nt)
    /\ (pos_result = true
        <-> forall q, In q (done ++ Player.draw_card player card :: todo) ->
                      cumulative q <= cumulative (Player.draw_card player card)).
Proof.
  intros Hok.
  pose proof (turn_spec self out done todo player) as Ht.
  destruct (Game.turn rand_shuffle rand_below self out done player todo)
    as [[[self' out'] player']|e]; [|destruct Ht; congruence].
  destruct Ht as (card & shown & text1 & text2 & first_nt & -> & Hpl & _
                  & _ & Hfirst & ->).
  exists card, self',
    (out
     ++ [Game.Display "TURN START"
           [("current_player_name", VStr (Player.name player))] text1;
         Game.Input "Hit enter to draw a card."]
     ++ shown),
    text2, first_nt,
    (Game.player_in (Player.draw_card player card) (Players.players first_nt)).
  split; [now rewrite <- !app_assoc|].
  split; [now rewrite Hpl|]. split; [exact Hfirst|].
  split; [reflexivity|].
  rewrite player_in_iff.
  assert (Hne : Players._players (Game.players self') <> []).
  { rewrite Hpl. cbn [Players._players].
    intros E. apply app_eq_nil in E. destruct E as [_ E]. discriminate. }
  rewrite (first_place_max _ first_nt Hne Hfirst).
  rewrite Hpl. cbn [Players._players]. split.
  - now intros [_ H].
  - intros H. split; [|exact H]. apply in_or_app. right. now left.
Qed.

End RoundLoop.

(* ================================================================== *)
(** * The run of [test_basic_game_5] *)

Section Scenario.
Context {R : Type}.
Variable rand_shuffle : R -> list Card.t -> R * list Card.t.
Variable rand_below : R -> nat -> R * nat.
Variables fresh deck_rand game_rand : R.

(** C3. With the nine cards of [CARDS_5] (top of the deck last), the
    participants Berkelly, Cez and Tonto in that order, three rounds and
    the messages of the test, whatever the random source: the game is
    built, [play] returns after round 3 with the console trace of
    [GAME_5_OUTPUT], the cumulative scores are Berkelly 29, Cez 70,
    Tonto 70, the first place is a tie of Cez and Tonto at 70, and the
    leaderboard text is the three rows "1: Cez (70)", "1: Tonto (70)",
    "2: Berkelly (29)" in that order. *)
Theorem game_5_run :
  exists self self' first_nt,
    Game.__init__ rand_shuffle fresh game_rand None PLAYERS_2
      (Some (deck_5 deck_rand)) 3 (Some MESSAGE) = Ok self
    /\ Game.play rand_shuffle rand_below self []
       = Some (Ok (self', GAME_5_OUTPUT))
    /\ Game._is_active self' = false
    /\ Game._current_round self' = 4
    /\ Players._players (Game.players self') = PLAYERS_GAME_5
    /\ map (fun p => (Player.name p, cumulative p)) PLAYERS_GAME_5
       = [("Berkelly", 29); ("Cez", 70); ("Tonto", 70)]
    /\ Players.first (Game.players self') 0 = Ok first_nt
    /\ Players.tie first_nt = true
    /\ Players.names first_nt = ["Cez"; "Tonto"]
    /\ Players.score first_nt = 70
    /\ Players.__str__ (Game.players self')
       = Ok (String.concat newline
               ["1: Cez (70)"; "1: Tonto (70)"; "2: Berkelly (29)"]).
Proof.
  eexists _, _, _.
  split; [vm_compute; reflexivity|].
  split; [vm_compute; reflexivity|].
  repeat split; vm_compute; reflexivity.
Qed.

End Scenario.

Lemma keep_order_perm (r : unit) (l : list Card.t) :
  Permutation l (snd (keep_order r l)).
Proof. apply Permutation_refl. Qed.

Lemma MESSAGE_ok : Game.messages_ok MESSAGE = true.
Proof. reflexivity. Qed.

(** [game_5_round_3] is where [test_basic_game_5] stands after two rounds. *)
Lemma game_5_round_3_reached :
  exists out,
    (self <- Game.__init__ keep_order tt tt None PLAYERS_2
               (Some (deck_5 tt)) 3 (Some MESSAGE) ;;
     '(self, out) <- Game._next_round keep_order first_choice self [] ;;
     Game._next_round keep_order first_choice self out)
    = Ok (game_5_round_3, out).
Proof. eexists. vm_compute. reflexivity. Qed.

(** C1, as the spec has it, fails. In round 3 of [test_basic_game_5]
    Berkelly draws first: with the 3 of Diamonds its round-3 score of 6 is
    the highest of the round so far, so Berkelly is in the first-place group
    of round 3, yet the turn ends with FALSE TURN END, as the test expects,
    because its cumulative 29 is below the cumulative 62 of Cez. *)
Lemma turn_end_not_round_scoped :
  exists player todo self' out' player' round_first,
    Players._players (Game.players game_5_round_3) = player :: todo
    /\ Game.turn keep_order first_choice game_5_round_3 [] [] player todo
       = Ok (self', out', player')
    /\ out' = turn_start "Berkelly"
              ++ [turn_end "FALSE TURN END" "Berkelly"
                    Card.Diamonds Card.R3 29
                    "Negative, Berkelly drew 3 of Diamonds bringing score to 29."]
    /\ Players.first (Game.players self')
         (Game._current_round game_5_round_3) = Ok round_first
    /\ Game.player_in player' (Players.players round_first) = true.
Proof.
  eexists _, _, _, _, _, _.
  split; [reflexivity|].
  split; [vm_compute; reflexivity|].
  split; [reflexivity|].
  split; vm_compute; reflexivity.
Qed.

(** C4, as the spec has it, fails. Round 3 of 3: the game becomes inactive
    and the round counter is incremented all the same, from 3 to 4. *)
Lemma next_round_increments_at_limit :
  Game._current_round game_5_round_3 >= Game._max_rounds game_5_round_3
  /\ exists self' out',
       Game._next_round keep_order first_choice game_5_round_3 []
       = Ok (self', out')
       /\ Game._is_active self' = false
       /\ Game._current_round game_5_round_3 = 3
       /\ Game._current_round self' = 4.
Proof.
  split; [vm_compute; discriminate|].
  eexists _, _. split; [vm_compute; reflexivity|].
  repeat split.
Qed.

(* ================================================================== *)
(** * Instances *)

Lemma leaderboard_places_witness :
  0 <= 3
  /\ exists l_b_dict,
       Players._get_leaderboard (Game.players game_5_round_3) 3 = Ok l_b_dict
       /\ map fst l_b_dict = map Z.of_nat (seq 1 (length l_b_dict)).
Proof.
  split; [lia|].
  destruct (leaderboard_places (Game.players game_5_round_3) 3)
    as (lb & Hlb & Hkeys & _); [lia|].
  exists lb. split; [exact Hlb|exact Hkeys].
Defined.

Lemma accessors_sentinel_witness :
  0 <= 1
  /\ exists l_b_dict,
       Players._get_leaderboard
         {| Players._current_player := 0; Players._players := [] |} 1
       = Ok l_b_dict
       /\ (length l_b_dict <= 0)%nat.
Proof.
  split; [lia|].
  destruct (accessors_sentinel
              {| Players._current_player := 0; Players._players := [] |} 1)
    as (lb & Hlb & Hlen & _); [lia|].
  exists lb. split; [exact Hlb|exact Hlen].
Defined.

Lemma next_round_counter_witness :
  (forall r l, Permutation l (snd (keep_order r l)))
  /\ Game.messages_ok (Game._message game_5_round_3) = true
  /\ exists self' out',
       Game._next_round keep_order first_choice game_5_round_3 []
       = Ok (self', out')
       /\ Game._current_round self' = Game._current_round game_5_round_3 + 1.
Proof.
  split; [exact keep_order_perm|]. split; [reflexivity|].
  destruct (proj2 (next_round_counter keep_order first_choice keep_order_perm
                     game_5_round_3 []) eq_refl)
    as (self' & out' & H & Hc & _).
  exists self', out'. split; [exact H|exact Hc].
Defined.

Lemma deck_exhaustion_recovered_witness :
  (forall r l, Permutation l (snd (keep_order r l)))
  /\ Deck._deck
       (Game._deck (Game.set_deck game_5_round_3 (Deck.__init__ tt true None)))
     = []
  /\ Game.messages_ok
       (Game._message
          (Game.set_deck game_5_round_3 (Deck.__init__ tt true None)))
     = true
  /\ exists self' out' player',
       Game.turn keep_order first_choice
         (Game.set_deck game_5_round_3 (Deck.__init__ tt true None)) []
         [] (Player.__init__ "Berkelly") []
       = Ok (self', out', player')
       /\ exists card rest,
            keep_order tt Deck.full = (tt, rest ++ [card])
            /\ player' = Player.draw_card (Player.__init__ "Berkelly") card
            /\ Deck._deck (Game._deck self') = rest.
Proof.
  split; [exact keep_order_perm|]. split; [reflexivity|].
  split; [reflexivity|].
  destruct (proj1 (deck_exhaustion_recovered keep_order first_choice
                     keep_order_perm
                     (Game.set_deck game_5_round_3
                        (Deck.__init__ tt true None))
                     [] [] [] (Player.__init__ "Berkelly"))
              eq_refl) as [Hinv Hex].
  destruct (Hex eq_refl) as (self' & out' & player' & Ht).
  exists self', out', player'. split; [exact Ht|].
  destruct (Hinv self' out' player' Ht)
    as (card & rest & r & t1 & t2 & t3 & pos & Hsh & _ & _ & Hp & _ & Hd
        & _).
  destruct r. exists card, rest.
  split; [exact Hsh|]. split; [exact Hp|]. now rewrite Hd.
Defined.

Lemma turn_end_cumulative_witness :
  (forall r l, Permutation l (snd (keep_order r l)))
  /\ Game.messages_ok (Game._message game_5_round_3) = true
  /\ exists card self' out' first_nt,
       Game.turn keep_order first_choice game_5_round_3 [] []
         (Player.__init__ "Berkelly") []
       = Ok (self', out', Player.draw_card (Player.__init__ "Berkelly") card)
       /\ Players.first (Game.players self') 0 = Ok first_nt.
Proof.
  split; [exact keep_order_perm|]. split; [reflexivity|].
  destruct (turn_end_cumulative keep_order first_choice keep_order_perm
              game_5_round_3 [] [] [] (Player.__init__ "Berkelly") eq_refl)
    as (card & self' & out1 & text & first_nt & pos & H & _ & Hf & _).
  exists card, self'. eexists. exists first_nt.
  split; [exact H|exact Hf].
Defined.

Lemma str_rows_witness :
  Forall (fun p => has_lf (Player.name p) = false) PLAYERS_GAME_5
  /\ exists text,
       Players.__str__
         {| Players._current_player := 0;
            Players._players := PLAYERS_GAME_5 |} = Ok text
       /\ length (lines text) = 3%nat.
Proof.
  assert (H : Forall (fun p => has_lf (Player.name p) = false)
                     PLAYERS_GAME_5) by (repeat constructor).
  split; [exact H|].
  destruct (str_rows {| Players._current_player := 0;
                        Players._players := PLAYERS_GAME_5 |})
    as (lb & text & _ & Hstr & _ & _ & _ & _ & _ & _ & _ & _ & Hlines & _).
  exists text. split; [exact Hstr|]. exact (proj2 (Hlines H)).
Defined.

(* ================================================================== *)
(** * Cards *)

(** X1. [<] and [>] on cards are converse strict orders by rank; two cards
    are unordered exactly when they have the same rank, so cards of one
    rank and different suits are neither equal nor ordered. *)
Theorem card_order (a b : Card.t) :
  Card.__lt__ a b = Card.__gt__ b a
  /\ Card.__lt__ a a = false
  /\ (forall c, Card.__lt__ a b = true -> Card.__lt__ b c = true ->
                Card.__lt__ a c = true)
  /\ ((Card.__lt__ a b = false /\ Card.__gt__ a b = false)
      <-> Card.rank a = Card.rank b)
  /\ (Card.rank a = Card.rank b -> Card.suit a <> Card.suit b ->
      Card.eqb a b = false
      /\ Card.__lt__ a b = false /\ Card.__gt__ a b = false).
Proof.
  assert (Hinj : forall r r', Card.RANK_value r = Card.RANK_value r' -> r = r')
    by (intros r r'; destruct r, r'; (reflexivity || discriminate)).
  assert (Hun : (Card.__lt__ a b = false /\ Card.__gt__ a b = false)
                <-> Card.rank a = Card.rank b).
  { unfold Card.__lt__, Card.__gt__.
    rewrite Z.ltb_ge, Z.gtb_ltb, Z.ltb_ge. split.
    - intros [H1 H2]. apply Hinj. lia.
    - intros ->. lia. }
  unfold Card.__lt__, Card.__gt__ in *.
  split; [now rewrite Z.gtb_ltb|].
  split; [apply Z.ltb_irrefl|].
  split; [intros c H1 H2; apply Z.ltb_lt in H1, H2; apply Z.ltb_lt; lia|].
  split; [exact Hun|].
  intros Hr Hs. split; [|now apply Hun].
  destruct (Card.eqb a b) eqn:E; [|reflexivity].
  apply Card_eqb_eq in E. subst. contradiction.
Qed.

(** X2. The text of a card determines the card. *)
Theorem card_str_injective (a b : Card.t) :
  Card.__str__ a = Card.__str__ b -> a = b.
Proof.
  destruct a as [sa ra], b as [sb rb]. unfold Card.__str__. cbn [Card.suit Card.rank].
  destruct ra, rb; cbn [Card.RANK_name];
    destruct sa, sb; cbn; intros H; (reflexivity || discriminate H).
Qed.

(* ================================================================== *)
(** * Decks *)

Lemma py_getitem_out {A : Type} (l : list A) (i : Z) :
  Z.of_nat (length l) <= i -> py_getitem l i = Raise IndexError.
Proof.
  intros H. unfold py_getitem.
  destruct (i <? 0) eqn:E; [apply Z.ltb_lt in E; lia|].
  destruct (i <? 0) eqn:E1; [discriminate|].
  destruct (Z.of_nat (length l) <=? i) eqn:E2; [reflexivity|].
  apply Z.leb_gt in E2. lia.
Qed.

Lemma skipn_nth {A : Type} (l : list A) :
  forall k x, nth_error l k = Some x -> skipn k l = x :: skipn (S k) l.
Proof.
  induction l as [|y l IH]; intros [|k] x H; cbn in *; try discriminate.
  - now injection H as ->.
  - now apply IH.
Qed.

Lemma pop_app {A : Type} (l : list A) (x : A) :
  Deck.pop (l ++ [x]) = Some (x, l).
Proof. unfold Deck.pop. now rewrite rev_unit, rev_involutive. Qed.

Lemma full_NoDup : NoDup Deck.full.
Proof.
  apply (NoDup_map_inv
           (fun c => 100 * Card.SUIT_value (Card.suit c)
                     + Card.RANK_value (Card.rank c))).
  cbn. repeat (constructor; [cbn; lia|]). constructor.
Qed.

Lemma full_complete (card : Card.t) : In card Deck.full.
Proof.
  destruct card as [suit rank]. unfold Deck.full. apply in_flat_map.
  exists suit. split; [destruct suit; cbn; tauto|].
  apply in_map. destruct rank; cbn; tauto.
Qed.

Section DeckFacts.
Context {R : Type}.
Implicit Types (d : @Deck.t R).

(** X3. A card put on a deck is the next card drawn, and drawing it gives
    the deck back as it was. *)
Theorem deck_push_pop d (card : Card.t) :
  Deck.get_card (Deck.add_card d card) = Ok (card, d)
  /\ Deck.top_card (Deck.add_card d card) = Some card
  /\ Deck.__len__ (Deck.add_card d card) = Deck.__len__ d + 1.
Proof.
  destruct d as [l r k].
  unfold Deck.get_card, Deck.top_card, Deck.add_card, Deck.__len__.
  cbn [Deck._deck Deck._rand Deck._current_card].
  rewrite pop_app, rev_unit, length_app. cbn. repeat split. lia.
Qed.

(** X4. [top_card] is [None] exactly on the empty deck, where [get_card]
    raises [DeckEmptyError]; otherwise it is the card [get_card] returns,
    the card at index -1; a drawn card put back restores the deck. *)
Theorem deck_top_draw d :
  (Deck.top_card d = None <-> Deck._deck d = [])
  /\ (Deck.top_card d = None <-> Deck.get_card d = Raise DeckEmptyError)
  /\ (forall card, Deck.top_card d = Some card
                   <-> exists d', Deck.get_card d = Ok (card, d'))
  /\ (forall card d', Deck.get_card d = Ok (card, d') ->
        Deck.add_card d' card = d
        /\ Deck.__len__ d' = Deck.__len__ d - 1)
  /\ Deck.top_card d
     = match Deck.__getitem__ d (-1) with
       | Ok card => Some card
       | Raise _ => None
       end.
Proof.
  destruct d as [l r k].
  unfold Deck.top_card, Deck.get_card, Deck.add_card, Deck.__len__,
    Deck.__getitem__, Deck.pop.
  cbn [Deck._deck Deck._rand Deck._current_card].
  destruct (rev l) as [|x t] eqn:E.
  - assert (l = []) by (apply (f_equal (@rev _)) in E;
                        now rewrite rev_involutive in E).
    subst l. cbn. repeat split; try easy.
    + intros [d' H]. discriminate.
  - assert (Hl : l = rev t ++ [x])
      by (apply (f_equal (@rev _)) in E; now rewrite rev_involutive in E).
    repeat split; try easy.
    + intros ->. discriminate.
    + intros H. injection H as ->. now eexists.
    + intros [d' H]. now injection H as -> _.
    + injection H as <- <-. cbn. now rewrite <- Hl.
    + injection H as <- <-. cbn. rewrite Hl, length_app. cbn. lia.
    + rewrite Hl. unfold py_getitem. rewrite length_app. cbn [length].
      replace (-1 <? 0) with true by reflexivity.
      replace (-1 + Z.of_nat (length (rev t) + 1))
        with (Z.of_nat (length (rev t))) by lia.
      destruct (Z.of_nat (length (rev t)) <? 0) eqn:E1;
        [apply Z.ltb_lt in E1; lia|].
      destruct (Z.of_nat (length (rev t) + 1) <=? Z.of_nat (length (rev t)))
        eqn:E2; [apply Z.leb_le in E2; lia|].
      cbn. rewrite Nat2Z.id, nth_error_app2, Nat.sub_diag by lia.
      reflexivity.
Qed.

(** X5. [new_deck] replaces whatever the deck held by the 52 cards, every
    card exactly once, rewinds the iteration cursor and keeps the random
    source. *)
Theorem new_deck_complete d :
  Deck._deck (Deck.new_deck d) = Deck.full
  /\ Deck.__len__ (Deck.new_deck d) = 52
  /\ NoDup (Deck._deck (Deck.new_deck d))
  /\ (forall card, In card (Deck._deck (Deck.new_deck d)))
  /\ Deck._current_card (Deck.new_deck d) = 0
  /\ Deck._rand (Deck.new_deck d) = Deck._rand d.
Proof.
  repeat split; [exact full_NoDup|exact full_complete].
Qed.

Lemma deck_nexts (n : nat) :
  forall d (k : nat),
    Deck._current_card d = Z.of_nat k ->
    (k <= length (Deck._deck d))%nat ->
    Deck.nexts n d
    = (firstn n (skipn k (Deck._deck d)),
       deck_at d (Z.of_nat (Nat.min (k + n) (length (Deck._deck d))))).
Proof.
  induction n as [|n IH]; intros d k Hk Hle.
  - cbn. rewrite Nat.add_0_r, Nat.min_l by lia. rewrite <- Hk.
    now destruct d.
  - cbn [Deck.nexts]. unfold Deck.__next__. rewrite Hk.
    destruct (nth_error (Deck._deck d) k) as [x|] eqn:E.
    + rewrite (py_getitem_nth _ _ _ E).
      assert (Hlt : (k < length (Deck._deck d))%nat)
        by (apply nth_error_Some; congruence).
      rewrite (IH _ (S k)); cbn [Deck._deck Deck._current_card]; [|lia|lia].
      rewrite (skipn_nth _ _ _ E). cbn [firstn]. unfold deck_at.
      cbn [Deck._deck Deck._rand]. do 3 f_equal. lia.
    + apply nth_error_None in E.
      rewrite py_getitem_out by lia.
      rewrite skipn_all2 by lia. rewrite Nat.min_r by lia.
      unfold deck_at. destruct d; cbn in *. do 2 f_equal. lia.
Qed.

(** X6. Iterating a deck whose cursor is at 0 with [next] returns its cards
    from index 0 (the bottom) to the top, the reverse of the order in which
    [get_card] draws them, without removing any; after the last card every
    further [next] raises [StopIteration]. *)
Theorem deck_iteration d (n : nat) :
  Deck._current_card d = 0 ->
  (length (Deck._deck d) <= n)%nat ->
  Deck.nexts n d = (Deck._deck d, deck_at d (Deck.__len__ d))
  /\ Deck.__next__ (deck_at d (Deck.__len__ d)) = None
  /\ Deck._deck (deck_at d (Deck.__len__ d)) = Deck._deck d.
Proof.
  intros Hk Hn. split; [|split; [|reflexivity]].
  - rewrite (deck_nexts n d 0 Hk (Nat.le_0_l _)).
    cbn [skipn Nat.add]. rewrite firstn_all2, Nat.min_r by lia. reflexivity.
  - unfold Deck.__next__, deck_at, Deck.__len__.
    cbn [Deck._deck Deck._current_card].
    now rewrite py_getitem_out by lia.
Qed.

End DeckFacts.

(* ================================================================== *)
(** * [Deck.sort_cards] *)

Lemma insert_lt_perm {A : Type} (lt : A -> A -> bool) (x : A) (l : list A) :
  Permutation (insert_lt lt x l) (x :: l).
Proof.
  induction l as [|y l IH]; cbn; [reflexivity|].
  destruct (lt y x); [|reflexivity]. rewrite IH. apply perm_swap.
Qed.

Lemma sorted_lt_perm {A : Type} (lt : A -> A -> bool) (l : list A) :
  Permutation (sorted_lt lt l) l.
Proof.
  induction l as [|x l IH]; cbn; [constructor|].
  rewrite insert_lt_perm. now constructor.
Qed.

Lemma insert_lt_rank (x : Card.t) (l : list Card.t) :
  StronglySorted rank_le l -> StronglySorted rank_le (insert_lt Card.__lt__ x l).
Proof.
  induction 1 as [|y l Hs IH Hall]; cbn.
  - repeat constructor.
  - unfold Card.__lt__ at 1. destruct (_ <? _) eqn:E.
    + apply Z.ltb_lt in E. constructor; [exact IH|].
      apply (Permutation_Forall
               (Permutation_sym (insert_lt_perm Card.__lt__ x l))).
      constructor; [unfold rank_le; lia|exact Hall].
    + apply Z.ltb_ge in E. constructor; [now constructor|].
      constructor; [exact E|].
      eapply Forall_impl; [|exact Hall]. unfold rank_le. intros; lia.
Qed.

Lemma sorted_lt_rank (l : list Card.t) :
  StronglySorted rank_le (sorted_lt Card.__lt__ l).
Proof.
  induction l as [|x l IH]; cbn; [constructor|]. now apply insert_lt_rank.
Qed.

Lemma Permutation_filter {A : Type} (f : A -> bool) (l l' : list A) :
  Permutation l l' -> Permutation (filter f l) (filter f l').
Proof.
  induction 1 as [|x l l' _ IH|x y l|l l' l'' _ IH1 _ IH2]; cbn.
  - constructor.
  - destruct (f x); [now constructor|exact IH].
  - destruct (f x), (f y); try reflexivity. apply perm_swap.
  - now transitivity (filter f l').
Qed.

Lemma filter_orb_disjoint {A : Type} (f g : A -> bool) (l : list A) :
  (forall x, In x l -> f x = true -> g x = false) ->
  Permutation (filter (fun x => f x || g x) l) (filter f l ++ filter g l).
Proof.
  induction l as [|x l IH]; intros H; cbn; [constructor|].
  assert (IH' := IH (fun y Hy => H y (or_intror Hy))).
  destruct (f x) eqn:Ef; cbn.
  - rewrite (H x (or_introl eq_refl) Ef). now constructor.
  - destruct (g x); [|exact IH'].
    rewrite IH'. apply Permutation_middle.
Qed.

(** Two arrangements of the same elements, both in ascending order of a
    key that tells the elements apart, are the same list. *)
Lemma sorted_perm_unique {A : Type} (key : A -> Z) (l : list A) :
  forall l',
    (forall a b, In a l -> In b l -> key a = key b -> a = b) ->
    Permutation l l' ->
    StronglySorted (fun a b => key a <= key b) l ->
    StronglySorted (fun a b => key a <= key b) l' ->
    l = l'.
Proof.
  induction l as [|a t IH]; intros l' Hinj Hp Hs Hs'.
  - apply Permutation_nil in Hp. now subst.
  - destruct l' as [|a' t'];
      [apply Permutation_sym, Permutation_nil in Hp; discriminate|].
    inversion Hs as [|? ? Hst Ha]; subst.
    inversion Hs' as [|? ? Hst' Ha']; subst.
    assert (Hin : In a (a' :: t'))
      by (apply (Permutation_in _ Hp); now left).
    assert (Hin' : In a' (a :: t))
      by (apply (Permutation_in _ (Permutation_sym Hp)); now left).
    assert (Heq : a = a').
    { apply Hinj; [now left|exact Hin'|].
      assert (key a' <= key a)
        by (destruct Hin as [->|Hin]; [lia|];
            exact (proj1 (Forall_forall _ _) Ha' _ Hin)).
      assert (key a <= key a')
        by (destruct Hin' as [->|Hin']; [lia|];
            exact (proj1 (Forall_forall _ _) Ha _ Hin')).
      lia. }
    subst a'. f_equal. apply IH; try assumption.
    + intros x y Hx Hy. apply Hinj; now right.
    + exact (Permutation_cons_inv Hp).
Qed.

Lemma SUIT_name_eqb (s s' : Card.SUIT) :
  String.eqb (Card.SUIT_name s) (Card.SUIT_name s') = true <-> s = s'.
Proof.
  split; [|intros ->; apply String.eqb_refl].
  destruct s, s'; cbn; (reflexivity || discriminate).
Qed.

Section SortCards.
Context {R : Type}.
Implicit Types (d : @Deck.t R).

Lemma fold_add_card (cards : list Card.t) :
  forall d,
    Deck._deck (fold_left Deck.add_card cards d) = Deck._deck d ++ cards
    /\ Deck._rand (fold_left Deck.add_card cards d) = Deck._rand d
    /\ Deck._current_card (fold_left Deck.add_card cards d)
       = Deck._current_card d.
Proof.
  induction cards as [|c cards IH]; intros d; cbn.
  - now rewrite app_nil_r.
  - destruct (IH (Deck.add_card d c)) as (H1 & H2 & H3).
    rewrite H1, H2, H3. cbn. now rewrite <- app_assoc.
Qed.

(** The cards of the sorted deck: suit name by suit name of [order], the
    cards of that suit in the order [sorted] gives them. *)
Lemma sort_cards_deck (fresh : R) d (order : list string) :
  Deck._deck (Deck.sort_cards fresh d order)
  = flat_map (fun suit => sorted_lt Card.__lt__
                (filter (fun card => String.eqb
                                       (Card.SUIT_name (Card.suit card)) suit)
                        (Deck._deck d)))
             order
  /\ Deck._rand (Deck.sort_cards fresh d order) = fresh
  /\ Deck._current_card (Deck.sort_cards fresh d order) = 0.
Proof.
  unfold Deck.sort_cards.
  assert (H : forall acc : @Deck.t R,
    let r := fold_left
      (fun sorted_deck suit =>
         fold_left Deck.add_card
           (sorted_lt Card.__lt__
              (filter (fun deck => String.eqb
                                     (Card.SUIT_name (Card.suit deck)) suit)
                      (Deck._deck d)))
           sorted_deck) order acc in
    Deck._deck r
    = Deck._deck acc
      ++ flat_map (fun suit => sorted_lt Card.__lt__
                     (filter (fun card => String.eqb
                                (Card.SUIT_name (Card.suit card)) suit)
                             (Deck._deck d))) order
    /\ Deck._rand r = Deck._rand acc
    /\ Deck._current_card r = Deck._current_card acc).
  { induction order as [|suit order IH]; intros acc; cbn.
    - now rewrite app_nil_r.
    - match goal with
      | |- context [fold_left _ order ?a] => destruct (IH a) as (H1 & H2 & H3)
      end.
      cbn zeta in H1, H2, H3. rewrite H1, H2, H3.
      match goal with
      | |- context [fold_left Deck.add_card ?cs acc] =>
          destruct (fold_add_card cs acc) as (G1 & G2 & G3)
      end.
      rewrite G1, G2, G3. now rewrite <- app_assoc. }
  exact (H (Deck.__init__ fresh true None)).
Qed.

(** X7. [sort_cards] returns a new deck with the cursor at 0; it holds a
    card exactly when the deck holds it and its suit is named in [order];
    when [order] names no suit twice it is a rearrangement of those cards,
    and of the whole deck when [order] names all four suits. *)
Theorem sort_cards_cards (fresh : R) d (order : list string) :
  (forall card,
     In card (Deck._deck (Deck.sort_cards fresh d order))
     <-> In card (Deck._deck d) /\ suit_in order card = true)
  /\ (NoDup order ->
      Permutation (Deck._deck (Deck.sort_cards fresh d order))
                  (filter (suit_in order) (Deck._deck d)))
  /\ (NoDup order ->
      (forall suit, In (Card.SUIT_name suit) order) ->
      Permutation (Deck._deck (Deck.sort_cards fresh d order)) (Deck._deck d)
      /\ Deck.__len__ (Deck.sort_cards fresh d order) = Deck.__len__ d)
  /\ Deck._current_card (Deck.sort_cards fresh d order) = 0
  /\ Deck._rand (Deck.sort_cards fresh d order) = fresh.
Proof.
  destruct (sort_cards_deck fresh d order) as (Hd & Hr & Hc).
  assert (Hperm : NoDup order ->
            Permutation (Deck._deck (Deck.sort_cards fresh d order))
                        (filter (suit_in order) (Deck._deck d))).
  { rewrite Hd. clear Hd Hr Hc. induction order as [|suit order IH].
    - intros _. cbn. unfold suit_in. cbn. induction (Deck._deck d); cbn; auto.
    - intros Hnd. inversion Hnd as [|? ? Hnin Hnd']; subst.
      cbn [flat_map]. rewrite sorted_lt_perm, (IH Hnd').
      apply Permutation_sym.
      etransitivity; [|apply filter_orb_disjoint].
      + unfold suit_in. cbn [existsb]. reflexivity.
      + intros card _ Hs. apply String.eqb_eq in Hs.
        destruct (suit_in order card) eqn:E; [|reflexivity].
        unfold suit_in in E. apply existsb_exists in E.
        destruct E as (s' & Hin & Heq). apply String.eqb_eq in Heq.
        congruence. }
  split; [|split; [exact Hperm|split; [|now split]]].
  - intros card. rewrite Hd, in_flat_map. unfold suit_in.
    rewrite existsb_exists. split.
    + intros (suit & Hin & Hc').
      apply (Permutation_in _ (sorted_lt_perm _ _)) in Hc'.
      apply filter_In in Hc'. destruct Hc' as [Hc1 Hc2].
      split; [exact Hc1|]. now exists suit.
    + intros (Hin & suit & Hs & Heq). exists suit. split; [exact Hs|].
      apply (Permutation_in _ (Permutation_sym (sorted_lt_perm _ _))).
      apply filter_In. now split.
  - intros Hnd Hall.
    assert (Hp : Permutation (Deck._deck (Deck.sort_cards fresh d order))
                             (Deck._deck d)).
    { rewrite (Hperm Hnd), filter_all; [reflexivity|].
      apply Forall_forall. intros card _. unfold suit_in.
      apply existsb_exists. exists (Card.SUIT_name (Card.suit card)).
      split; [apply Hall|apply String.eqb_refl]. }
    split; [exact Hp|]. unfold Deck.__len__.
    now rewrite (Permutation_length Hp).
Qed.

(** X8. Sorting any arrangement of the 52 cards by a list of suits gives,
    for every suit of the list in turn, its thirteen cards from 2 to Ace;
    with the suits in their declared order that is the new deck, so
    [sort_cards] undoes [shuffle]. *)
Theorem sort_cards_unshuffle (fresh : R) d (suits : list Card.SUIT) :
  Permutation (Deck._deck d) Deck.full ->
  Deck._deck (Deck.sort_cards fresh d (map Card.SUIT_name suits))
  = by_suits suits
  /\ by_suits Card.SUITS = Deck.full.
Proof.
  intros Hp. split; [|reflexivity].
  rewrite (proj1 (sort_cards_deck fresh d _)).
  unfold by_suits. induction suits as [|suit suits IH]; [reflexivity|].
  cbn [map flat_map]. rewrite IH. f_equal. symmetry.
  apply (sorted_perm_unique (fun c => Card.RANK_value (Card.rank c))).
  - intros a b Ha Hb Hk. apply in_map_iff in Ha, Hb.
    destruct Ha as (ra & <- & _), Hb as (rb & <- & _). cbn in Hk.
    f_equal. destruct ra, rb; (reflexivity || discriminate).
  - rewrite sorted_lt_perm.
    rewrite (Permutation_filter _ _ _ Hp).
    destruct suit; reflexivity.
  - destruct suit; cbn; repeat (constructor; [|repeat constructor; cbn; lia]);
      constructor.
  - apply sorted_lt_rank.
Qed.

End SortCards.

(* ================================================================== *)
(** * Drawing and scores *)

Lemma py_sum_app (l : list Z) (x : Z) : py_sum (l ++ [x]) = py_sum l + x.
Proof. unfold py_sum. now rewrite fold_left_app. Qed.

Lemma card_score_bounds (card : Card.t) : 2 <= Card.score card <= 56.
Proof. destruct card as [[] []]; cbn; lia. Qed.

(** X9. A draw adds the score of the card, between 2 and 56, to the
    cumulative score, which therefore strictly grows; the card is the score
    of the new last round, and the scores of the earlier rounds and the
    name stay as they were. *)
Theorem draw_card_scores (p : Player.t) (card : Card.t) :
  cumulative (Player.draw_card p card) = cumulative p + Card.score card
  /\ 2 <= Card.score card <= 56
  /\ cumulative p < cumulative (Player.draw_card p card)
  /\ Player.score (Player.draw_card p card)
       (Z.of_nat (length (Player.hand p)) + 1) = Ok (Card.score card)
  /\ (forall r, 1 <= r <= Z.of_nat (length (Player.hand p)) ->
        Player.score (Player.draw_card p card) r = Player.score p r)
  /\ Player.name (Player.draw_card p card) = Player.name p.
Proof.
  pose proof (card_score_bounds card) as Hb.
  assert (Hc : cumulative (Player.draw_card p card)
               = cumulative p + Card.score card).
  { unfold cumulative, Player.draw_card. cbn [Player.hand].
    rewrite map_app. cbn [map]. apply py_sum_app. }
  split; [exact Hc|]. split; [exact Hb|]. split; [lia|].
  split; [|split; [|reflexivity]].
  - apply score_drawn; [lia|]. cbn [Player.draw_card Player.hand].
    replace (Z.to_nat (Z.of_nat (length (Player.hand p)) + 1 - 1))
      with (length (Player.hand p)) by lia.
    now rewrite nth_error_app2, Nat.sub_diag by lia.
  - intros r Hr.
    destruct (nth_error (Player.hand p) (Z.to_nat (r - 1))) as [c|] eqn:E;
      [|apply nth_error_None in E; lia].
    rewrite (score_drawn p r c) by (lia || exact E).
    apply score_drawn; [lia|]. cbn [Player.draw_card Player.hand].
    rewrite nth_error_app1; [exact E|lia].
Qed.

(* ================================================================== *)
(** * Participant sets *)

Lemma players_init_inv (names : list string) (ps : Players.t) :
  Players.__init__ names = Ok ps ->
  ps = {| Players._current_player := 0;
          Players._players := map Player.__init__ names |}
  /\ NoDup names
  /\ Forall (fun n => ~ In n Players.RESERVED) names.
Proof.
  intros H. destruct (names_dec names) as [[Hnd Hres]|Hbad].
  - rewrite (proj1 (players_init_spec names) (conj Hnd Hres)) in H.
    injection H as <-. now repeat split.
  - destruct (proj2 (players_init_spec names) Hbad) as (e & _ & He).
    congruence.
Qed.

(** X10. A participant set that was built holds one participant per name,
    in the order of the names, with empty hands and the cursor at 0; its
    names are pairwise distinct and none is an attribute of the object. *)
Theorem players_init_fresh (names : list string) (ps : Players.t) :
  Players.__init__ names = Ok ps ->
  Players._players ps = map Player.__init__ names
  /\ map Player.name (Players._players ps) = names
  /\ Forall (fun p => Player.hand p = []) (Players._players ps)
  /\ NoDup (map Player.name (Players._players ps))
  /\ Forall (fun p => ~ In (Player.name p) Players.RESERVED)
            (Players._players ps)
  /\ Players._current_player ps = 0
  /\ Players.__len__ ps = Z.of_nat (length names).
Proof.
  intros H. destruct (players_init_inv names ps H) as (-> & Hnd & Hres).
  cbn [Players._players Players._current_player].
  assert (Hn : map Player.name (map Player.__init__ names) = names)
    by (rewrite map_map; apply map_id).
  split; [reflexivity|]. split; [exact Hn|].
  split; [apply Forall_forall; intros p Hp; apply in_map_iff in Hp;
          now destruct Hp as (n & <- & _)|].
  split; [now rewrite Hn|].
  split; [apply Forall_forall; intros p Hp; apply in_map_iff in Hp;
          destruct Hp as (n & <- & Hin);
          exact (proj1 (Forall_forall _ _) Hres n Hin)|].
  split; [reflexivity|]. unfold Players.__len__. cbn.
  now rewrite length_map.
Qed.

Lemma inner_while_all (s : Z) (l : list (Player.t * Z)) :
  forall lis, Forall (fun q => snd q = s) l ->
    Players.inner_while s lis l = (lis ++ map fst l, []).
Proof.
  induction l as [|q l IH]; intros lis H; cbn.
  - now rewrite app_nil_r.
  - inversion H as [|? ? Hq Hl]; subst. rewrite Z.eqb_refl.
    rewrite (IH _ Hl), <- app_assoc. reflexivity.
Qed.

Lemma sorted_reverse_constant {A : Type} (s : Z) (l : list (A * Z)) :
  Forall (fun q => snd q = s) l -> sorted_reverse l = l.
Proof.
  induction 1 as [|q l Hq Hl IH]; [reflexivity|]. cbn. rewrite IH.
  destruct l as [|y l]; [reflexivity|]. cbn.
  inversion Hl as [|? ? Hy _]; subst. rewrite Hy, Z.ltb_irrefl. reflexivity.
Qed.

Lemma decorate_constant (rn s : Z) (ps : list Player.t) :
  Forall (fun p => Player.score p rn = Ok s) ps ->
  mapM (decorate rn) ps = Ok (map (fun p => (p, s)) ps).
Proof.
  induction 1 as [|p ps Hp _ IH]; [reflexivity|].
  cbn. unfold decorate at 1. now rewrite Hp, IH.
Qed.

Lemma get_leaderboard_all_tied (self : Players.t) (rn s : Z) :
  Players._players self <> [] ->
  Forall (fun p => Player.score p rn = Ok s) (Players._players self) ->
  Players._get_leaderboard self rn
  = Ok [(1, Players.make_place 1 s (Players._players self))].
Proof.
  intros Hne Hall. unfold Players._get_leaderboard.
  rewrite (decorate_constant rn s _ Hall). cbn [bind].
  assert (Hconst : Forall (fun q : Player.t * Z => snd q = s)
                     (map (fun p => (p, s)) (Players._players self)))
    by (apply Forall_forall; intros q Hq; apply in_map_iff in Hq;
        now destruct Hq as (p & <- & _)).
  rewrite (sorted_reverse_constant s _ Hconst).
  destruct (Players._players self) as [|p ps]; [contradiction|].
  cbn [map length Players.outer_while Players.inner_while snd fst].
  rewrite Z.eqb_refl.
  inversion Hconst as [|? ? _ Hconst']; subst.
  rewrite (inner_while_all s _ _ Hconst'). cbn [app dict_set].
  rewrite map_map. cbn [fst]. rewrite map_id.
  now destruct (length (map (fun p0 : Player.t => (p0, s)) ps)).
Qed.

(** X11. When every participant has the same score for the round selector,
    the leaderboard is one place, number 1, holding all the participants in
    registration order; it is a tie as soon as there are two participants,
    and [second] and [third] are the sentinel. *)
Theorem all_tied (self : Players.t) (rn s : Z) :
  Players._players self <> [] ->
  Forall (fun p => Player.score p rn = Ok s) (Players._players self) ->
  Players.first self rn
  = Ok (Players.make_place 1 s (Players._players self))
  /\ Players.names (Players.make_place 1 s (Players._players self))
     = map Player.name (Players._players self)
  /\ (Players.tie (Players.make_place 1 s (Players._players self)) = true
      <-> (2 <= length (Players._players self))%nat)
  /\ Players.second self rn = Ok Players.EMPTY_PLACE
  /\ Players.third self rn = Ok Players.EMPTY_PLACE.
Proof.
  intros Hne Hall.
  pose proof (get_leaderboard_all_tied self rn s Hne Hall) as Hlb.
  unfold Players.first, Players.second, Players.third. rewrite Hlb.
  repeat split; cbn [Players.tie Players.make_place].
  - intros H. apply Z.gtb_lt in H. lia.
  - intros H. apply Z.gtb_lt. lia.
Qed.

(** X12. [reset] empties every hand, keeps the names and their order, puts
    the cursor at 0, is idempotent, and gives the participant set that
    building it again from its names gives; afterwards, for any round
    selector [rn >= 0], all the participants of a non-empty set share
    place 1 with score 0. *)
Theorem reset_spec (self : Players.t) :
  map Player.name (Players._players (Players.reset self))
  = map Player.name (Players._players self)
  /\ Forall (fun p => Player.hand p = [])
            (Players._players (Players.reset self))
  /\ Players._current_player (Players.reset self) = 0
  /\ Players.reset (Players.reset self) = Players.reset self
  /\ (forall fresh,
        Players.__init__ (map Player.name (Players._players self)) = Ok fresh ->
        Players.reset self = fresh)
  /\ (forall rn, 0 <= rn -> Players._players self <> [] ->
        Players._get_leaderboard (Players.reset self) rn
        = Ok [(1, Players.make_place 1 0
                    (Players._players (Players.reset self)))]).
Proof.
  unfold Players.reset. cbn [Players._players Players._current_player].
  split; [now rewrite map_map|].
  split; [apply Forall_forall; intros p Hp; apply in_map_iff in Hp;
          now destruct Hp as (q & <- & _)|].
  split; [reflexivity|].
  split; [now rewrite map_map|].
  split.
  - intros fresh H.
    destruct (players_init_inv _ _ H) as (-> & _ & _). now rewrite map_map.
  - intros rn Hrn Hne. apply get_leaderboard_all_tied.
    + cbn. now destruct (Players._players self).
    + cbn. apply Forall_forall. intros p Hp. apply in_map_iff in Hp.
      destruct Hp as (q & <- & _).
      destruct (Z.eq_dec rn 0) as [->|Hnz]; [reflexivity|].
      apply score_not_drawn. cbn. lia.
Qed.

Lemma has_score_iff (rn s : Z) (p : Player.t) :
  Players.has_score rn s p = true <-> Player.score p rn = Ok s.
Proof.
  unfold Players.has_score. destruct (Player.score p rn) as [s'|e].
  - rewrite Z.eqb_eq. split; congruence.
  - split; discriminate.
Qed.

Lemma filter_head {A : Type} (f : A -> bool) (l : list A) :
  forall x r, filter f l = x :: r ->
    exists pre post, l = pre ++ x :: post
                     /\ Forall (fun y => f y = false) pre /\ f x = true.
Proof.
  induction l as [|y l IH]; intros x r H; cbn in H; [discriminate|].
  destruct (f y) eqn:E.
  - injection H as -> _. now exists [], l.
  - destruct (IH x r H) as (pre & post & -> & Hpre & Hx).
    exists (y :: pre), post. repeat split; [now constructor|exact Hx].
Qed.

(** Every participant is in the group of some place of the leaderboard. *)
Lemma leaderboard_covers (self : Players.t) (rn : Z)
  (l_b_dict : dict Players.PLACE) (q : Player.t) :
  leaderboard_of self rn l_b_dict ->
  In q (Players._players self) ->
  exists e, In e l_b_dict
            /\ Player.score q rn = Ok (Players.score (snd e)).
Proof.
  intros (_ & _ & Hall & _ & Hperm) Hq.
  apply (Permutation_in _ (Permutation_sym Hperm)) in Hq.
  rewrite placing_players in Hq. apply in_flat_map in Hq.
  destruct Hq as (e & He & Hq). exists e. split; [exact He|].
  destruct (proj1 (Forall_forall _ _) Hall e He) as (_ & _ & Hfil).
  rewrite Hfil in Hq. apply filter_In in Hq. now apply has_score_iff.
Qed.

(** X13. With at least one participant and a round selector [rn >= 0],
    [first] is place 1; its score is the highest score; its group is all
    the participants with that score, in registration order; its
    representative and name are those of the earliest registered of them;
    and it is a tie exactly when at least two participants have that
    score. *)
Theorem first_winner (self : Players.t) (rn : Z) :
  0 <= rn ->
  Players._players self <> [] ->
  exists place_nt winner,
    Players.first self rn = Ok place_nt
    /\ Players.place place_nt = 1
    /\ Players.player place_nt = Some winner
    /\ Players.name place_nt = Some (Player.name winner)
    /\ Player.score winner rn = Ok (Players.score place_nt)
    /\ (forall q s, In q (Players._players self) ->
                    Player.score q rn = Ok s -> s <= Players.score place_nt)
    /\ Players.players place_nt
       = filter (Players.has_score rn (Players.score place_nt))
                (Players._players self)
    /\ Players.names place_nt = map Player.name (Players.players place_nt)
    /\ (exists earlier later,
          Players._players self = earlier ++ winner :: later
          /\ Forall (fun q => Player.score q rn
                              <> Ok (Players.score place_nt)) earlier)
    /\ (Players.tie place_nt = true
        <-> (2 <= length (Players.players place_nt))%nat).
Proof.
  intros Hrn Hne. destruct (leaderboard_spec self rn Hrn) as [lb Hlb].
  pose proof Hlb as (Hget & Hkeys & Hall & Hsorted & Hperm).
  destruct lb as [|[k P] lb].
  { cbn in Hperm. apply Permutation_nil in Hperm. contradiction. }
  cbn in Hkeys. injection Hkeys as -> _.
  inversion Hall as [|? ? (Hshape & Hnonempty & Hfil) Hall']; subst.
  inversion Hsorted as [|? ? _ Hlt]; subst.
  cbn [fst snd] in Hshape, Hnonempty, Hfil, Hlt.
  destruct (Players.players P) as [|winner others] eqn:Ew; [contradiction|].
  exists P, winner.
  assert (Hw : In winner (filter (Players.has_score rn (Players.score P))
                                 (Players._players self)))
    by (rewrite <- Hfil; now left).
  apply filter_In in Hw. destruct Hw as [Hwin Hws].
  apply has_score_iff in Hws.
  split; [unfold Players.first; rewrite Hget; cbn; reflexivity|].
  split; [rewrite Hshape; reflexivity|].
  split; [rewrite Hshape; reflexivity|].
  split; [rewrite Hshape; reflexivity|].
  split; [exact Hws|].
  split.
  { intros q s Hq Hs.
    destruct (leaderboard_covers self rn _ q Hlb Hq) as (e & He & Hse).
    assert (s = Players.score (snd e)) by congruence. subst s.
    destruct He as [<-|He]; [cbn; lia|].
    pose proof (proj1 (Forall_forall _ _) Hlt e He). cbn in *. lia. }
  split; [rewrite Ew; exact Hfil|].
  split; [rewrite Ew, Hshape; reflexivity|].
  split.
  { symmetry in Hfil.
    destruct (filter_head _ _ _ _ Hfil) as (pre & post & Hps & Hpre & _).
    exists pre, post. split; [exact Hps|].
    eapply Forall_impl; [|exact Hpre]. intros q Hq Hs.
    apply has_score_iff in Hs. congruence. }
  rewrite Hshape. cbn [Players.tie Players.make_place Players.players].
  cbn [length]. rewrite Z.gtb_ltb, Z.ltb_lt. lia.
Qed.

(** X14. For a round selector [rn >= 0], [first] is the sentinel exactly
    when there are no participants, and [second] is the sentinel exactly
    when no two participants have different scores. *)
Theorem sentinel_iff (self : Players.t) (rn : Z) :
  0 <= rn ->
  (Players.first self rn = Ok Players.EMPTY_PLACE
   <-> Players._players self = [])
  /\ (Players.second self rn = Ok Players.EMPTY_PLACE
      <-> forall p q, In p (Players._players self) ->
                      In q (Players._players self) ->
                      Player.score p rn = Player.score q rn).
Proof.
  intros Hrn. destruct (leaderboard_spec self rn Hrn) as [lb Hlb].
  pose proof Hlb as (Hget & Hkeys & Hall & Hsorted & Hperm).
  assert (Hreal : forall k, 1 <= k <= Z.of_nat (length lb) ->
                            dict_get lb k Players.EMPTY_PLACE
                            <> Players.EMPTY_PLACE).
  { intros k Hk Heq.
    pose proof (proj2 (accessor_spec self rn k lb Hlb) Hk) as Hin.
    destruct (proj1 (Forall_forall _ _) Hall _ Hin) as (_ & Hne & _).
    cbn in Hne. rewrite Heq in Hne. now apply Hne. }
  unfold Players.first, Players.second. rewrite Hget. cbn [bind]. split.
  - split.
    + intros H. injection H as H.
      destruct lb as [|e lb].
      * cbn in Hperm. now apply Permutation_nil in Hperm.
      * exfalso. apply (Hreal 1); [cbn [length]; lia|exact H].
    + intros Hnil. rewrite Hnil in Hperm.
      apply Permutation_sym, Permutation_nil in Hperm.
      rewrite placing_players in Hperm.
      destruct lb as [|[k P] lb]; [reflexivity|].
      inversion Hall as [|? ? (_ & Hne & _) _]; subst.
      cbn [flat_map snd] in Hne, Hperm.
      destruct (Players.players P); [contradiction|discriminate].
  - split.
    + intros H p q Hp Hq. injection H as H.
      assert (Hlen : (length lb <= 1)%nat).
      { destruct (Nat.le_gt_cases (length lb) 1) as [Hle|Hgt]; [exact Hle|].
        exfalso. apply (Hreal 2); [lia|exact H]. }
      destruct (leaderboard_covers self rn lb p Hlb Hp) as (e & He & Hse).
      destruct (leaderboard_covers self rn lb q Hlb Hq) as (e' & He' & Hse').
      destruct lb as [|e0 [|e1 lb]]; [contradiction| |cbn in Hlen; lia].
      destruct He as [<-|[]], He' as [<-|[]]. congruence.
    + intros Heq.
      destruct (Players._players self) as [|p ps] eqn:Eps.
      * apply Permutation_sym, Permutation_nil in Hperm.
        rewrite placing_players in Hperm.
        destruct lb as [|[k P] lb]; [reflexivity|].
        inversion Hall as [|? ? (_ & Hne & _) _]; subst.
        cbn [flat_map snd] in Hne, Hperm.
        destruct (Players.players P); [contradiction|discriminate].
      * destruct (score_total p rn Hrn) as [s Hs].
        assert (Htied : Forall (fun x => Player.score x rn = Ok s)
                               (Players._players self)).
        { rewrite Eps. apply Forall_forall. intros x Hx.
          rewrite (Heq x p Hx (or_introl eq_refl)). exact Hs. }
        assert (Hne : Players._players self <> [])
          by (rewrite Eps; discriminate).
        rewrite (get_leaderboard_all_tied self rn s Hne Htied) in Hget.
        injection Hget as <-. reflexivity.
Qed.

Lemma players_nexts (n : nat) :
  forall (ps : Players.t) (k : nat),
    Players._current_player ps = Z.of_nat k ->
    (k <= length (Players._players ps))%nat ->
    Players.nexts n ps
    = (firstn n (skipn k (Players._players ps)),
       players_at ps
         (Z.of_nat (Nat.min (k + n) (length (Players._players ps))))).
Proof.
  induction n as [|n IH]; intros ps k Hk Hle.
  - cbn. rewrite Nat.add_0_r, Nat.min_l by lia. rewrite <- Hk.
    now destruct ps.
  - cbn [Players.nexts]. unfold Players.__next__. rewrite Hk.
    destruct (nth_error (Players._players ps) k) as [x|] eqn:E.
    + rewrite (py_getitem_nth _ _ _ E).
      assert (Hlt : (k < length (Players._players ps))%nat)
        by (apply nth_error_Some; congruence).
      rewrite (IH _ (S k));
        cbn [Players._players Players._current_player]; [|lia|lia].
      rewrite (skipn_nth _ _ _ E). cbn [firstn]. unfold players_at.
      cbn [Players._players]. do 3 f_equal. lia.
    + apply nth_error_None in E.
      rewrite py_getitem_out by lia.
      rewrite skipn_all2 by lia. rewrite Nat.min_r by lia.
      unfold players_at. destruct ps; cbn in *. do 2 f_equal. lia.
Qed.

(** X15. Iterating a participant set whose cursor is at 0 with [next]
    returns the participants in registration order and then raises
    [StopIteration] for good; [reset] rewinds it, whatever the cursor was,
    so that the iteration starts again with the first participant. *)
Theorem players_iteration (self : Players.t) (n : nat) :
  (length (Players._players self) <= n)%nat ->
  (Players._current_player self = 0 ->
   Players.nexts n self
   = (Players._players self, players_at self (Players.__len__ self)))
  /\ Players.__next__ (players_at self (Players.__len__ self)) = None
  /\ Players.nexts n (Players.reset self)
     = (Players._players (Players.reset self),
        players_at (Players.reset self) (Players.__len__ self)).
Proof.
  intros Hn.
  assert (H0 : forall ps, Players._current_player ps = 0 ->
             (length (Players._players ps) <= n)%nat ->
             Players.nexts n ps
             = (Players._players ps, players_at ps (Players.__len__ ps))).
  { intros ps Hk Hlen.
    rewrite (players_nexts n ps 0 Hk (Nat.le_0_l _)).
    cbn [skipn Nat.add]. rewrite firstn_all2, Nat.min_r by lia. reflexivity. }
  split; [intros Hk; now apply H0|]. split.
  - unfold Players.__next__, players_at, Players.__len__.
    cbn [Players._players Players._current_player].
    now rewrite py_getitem_out by lia.
  - rewrite H0; [|reflexivity|cbn; now rewrite length_map].
    unfold Players.__len__, Players.reset. cbn. now rewrite length_map.
Qed.

(* ================================================================== *)
(** * Rounds and games *)

Section GameFacts.
Context {R : Type}.
Variable rand_shuffle : R -> list Card.t -> R * list Card.t.
Variable rand_below : R -> nat -> R * nat.

Abbreviation game' := (@Game.t R).

(** X16. With a message dictionary that has a template for every category
    displayed, playing a game that is over plays no round: it shows
    WELCOME, the outcome by the cumulative first place and the
    leaderboard, and leaves the participants, their hands, the deck, the
    round counter and the limit as they were; only the random source that
    picks the templates has advanced. *)
Theorem play_inactive (self : game') (out : list Game.Output) :
  Game.messages_ok (Game._message self) = true ->
  Game._is_active self = false ->
  exists first_nt text welcome over self',
    Players.first (Game.players self) 0 = Ok first_nt
    /\ Players.__str__ (Game.players self) = Ok text
    /\ Game.play rand_shuffle rand_below self out
       = Some (Ok (self',
                   out ++ [Game.Display "WELCOME" [] welcome;
                           (if Players.tie first_nt
                            then Game.Display "GAME OVER TIE" [] over
                            else Game.Display "GAME OVER"
                                   [("game_winner",
                                     Game.VName (Players.name first_nt))]
                                   over);
                           Game.Print text]))
    /\ Game.players self' = Game.players self
    /\ Game._deck self' = Game._deck self
    /\ Game._current_round self' = Game._current_round self
    /\ Game._is_active self' = false
    /\ Game._max_rounds self' = Game._max_rounds self
    /\ Game._message self' = Game._message self.
Proof.
  intros Hok Hoff. unfold Game.play.
  pose proof (display_spec rand_below self out "WELCOME" []) as H1.
  destruct (Game._display_message rand_below self out "WELCOME" [])
    as [[self1 out1]|e].
  2:{ destruct H1 as [_ Hbad].
      rewrite (Hbad []) in Hok; [discriminate|cbn; tauto|reflexivity]. }
  destruct H1 as (ts1 & t1 & welcome & _ & _ & _ & -> & ->).
  rewrite play_while_inactive by exact Hoff.
  match goal with
  | |- context [Game.after_loop ?rb ?s ?o] =>
      pose proof (after_loop_spec rb s o) as H2;
      destruct (Game.after_loop rb s o) as [[self2 out2]|e]
  end.
  2:{ destruct H2 as [_ Hbad]. cbn [Game._message Game.set_rand] in Hbad.
      congruence. }
  destruct H2 as (P & text & over & r & HP & Ht & -> & ->).
  cbn [Game.players Game.set_rand] in HP, Ht.
  exists P, text, welcome, over. eexists.
  split; [exact HP|]. split; [exact Ht|].
  split; [now rewrite <- app_assoc|].
  cbn. now repeat split.
Qed.

Hypothesis shuffle_perm :
  forall r l, Permutation l (snd (rand_shuffle r l)).

(** X17. With a message dictionary that has a template for every category
    displayed, a round gives every participant exactly one card, in
    registration order, and changes neither the names nor the order;
    while the deck holds at least one card per participant, the cards are
    its top cards, the top one for the first participant, the rest of the
    deck stays as it was and the deck is not made new. *)
Theorem next_round_deal (self : game') (out : list Game.Output) :
  Game.messages_ok (Game._message self) = true ->
  exists self' out' cards,
    Game._next_round rand_shuffle rand_below self out = Ok (self', out')
    /\ length cards = length (Players._players (Game.players self))
    /\ Players._players (Game.players self')
       = deal (Players._players (Game.players self)) cards
    /\ Forall2 (grew 1) (Players._players (Game.players self))
               (Players._players (Game.players self'))
    /\ ((length (Players._players (Game.players self))
         <= length (Deck._deck (Game._deck self)))%nat ->
        Deck._deck (Game._deck self)
        = Deck._deck (Game._deck self') ++ rev cards
        /\ Deck._rand (Game._deck self') = Deck._rand (Game._deck self)).
Proof.
  intros Hok.
  pose proof (next_round_spec rand_shuffle rand_below shuffle_perm self out)
    as H.
  destruct (Game._next_round rand_shuffle rand_below self out)
    as [[self' out']|e]; [|destruct H; congruence].
  destruct H as (cards & Hlen & Hps & _ & _ & _ & _ & Hdk).
  exists self', out', cards. split; [reflexivity|]. split; [exact Hlen|].
  split; [exact Hps|]. split; [|exact Hdk].
  rewrite Hps. now apply deal_grew.
Qed.

(** X18. With a message dictionary that has a template for every category
    displayed, [play] on an active game whose round counter is between 1
    and the maximum plays the rounds from the counter to the maximum: it
    returns with the game inactive, the counter one above the maximum, and
    every participant, under the same name and in the same order, holding
    that many more cards. *)
Theorem play_rounds (self : game') (out : list Game.Output) :
  Game.messages_ok (Game._message self) = true ->
  Game._is_active self = true ->
  1 <= Game._current_round self <= Game._max_rounds self ->
  exists self' out',
    Game.play rand_shuffle rand_below self out = Some (Ok (self', out'))
    /\ Game._is_active self' = false
    /\ Game._current_round self' = Game._max_rounds self + 1
    /\ Game._max_rounds self' = Game._max_rounds self
    /\ map Player.name (Players._players (Game.players self'))
       = map Player.name (Players._players (Game.players self))
    /\ Forall2
         (grew (Z.to_nat (Game._max_rounds self
                          - Game._current_round self + 1)))
         (Players._players (Game.players self))
         (Players._players (Game.players self')).
Proof.
  intros Hok Hact Hcur.
  destruct (play_ok rand_shuffle rand_below shuffle_perm self out Hok)
    as (self' & out' & H & Hoff & Hm & Hgrow); [lia|].
  destruct (Hgrow Hact) as [Hc Hg]; [lia|].
  exists self', out'. repeat (split; [assumption|]).
  split; [exact (grew_names _ _ _ Hg)|exact Hg].
Qed.

End GameFacts.

Lemma reset_empty (self : Players.t) :
  map Player.name (Players._players (Players.reset self))
  = map Player.name (Players._players self)
  /\ Forall (fun p => Player.hand p = [])
            (Players._players (Players.reset self))
  /\ Players._current_player (Players.reset self) = 0.
Proof.
  unfold Players.reset. cbn. split; [now rewrite map_map|].
  split; [|reflexivity]. apply Forall_forall. intros p Hp.
  apply in_map_iff in Hp. now destruct Hp as (q & <- & _).
Qed.

Lemma grew_from_empty (k : nat) (l1 l2 : list Player.t) :
  Forall (fun p => Player.hand p = []) l1 ->
  Forall2 (grew k) l1 l2 ->
  Forall (fun p => length (Player.hand p) = k) l2.
Proof.
  intros He H. induction H as [|p q l1 l2 (_ & cs & Hl & Hh) _ IH];
    [constructor|].
  inversion He as [|? ? Hp He']; subst.
  constructor; [|now apply IH]. now rewrite Hh, Hp.
Qed.

Section GameLife.
Context {R : Type}.
Variable rand_shuffle : R -> list Card.t -> R * list Card.t.
Variable rand_below : R -> nat -> R * nat.

Abbreviation game'' := (@Game.t R).

(** What a successful [Game(...)] tells about its arguments and result. *)
Lemma game_init_inv (deck_rand game_rand : R) (conf : option Game.Messages)
  (names : list string) (deck : option (@Deck.t R)) (max_rounds : Z)
  (message : option Game.Messages) (self : game'') :
  Game.__init__ rand_shuffle deck_rand game_rand conf names deck max_rounds
    message = Ok self ->
  1 <= max_rounds
  /\ names <> []
  /\ Players.__init__ names = Ok (Game.players self)
  /\ Game._current_round self = 1
  /\ Game._is_active self = true
  /\ Game._max_rounds self = max_rounds
  /\ Game._deck self
     = match deck with
       | Some d =>
           if Deck.__bool__ d then d
           else Deck.shuffle rand_shuffle (Deck.__init__ deck_rand false None)
       | None =>
           Deck.shuffle rand_shuffle (Deck.__init__ deck_rand false None)
       end.
Proof.
  unfold Game.__init__.
  destruct (max_rounds <? 1) eqn:E1; [discriminate|].
  destruct (Z.of_nat (length names) =? 0) eqn:E2; [discriminate|].
  match goal with
  | |- bind ?m _ = _ -> _ => destruct m as [msg|e]; [|discriminate]
  end.
  cbn [bind].
  destruct (Players.__init__ names) as [ps|e]; [|discriminate].
  cbn [bind]. intros H. injection H as <-. cbn.
  apply Z.ltb_ge in E1. apply Z.eqb_neq in E2.
  repeat split; try easy.
  intros ->. now apply E2.
Qed.

Hypothesis shuffle_perm :
  forall r l, Permutation l (snd (rand_shuffle r l)).

(** X19. [new_game] makes the game active at round 1 with the same limit
    and messages, empties every hand keeping names and order, and leaves
    a rearrangement of the 52 cards as the deck; with a limit of at least
    1 and a message dictionary that has a template for every category
    displayed, playing then ends with every participant holding exactly as
    many cards as there are rounds. *)
Theorem new_game_spec (self : game'') (out : list Game.Output) :
  Game._is_active (Game.new_game rand_shuffle self) = true
  /\ Game._current_round (Game.new_game rand_shuffle self) = 1
  /\ Game._max_rounds (Game.new_game rand_shuffle self)
     = Game._max_rounds self
  /\ Game._message (Game.new_game rand_shuffle self) = Game._message self
  /\ Game.players (Game.new_game rand_shuffle self)
     = Players.reset (Game.players self)
  /\ Permutation (Deck._deck (Game._deck (Game.new_game rand_shuffle self)))
                 Deck.full
  /\ (1 <= Game._max_rounds self ->
      Game.messages_ok (Game._message self) = true ->
      exists self' out',
        Game.play rand_shuffle rand_below (Game.new_game rand_shuffle self)
          out = Some (Ok (self', out'))
        /\ Game._is_active self' = false
        /\ map Player.name (Players._players (Game.players self'))
           = map Player.name (Players._players (Game.players self))
        /\ Forall (fun p => Z.of_nat (length (Player.hand p))
                            = Game._max_rounds self)
                  (Players._players (Game.players self'))).
Proof.
  split; [reflexivity|]. split; [reflexivity|]. split; [reflexivity|].
  split; [reflexivity|]. split; [reflexivity|]. split.
  { unfold Game.new_game. cbn [Game._deck Game.set_deck Game.set_is_active
                                 Game.set_current_round].
    apply Permutation_sym.
    exact (shuffle_deck rand_shuffle shuffle_perm
             (Deck.new_deck (Game._deck self))). }
  intros Hmax Hok.
  destruct (play_ok rand_shuffle rand_below shuffle_perm
              (Game.new_game rand_shuffle self) out Hok)
    as (self' & out' & H & Hoff & _ & Hgrow); [cbn; lia|].
  destruct (Hgrow eq_refl) as [_ Hg]; [cbn; lia|].
  exists self', out'. split; [exact H|]. split; [exact Hoff|].
  cbn [Game.new_game Game.players Game._max_rounds Game._current_round
       Game.set_deck Game.set_is_active Game.set_current_round] in Hg.
  split.
  - rewrite (grew_names _ _ _ Hg). unfold Players.reset. cbn.
    now rewrite map_map.
  - eapply Forall_impl;
      [|apply (grew_from_empty _ _ _
                 (proj1 (proj2 (reset_empty (Game.players self)))) Hg)].
    intros p Hp. cbn beta in Hp. rewrite Hp. lia.
Qed.

(** X20. A game that was built with a message dictionary that has a
    template for every category displayed, played from the start, ends
    inactive with the round counter one above the limit, and every
    participant, in the order of the names given, holds exactly
    [max_rounds] cards. *)
Theorem construct_and_play (deck_rand game_rand : R)
  (conf : option Game.Messages) (names : list string)
  (deck : option (@Deck.t R)) (max_rounds : Z)
  (message : option Game.Messages) (self : game'') :
  Game.__init__ rand_shuffle deck_rand game_rand conf names deck max_rounds
    message = Ok self ->
  Game.messages_ok (Game._message self) = true ->
  exists self' out',
    Game.play rand_shuffle rand_below self [] = Some (Ok (self', out'))
    /\ Game._is_active self' = false
    /\ Game._current_round self' = max_rounds + 1
    /\ map Player.name (Players._players (Game.players self')) = names
    /\ Forall (fun p => Z.of_nat (length (Player.hand p)) = max_rounds)
              (Players._players (Game.players self')).
Proof.
  intros Hinit Hok.
  destruct (game_init_inv _ _ _ _ _ _ _ _ Hinit)
    as (Hmax & _ & Hps & Hc & Ha & Hm & _).
  destruct (players_init_inv _ _ Hps) as (Hpl & _ & _).
  destruct (play_ok rand_shuffle rand_below shuffle_perm self [] Hok)
    as (self' & out' & H & Hoff & _ & Hgrow); [lia|].
  destruct (Hgrow Ha) as [Hc' Hg]; [lia|].
  exists self', out'. split; [exact H|]. split; [exact Hoff|].
  split; [lia|]. rewrite Hpl in Hg. cbn [Players._players] in Hg.
  rewrite Hc, Hm in Hg. split.
  - rewrite (grew_names _ _ _ Hg), map_map. apply map_id.
  - assert (He : Forall (fun p => Player.hand p = [])
                        (map Player.__init__ names)).
    { apply Forall_forall. intros p Hp. apply in_map_iff in Hp.
      now destruct Hp as (n & <- & _). }
    eapply Forall_impl; [|exact (grew_from_empty _ _ _ He Hg)].
    intros p Hp. cbn beta in Hp. rewrite Hp. lia.
Qed.

(** X21. A game that was built never starts on an empty deck: a deck passed
    in that holds cards is used as it is, and an empty one, like none at
    all, is replaced by a shuffled deck of the 52 cards. *)
Theorem game_init_deck (deck_rand game_rand : R)
  (conf : option Game.Messages) (names : list string)
  (deck : option (@Deck.t R)) (max_rounds : Z)
  (message : option Game.Messages) (self : game'') :
  Game.__init__ rand_shuffle deck_rand game_rand conf names deck max_rounds
    message = Ok self ->
  Deck._deck (Game._deck self) <> []
  /\ (forall d, deck = Some d -> Deck._deck d <> [] -> Game._deck self = d)
  /\ ((deck = None \/ exists d, deck = Some d /\ Deck._deck d = []) ->
      Permutation (Deck._deck (Game._deck self)) Deck.full
      /\ Deck.__len__ (Game._deck self) = 52).
Proof.
  intros Hinit.
  destruct (game_init_inv _ _ _ _ _ _ _ _ Hinit)
    as (_ & _ & _ & _ & _ & _ & Hd).
  pose proof (Permutation_sym
                (shuffle_deck rand_shuffle shuffle_perm
                   (Deck.__init__ deck_rand false None))) as Hp.
  change (Deck._deck (Deck.__init__ deck_rand false None)) with Deck.full
    in Hp.
  assert (Hfull : forall l, Permutation l Deck.full -> l <> []).
  { intros l Hl ->. apply Permutation_nil in Hl. discriminate. }
  assert (Hlen : Deck.__len__
                   (Deck.shuffle rand_shuffle
                      (Deck.__init__ deck_rand false None))
                 = 52).
  { unfold Deck.__len__. now rewrite (Permutation_length Hp). }
  split; [|split].
  - rewrite Hd. destruct deck as [d|]; [|now apply Hfull].
    unfold Deck.__bool__. destruct (Deck._deck d) eqn:E;
      [now apply Hfull|rewrite E; discriminate].
  - intros d -> Hne. rewrite Hd. unfold Deck.__bool__.
    now destruct (Deck._deck d).
  - intros [->|(d & -> & Hnil)]; rewrite Hd; [now split|].
    unfold Deck.__bool__. rewrite Hnil. now split.
Qed.

End GameLife.

(* ================================================================== *)
(** * Instances of the further properties *)

Lemma game_5_start_built :
  Game.__init__ keep_order tt tt None PLAYERS_2 (Some (deck_5 tt)) 3
    (Some MESSAGE) = Ok game_5_start.
Proof. reflexivity. Qed.

Lemma card_str_injective_witness :
  Card.__str__ (Card.mk Card.Spades Card.R9)
  = Card.__str__ (Card.mk Card.Spades Card.R9)
  /\ Card.mk Card.Spades Card.R9 = Card.mk Card.Spades Card.R9.
Proof.
  split; [reflexivity|].
  apply (card_str_injective (Card.mk Card.Spades Card.R9)
           (Card.mk Card.Spades Card.R9)).
  reflexivity.
Defined.

Lemma deck_iteration_witness :
  Deck._current_card (Deck.__init__ tt false None) = 0
  /\ (length (Deck._deck (Deck.__init__ tt false None)) <= 52)%nat
  /\ Deck.nexts 52 (Deck.__init__ tt false None)
     = (Deck._deck (Deck.__init__ tt false None),
        deck_at (Deck.__init__ tt false None)
          (Deck.__len__ (Deck.__init__ tt false None))).
Proof.
  split; [reflexivity|]. split; [apply le_n|].
  apply (deck_iteration (Deck.__init__ tt false None) 52);
    [reflexivity|apply le_n].
Defined.

Lemma sort_cards_unshuffle_witness :
  Permutation (Deck._deck (Deck.__init__ tt false None)) Deck.full
  /\ Deck._deck (Deck.sort_cards tt (Deck.__init__ tt false None)
                   (map Card.SUIT_name SORT_ORDER))
     = by_suits SORT_ORDER.
Proof.
  split; [apply Permutation_refl|].
  apply (sort_cards_unshuffle tt (Deck.__init__ tt false None) SORT_ORDER).
  apply Permutation_refl.
Defined.

Lemma players_init_fresh_witness :
  Players.__init__ PLAYERS_2 = Ok (Game.players game_5_start)
  /\ map Player.name (Players._players (Game.players game_5_start))
     = PLAYERS_2.
Proof.
  split; [reflexivity|].
  apply (players_init_fresh PLAYERS_2 (Game.players game_5_start)).
  reflexivity.
Defined.

Lemma all_tied_witness :
  Players._players (Game.players game_5_start) <> []
  /\ Forall (fun p => Player.score p 2 = Ok 0)
            (Players._players (Game.players game_5_start))
  /\ Players.second (Game.players game_5_start) 2 = Ok Players.EMPTY_PLACE.
Proof.
  assert (Hne : Players._players (Game.players game_5_start) <> [])
    by discriminate.
  assert (Hall : Forall (fun p => Player.score p 2 = Ok 0)
                        (Players._players (Game.players game_5_start)))
    by (repeat constructor).
  split; [exact Hne|]. split; [exact Hall|].
  apply (all_tied (Game.players game_5_start) 2 0 Hne Hall).
Defined.

Lemma first_winner_witness :
  0 <= 2
  /\ Players._players (Game.players game_5_round_3) <> []
  /\ exists place_nt winner,
       Players.first (Game.players game_5_round_3) 2 = Ok place_nt
       /\ Players.player place_nt = Some winner.
Proof.
  split; [lia|]. split; [discriminate|].
  destruct (first_winner (Game.players game_5_round_3) 2)
    as (P & w & H1 & _ & H2 & _); [lia|discriminate|].
  exists P, w. split; [exact H1|exact H2].
Defined.

Lemma sentinel_iff_witness :
  0 <= 1
  /\ (Players.first (Game.players game_5_round_3) 1 = Ok Players.EMPTY_PLACE
      <-> Players._players (Game.players game_5_round_3) = []).
Proof.
  split; [lia|].
  apply (sentinel_iff (Game.players game_5_round_3) 1). lia.
Defined.

Lemma players_iteration_witness :
  (length (Players._players (Game.players game_5_round_3)) <= 3)%nat
  /\ Players.__next__
       (players_at (Game.players game_5_round_3)
          (Players.__len__ (Game.players game_5_round_3))) = None.
Proof.
  split; [apply le_n|].
  apply (players_iteration (Game.players game_5_round_3) 3). apply le_n.
Defined.

Lemma play_inactive_witness :
  Game.messages_ok (Game._message (Game.end_game game_5_round_3)) = true
  /\ Game._is_active (Game.end_game game_5_round_3) = false
  /\ exists self' out',
       Game.play keep_order first_choice (Game.end_game game_5_round_3) []
       = Some (Ok (self', out'))
       /\ Game.players self' = Game.players (Game.end_game game_5_round_3)
       /\ Game._deck self' = Game._deck (Game.end_game game_5_round_3).
Proof.
  split; [reflexivity|]. split; [reflexivity|].
  destruct (play_inactive keep_order first_choice
              (Game.end_game game_5_round_3) [] eq_refl eq_refl)
    as (P & text & welcome & over & self' & _ & _ & H1 & H2 & H3 & _).
  exists self'. eexists. split; [exact H1|]. split; [exact H2|exact H3].
Defined.

Lemma next_round_deal_witness :
  (forall r l, Permutation l (snd (keep_order r l)))
  /\ Game.messages_ok (Game._message game_5_round_3) = true
  /\ exists self' out' cards,
       Game._next_round keep_order first_choice game_5_round_3 []
       = Ok (self', out')
       /\ Players._players (Game.players self')
          = deal (Players._players (Game.players game_5_round_3)) cards.
Proof.
  split; [exact keep_order_perm|]. split; [reflexivity|].
  destruct (next_round_deal keep_order first_choice keep_order_perm
              game_5_round_3 [] eq_refl)
    as (self' & out' & cards & H1 & _ & H2 & _).
  exists self', out', cards. split; [exact H1|exact H2].
Defined.

Lemma play_rounds_witness :
  (forall r l, Permutation l (snd (keep_order r l)))
  /\ Game.messages_ok (Game._message game_5_start) = true
  /\ Game._is_active game_5_start = true
  /\ 1 <= Game._current_round game_5_start <= Game._max_rounds game_5_start
  /\ exists self' out',
       Game.play keep_order first_choice game_5_start []
       = Some (Ok (self', out'))
       /\ Game._is_active self' = false.
Proof.
  split; [exact keep_order_perm|]. split; [reflexivity|].
  split; [reflexivity|]. split; [cbn; lia|].
  destruct (play_rounds keep_order first_choice keep_order_perm game_5_start
              [] eq_refl eq_refl)
    as (self' & out' & H1 & H2 & _); [cbn; lia|].
  exists self', out'. split; [exact H1|exact H2].
Defined.

Lemma new_game_spec_witness :
  (forall r l, Permutation l (snd (keep_order r l)))
  /\ 1 <= Game._max_rounds game_5_round_3
  /\ Game.messages_ok (Game._message game_5_round_3) = true
  /\ Permutation
       (Deck._deck (Game._deck (Game.new_game keep_order game_5_round_3)))
       Deck.full
  /\ exists self' out',
       Game.play keep_order first_choice
         (Game.new_game keep_order game_5_round_3) []
       = Some (Ok (self', out'))
       /\ Game._is_active self' = false.
Proof.
  split; [exact keep_order_perm|]. split; [cbn; lia|].
  split; [reflexivity|].
  destruct (new_game_spec keep_order first_choice keep_order_perm
              game_5_round_3 [])
    as (_ & _ & _ & _ & _ & Hperm & Hplay).
  split; [exact Hperm|].
  destruct Hplay as (self' & out' & H1 & H2 & _);
    [cbn; lia|reflexivity|].
  exists self', out'. split; [exact H1|exact H2].
Defined.

Lemma construct_and_play_witness :
  (forall r l, Permutation l (snd (keep_order r l)))
  /\ Game.__init__ keep_order tt tt None PLAYERS_2 (Some (deck_5 tt)) 3
       (Some MESSAGE) = Ok game_5_start
  /\ Game.messages_ok (Game._message game_5_start) = true
  /\ exists self' out',
       Game.play keep_order first_choice game_5_start []
       = Some (Ok (self', out'))
       /\ map Player.name (Players._players (Game.players self'))
          = PLAYERS_2.
Proof.
  split; [exact keep_order_perm|]. split; [reflexivity|].
  split; [reflexivity|].
  destruct (construct_and_play keep_order first_choice keep_order_perm tt tt
              None PLAYERS_2 (Some (deck_5 tt)) 3 (Some MESSAGE)
              game_5_start eq_refl eq_refl)
    as (self' & out' & H1 & _ & _ & H2 & _).
  exists self', out'. split; [exact H1|exact H2].
Defined.

Lemma game_init_deck_witness :
  (forall r l, Permutation l (snd (keep_order r l)))
  /\ Game.__init__ keep_order tt tt None PLAYERS_2 (Some (deck_5 tt)) 3
       (Some MESSAGE) = Ok game_5_start
  /\ Deck._deck (Game._deck game_5_start) <> [].
Proof.
  split; [exact keep_order_perm|]. split; [reflexivity|].
  apply (game_init_deck keep_order keep_order_perm tt tt None PLAYERS_2
           (Some (deck_5 tt)) 3 (Some MESSAGE) game_5_start eq_refl).
Defined.

(* ================================================================== *)
(** * Equality *)

(** X22. [==] holds between two cards exactly when they are the same card,
    between two decks exactly when they hold the same cards in the same
    order, whatever their random sources and cursors, and between two
    participants exactly when name and hand are the same. *)
Theorem equality_structural {R : Type} (a b : Card.t) (d d' : @Deck.t R)
  (p q : Player.t) :
  (Card.eqb a b = true <-> a = b)
  /\ (Deck.__eq__ d d' = true <-> Deck._deck d = Deck._deck d')
  /\ (Player.eqb p q = true
      <-> Player.name p = Player.name q /\ Player.hand p = Player.hand q).
Proof.
  split; [apply Card_eqb_eq|]. split; [apply cards_eqb_eq|].
  rewrite Player_eqb_eq. destruct p, q; cbn. split.
  - intros H. injection H as -> ->. now split.
  - now intros [-> ->].
Qed.
